(** * esssans: the I(Q) reduction core ([i_of_q.py], [normalization.py])

    A shallow embedding of the providers of [esssans.i_of_q] and
    [esssans.normalization] together with the fragment of the array library
    (scipp) they are written against.

    - Array elements are IEEE binary64 numbers ([PrimFloat.float]); every
      arithmetic step of the Python code is the corresponding float
      operation, so results are compared bit for bit.
    - A scipp Variable ([Var]) is a labelled dense array: named dimensions with
      their extents, a flat row-major buffer of values and an optional buffer
      of variances.  A [DataArray] adds coordinates (with their alignment
      flag) and boolean masks, and its data is either dense or binned
      (one list of event records per cell).
    - Python exceptions are the [Raise] branch of [result].
    - Library operations whose numerical definition is not fixed by the
      repository (re-binning, histogramming onto new edges, interpolation,
      the mean, [scn.L2], the helpers of [esssans.common] and
      [esssans.uncertainty], label based slicing) are the fields of the
      interface [External]; the providers are functions of that interface.
      The two providers of the denominator terms take two more operations
      through the interface [Broadcasters].
    - Units and dtypes other than float64 are not represented. *)

From Stdlib Require Import Floats ZArith List String Bool Arith Lia Permutation.
From Stdlib Require Uint63.
Import ListNotations.

#[local] Set Warnings "-inexact-float".
#[local] Open Scope string_scope.
#[local] Open Scope list_scope.

(* ================================================================== *)
(** ** Exceptions *)

Inductive Exception : Type :=
| KeyError
| DimensionError
| CoordMismatchError
| VariancesError
| BinEdgeError
| TypeError
| IndexError
| AttributeError
| ValueError
| NotModelled.

Inductive result (A : Type) : Type :=
| Ok (a : A)
| Raise (e : Exception).

Arguments Ok {A} a.
Arguments Raise {A} e.

Definition bind {A B : Type} (m : result A) (k : A -> result B) : result B :=
  match m with
  | Ok a => k a
  | Raise e => Raise e
  end.

Notation "x <- m ;; k" := (bind m (fun x => k))
  (at level 61, m at next level, right associativity).

Fixpoint mapM {A B : Type} (f : A -> result B) (l : list A) : result (list B) :=
  match l with
  | [] => Ok []
  | a :: l' => b <- f a ;; bs <- mapM f l' ;; Ok (b :: bs)
  end.

Definition is_ok {A : Type} (m : result A) : bool :=
  match m with Ok _ => true | Raise _ => false end.

(* ================================================================== *)
(** ** Named dimensions and row-major indexing *)

(** Dimension labels are strings. *)
Abbreviation Dim := string.

(** [Sizes] is scipp's ordered mapping from dimension label to extent. *)
Definition Sizes := list (Dim * nat).

Definition dims_of (s : Sizes) : list Dim := map fst s.

Definition mem (d : Dim) (l : list Dim) : bool := existsb (String.eqb d) l.

Definition has_dim (d : Dim) (s : Sizes) : bool := mem d (dims_of s).

Fixpoint size_of (d : Dim) (s : Sizes) : option nat :=
  match s with
  | [] => None
  | (d', n) :: r => if String.eqb d d' then Some n else size_of d r
  end.

Definition volume (s : Sizes) : nat := fold_right (fun p acc => snd p * acc) 1 s.

Definition sizes_eqb (a b : Sizes) : bool :=
  Nat.eqb (List.length a) (List.length b) &&
  forallb (fun p => String.eqb (fst (fst p)) (fst (snd p)) && Nat.eqb (snd (fst p)) (snd (snd p)))
          (combine a b).

Definition without (r : list Dim) (s : Sizes) : Sizes :=
  filter (fun p => negb (mem (fst p) r)) s.

Definition only (r : list Dim) (s : Sizes) : Sizes :=
  filter (fun p => mem (fst p) r) s.

(** A multi-index assigns a position to dimension labels (0 when absent). *)
Definition Index := list (Dim * nat).

Fixpoint position (d : Dim) (ix : Index) : nat :=
  match ix with
  | [] => 0
  | (d', i) :: r => if String.eqb d d' then i else position d r
  end.

Fixpoint unravel (s : Sizes) (k : nat) : Index :=
  match s with
  | [] => []
  | (d, _) :: r => (d, k / volume r) :: unravel r (k mod volume r)
  end.

Fixpoint ravel (s : Sizes) (ix : Index) : nat :=
  match s with
  | [] => 0
  | (d, _) :: r => position d ix * volume r + ravel r ix
  end.

Definition valid_index (s : Sizes) (ix : Index) : Prop :=
  forall d n, In (d, n) s -> position d ix < n.

(** The buffer of an array of extents [from] read through the (possibly
    larger) extents [out]: element [k] of the result is the element of [xs]
    at the multi-index of [k]; dimensions of [out] absent from [from] are
    broadcast. *)
Definition gather {A : Type} (dflt : A) (out from : Sizes) (xs : list A) : list A :=
  map (fun k => nth (ravel from (unravel out k)) xs dflt) (seq 0 (volume out)).

(** scipp's [merge] of two dimension sets: the order of both operands is
    kept, labels of [b] are inserted before the first label of [a] they
    precede in [b]; a common label with two extents is a [DimensionError]. *)
Fixpoint span_until (d : Dim) (it : Sizes) : Sizes * Sizes :=
  match it with
  | [] => ([], [])
  | p :: r =>
      if String.eqb (fst p) d then ([], it)
      else let (pre, post) := span_until d r in (p :: pre, post)
  end.

Fixpoint merge_from (afull : Sizes) (b : Sizes) (a : Sizes) (it : Sizes) : result Sizes :=
  match a with
  | [] => Ok (without (dims_of afull) it)
  | (d, n) :: a' =>
      match size_of d b with
      | Some m =>
          if Nat.eqb n m then
            let (pre, post) := span_until d it in
            r <- merge_from afull b a' post ;;
            Ok (without (dims_of afull) pre ++ (d, n) :: r)
          else Raise DimensionError
      | None => r <- merge_from afull b a' it ;; Ok ((d, n) :: r)
      end
  end.

Definition merge_sizes (a b : Sizes) : result Sizes := merge_from a b a b.

(* ================================================================== *)
(** ** Association lists (Python dicts with string keys) *)

Fixpoint assoc_get {A : Type} (k : string) (l : list (string * A)) : option A :=
  match l with
  | [] => None
  | (k', v) :: r => if String.eqb k k' then Some v else assoc_get k r
  end.

Fixpoint assoc_set {A : Type} (k : string) (v : A) (l : list (string * A)) : list (string * A) :=
  match l with
  | [] => [(k, v)]
  | (k', v') :: r => if String.eqb k k' then (k, v) :: r else (k', v') :: assoc_set k v r
  end.

Definition getitem {A : Type} (k : string) (l : list (string * A)) : result A :=
  match assoc_get k l with
  | Some v => Ok v
  | None => Raise KeyError
  end.

(* ================================================================== *)
(** ** Variables *)

Record Var : Type := mkVar {
  sizes : Sizes;
  values : list float;
  variances : option (list float)
}.

Definition dims (v : Var) : list Dim := dims_of (sizes v).

Definition ndim (v : Var) : nat := List.length (sizes v).

(** [v.dim]: defined for one-dimensional variables only. *)
Definition dim (v : Var) : result Dim :=
  match sizes v with
  | [(d, _)] => Ok d
  | _ => Raise DimensionError
  end.

Definition scalar (x : float) : Var := mkVar [] [x] None.

Definition array1 (d : Dim) (xs : list float) : Var :=
  mkVar [(d, List.length xs)] xs None.

(** [sc.values]: the same array without variances. *)
Definition var_values (v : Var) : Var :=
  mkVar (sizes v) (values v) None.

Definition at_index (v : Var) (ix : Index) : float :=
  nth (ravel (sizes v) ix) (values v) nan.


(** IEEE equality of buffers ([==] element by element; NaN differs from
    itself), and the variant used when coordinates are compared, where two
    NaN are equal. *)
Definition feq_nan (x y : float) : bool :=
  PrimFloat.eqb x y || (PrimFloat.is_nan x && PrimFloat.is_nan y).

Fixpoint list_eqb {A : Type} (eq : A -> A -> bool) (a b : list A) : bool :=
  match a, b with
  | [], [] => true
  | x :: a', y :: b' => eq x y && list_eqb eq a' b'
  | _, _ => false
  end.

Definition opt_eqb {A : Type} (eq : A -> A -> bool) (a b : option A) : bool :=
  match a, b with
  | None, None => true
  | Some x, Some y => eq x y
  | _, _ => false
  end.

Definition var_equal (eq : float -> float -> bool) (a b : Var) : bool :=
  sizes_eqb (sizes a) (sizes b) &&
  list_eqb eq (values a) (values b) &&
  opt_eqb (list_eqb eq) (variances a) (variances b).

(** [sc.identical(a, b)] on variables. *)
Definition identical (a b : Var) : bool := var_equal PrimFloat.eqb a b.

(** Comparison of coordinates in binary operations ([equals_nan]). *)
Definition matching (a b : Var) : bool := var_equal feq_nan a b.

(** *** Element-wise arithmetic with variance propagation *)

Inductive BinOp : Type := OpSub | OpMul | OpDiv.

Definition op_value (o : BinOp) (x y : float) : float :=
  match o with
  | OpSub => (x - y)%float
  | OpMul => (x * y)%float
  | OpDiv => (x / y)%float
  end.

(** Variance of [x o y]; [vx], [vy] are the operands' variances where they
    have one.  The formulas are those of scipp's [ValueAndVariance]; an
    operand without variances enters them with the variance 0. *)
Definition op_variance (o : BinOp) (x : float) (vx : option float)
                       (y : float) (vy : option float) : float :=
  let a := match vx with Some a => a | None => 0%float end in
  let b := match vy with Some b => b | None => 0%float end in
  match o with
  | OpSub => (a + b)%float
  | OpMul => (a * y * y + b * x * x)%float
  | OpDiv => ((a + b * (x * x) / (y * y)) / (y * y))%float
  end.

(** An operand with variances may not be broadcast: scipp raises
    [VariancesError] because the copies would be correlated. *)
Definition broadcasts (out : Sizes) (v : Var) : bool :=
  negb (Nat.eqb (List.length (sizes v)) (List.length out)).

Definition variance_guard (out : Sizes) (v : Var) : result unit :=
  match variances v with
  | Some _ => if broadcasts out v then Raise VariancesError else Ok tt
  | None => Ok tt
  end.

Definition elem_values (o : BinOp) (out : Sizes) (a b : Var) : list float :=
  map (fun k =>
         let ix := unravel out k in
         op_value o (at_index a ix) (at_index b ix))
      (seq 0 (volume out)).

Definition var_at (s : option (list float)) (sz : Sizes) (ix : Index) : option float :=
  match s with
  | Some l => Some (nth (ravel sz ix) l nan)
  | None => None
  end.

Definition elem_variances (o : BinOp) (out : Sizes) (a b : Var) : option (list float) :=
  match variances a, variances b with
  | None, None => None
  | _, _ =>
      Some (map (fun k =>
                   let ix := unravel out k in
                   op_variance o (at_index a ix) (var_at (variances a) (sizes a) ix)
                                 (at_index b ix) (var_at (variances b) (sizes b) ix))
                (seq 0 (volume out)))
  end.

Definition var_binop (o : BinOp) (a b : Var) : result Var :=
  out <- merge_sizes (sizes a) (sizes b) ;;
  _ <- variance_guard out a ;;
  _ <- variance_guard out b ;;
  Ok (mkVar out (elem_values o out a b) (elem_variances o out a b)).

(** *** Reshaping used by the spectrum merger *)

(** [{**{'band': 1}, **v.sizes}]: a later key overrides an earlier one. *)
Definition band_first (s : Sizes) : Sizes :=
  match size_of "band" s with
  | Some _ => s
  | None => ("band", 1) :: s
  end.

(** [v.fold(dim, sizes)]: the dimension [d] is replaced, in place, by the
    dimensions [new]; the buffer is unchanged.  A variable without the
    dimension [d] is a [KeyError], new extents of another volume a
    [DimensionError]. *)
Fixpoint fold_sizes (d : Dim) (new : Sizes) (s : Sizes) : option Sizes :=
  match s with
  | [] => None
  | (d', n) :: r =>
      if String.eqb d d' then
        if Nat.eqb (volume new) n then Some (new ++ r) else None
      else
        match fold_sizes d new r with
        | Some r' => Some ((d', n) :: r')
        | None => None
        end
  end.

Definition fold (v : Var) (d : Dim) (new : Sizes) : result Var :=
  if has_dim d (sizes v) then
    match fold_sizes d new (sizes v) with
    | Some s => Ok (mkVar s (values v) (variances v))
    | None => Raise DimensionError
    end
  else Raise KeyError.

(** [sc.collapse(v, keep).values()]: the one-dimensional slices of [v]
    along [keep], one for every position in the other dimensions, in
    row-major order of those. *)
Definition collapse (v : Var) (keep : Dim) : result (list Var) :=
  match size_of keep (sizes v) with
  | None => Raise DimensionError
  | Some n =>
      let outer := without [keep] (sizes v) in
      Ok (map (fun k =>
                 let ix := unravel outer k in
                 let pick (l : list float) :=
                   map (fun j => nth (ravel (sizes v) ((keep, j) :: ix)) l nan) (seq 0 n) in
                 mkVar [(keep, n)] (pick (values v)) (option_map pick (variances v)))
              (seq 0 (volume outer)))
  end.

(** [v[i]] for a one-dimensional variable. *)
Definition var_item (v : Var) (i : nat) : result float :=
  match sizes v with
  | [(_, n)] => if Nat.ltb i n then Ok (nth i (values v) nan) else Raise IndexError
  | _ => Raise DimensionError
  end.

(* ================================================================== *)
(** ** Data arrays: dense or binned data with coordinates and masks *)

(** One record of an event list: its weight (with variance) and its own
    coordinate values, e.g. the exact [Q] and [wavelength] of the event. *)
Record Event : Type := mkEvent {
  ev_weight : float;
  ev_variance : float;
  ev_coords : list (string * float)
}.

Inductive Data : Type :=
| Dense (v : Var)
| Binned (s : Sizes) (with_variances : bool) (cells : list (list Event)).

Record Coord : Type := mkCoord {
  c_var : Var;
  c_aligned : bool
}.

Record Mask : Type := mkMask {
  m_sizes : Sizes;
  m_values : list bool
}.

Record DataArray : Type := mkDataArray {
  data : Data;
  coords : list (string * Coord);
  masks : list (string * Mask)
}.

Definition data_sizes (d : Data) : Sizes :=
  match d with
  | Dense v => sizes v
  | Binned s _ _ => s
  end.

Definition da_sizes (x : DataArray) : Sizes := data_sizes (data x).

Definition da_dims (x : DataArray) : list Dim := dims_of (da_sizes x).

(** [x.bins is not None] *)
Definition has_bins (x : DataArray) : bool :=
  match data x with
  | Dense _ => false
  | Binned _ _ _ => true
  end.

(** [x.variances is not None]; on binned data [x.variances] is [None]. *)
Definition has_variances (x : DataArray) : result bool :=
  match data x with
  | Dense v => Ok (match variances v with Some _ => true | None => false end)
  | Binned _ _ _ => Ok false
  end.

(** [sc.values(x)] *)
Definition da_values (x : DataArray) : DataArray :=
  match data x with
  | Dense v => mkDataArray (Dense (var_values v)) (coords x) (masks x)
  | Binned s _ c => mkDataArray (Binned s false c) (coords x) (masks x)
  end.

Definition depends_on (r : list Dim) (s : Sizes) : bool :=
  existsb (fun p => mem (fst p) r) s.

Definition mask_at (m : Mask) (ix : Index) : bool :=
  nth (ravel (m_sizes m) ix) (m_values m) false.

(** *** Coordinates and masks of the result of a binary operation *)

(** Aligned coordinates present on both sides must match; an unaligned
    coordinate gives way to an aligned one and is dropped on a mismatch with
    another unaligned one.  A coordinate found on one side only is kept when
    it is aligned and dropped when it is not. *)
Definition meet_coord (ca : Coord) (cb : Coord) : result (option Coord) :=
  match c_aligned ca, c_aligned cb with
  | true, true =>
      if matching (c_var ca) (c_var cb) then Ok (Some ca) else Raise CoordMismatchError
  | true, false => Ok (Some ca)
  | false, true => Ok (Some cb)
  | false, false =>
      if matching (c_var ca) (c_var cb) then Ok (Some ca) else Ok None
  end.

Fixpoint merge_left (a b : list (string * Coord)) : result (list (string * Coord)) :=
  match a with
  | [] => Ok []
  | (n, ca) :: a' =>
      c <- match assoc_get n b with
           | Some cb => meet_coord ca cb
           | None => Ok (if c_aligned ca then Some ca else None)
           end ;;
      r <- merge_left a' b ;;
      Ok (match c with Some c' => (n, c') :: r | None => r end)
  end.

Definition absent_from {A B : Type} (a : list (string * A)) (nb : string * B) : bool :=
  match assoc_get (fst nb) a with Some _ => false | None => true end.

Definition merge_coords (a b : list (string * Coord)) : result (list (string * Coord)) :=
  l <- merge_left a b ;;
  Ok (l ++ filter (fun nb => absent_from a nb && c_aligned (snd nb)) b).

Definition or_mask (ma mb : Mask) : result Mask :=
  out <- merge_sizes (m_sizes ma) (m_sizes mb) ;;
  Ok (mkMask out (map (fun k => let ix := unravel out k in mask_at ma ix || mask_at mb ix)
                      (seq 0 (volume out)))).

Fixpoint merge_masks_left (a b : list (string * Mask)) : result (list (string * Mask)) :=
  match a with
  | [] => Ok []
  | (n, ma) :: a' =>
      m <- match assoc_get n b with
           | Some mb => or_mask ma mb
           | None => Ok ma
           end ;;
      r <- merge_masks_left a' b ;;
      Ok ((n, m) :: r)
  end.

Definition merge_masks (a b : list (string * Mask)) : result (list (string * Mask)) :=
  l <- merge_masks_left a b ;;
  Ok (l ++ filter (absent_from a) b).

(** [a o b] on data arrays.  Arithmetic with a binned operand is outside
    the modelled fragment: the providers only combine dense arrays. *)
Definition da_binop (o : BinOp) (a b : DataArray) : result DataArray :=
  match data a, data b with
  | Dense va, Dense vb =>
      cs <- merge_coords (coords a) (coords b) ;;
      v <- var_binop o va vb ;;
      ms <- merge_masks (masks a) (masks b) ;;
      Ok (mkDataArray (Dense v) cs ms)
  | _, _ => Raise NotModelled
  end.

(** Every aligned coordinate of [b] must be a matching coordinate of [a]. *)
Definition coords_cover (a b : list (string * Coord)) : bool :=
  forallb (fun nb =>
             negb (c_aligned (snd nb)) ||
             match assoc_get (fst nb) a with
             | Some ca => matching (c_var ca) (c_var (snd nb))
             | None => false
             end) b.

(** [a -= b]: the left operand keeps its dimensions, coordinates and its
    being with or without variances. *)
Definition da_isub (a b : DataArray) : result DataArray :=
  match data a, data b with
  | Dense va, Dense vb =>
      if coords_cover (coords a) (coords b) then
        v <- var_binop OpSub va vb ;;
        if negb (sizes_eqb (sizes v) (sizes va)) then Raise DimensionError
        else
          match variances va, variances vb with
          | None, Some _ => Raise VariancesError
          | _, _ =>
              ms <- merge_masks (masks a) (masks b) ;;
              Ok (mkDataArray (Dense v) (coords a) ms)
          end
      else Raise CoordMismatchError
  | _, _ => Raise NotModelled
  end.

(** *** Operations on binned data *)

Definition fsum (l : list float) : float := fold_left PrimFloat.add l 0%float.

Definition sum_cells (wv : bool) (s : Sizes) (cells : list (list Event)) : Var :=
  mkVar s (map (fun c => fsum (map ev_weight c)) cells)
        (if wv then Some (map (fun c => fsum (map ev_variance c)) cells) else None).

(** [x.bins.sum()] *)
Definition bins_sum (x : DataArray) : result DataArray :=
  match data x with
  | Binned s wv cells => Ok (mkDataArray (Dense (sum_cells wv s cells)) (coords x) (masks x))
  | Dense _ => Raise AttributeError
  end.


Definition cell_masked (ms : list (string * Mask)) (r : list Dim) (ix : Index) : bool :=
  existsb (fun nm => depends_on r (m_sizes (snd nm)) && mask_at (snd nm) ix) ms.

(** [x.bins.concat(r)]: the event lists of all cells that differ only in
    the dimensions [r] are concatenated (masked cells are left out);
    coordinates and masks that depend on [r] are dropped. *)
Definition bins_concat (x : DataArray) (r : list Dim) : result DataArray :=
  match data x with
  | Dense _ => Raise AttributeError
  | Binned s wv cells =>
      let kept := without r s in
      let gone := only r s in
      let cells' :=
        map (fun k =>
               let ixk := unravel kept k in
               flat_map (fun j =>
                           let ix := ixk ++ unravel gone j in
                           if cell_masked (masks x) r ix then []
                           else nth (ravel s ix) cells [])
                        (seq 0 (volume gone)))
            (seq 0 (volume kept)) in
      Ok (mkDataArray (Binned kept wv cells')
            (filter (fun nc => negb (depends_on r (sizes (c_var (snd nc))))) (coords x))
            (filter (fun nm => negb (depends_on r (m_sizes (snd nm)))) (masks x)))
  end.

(** Bins are half open: [edges[i] <= x < edges[i+1]]; a coordinate that
    is NaN lies in no bin (the library's search on equally spaced edges,
    which files such a coordinate in the first bin, is not represented). *)
Definition in_bin (edges : list float) (i : nat) (x : float) : bool :=
  PrimFloat.leb (nth i edges nan) x && PrimFloat.ltb x (nth (S i) edges nan).

Fixpoint sorted_edges (l : list float) : bool :=
  match l with
  | a :: r =>
      match r with
      | b :: _ => PrimFloat.leb a b && sorted_edges r
      | [] => true
      end
  | [] => true
  end.

Definition event_in (name : string) (edges : list float) (i : nat) (e : Event) : bool :=
  match assoc_get name (ev_coords e) with
  | Some x => in_bin edges i x
  | None => false
  end.

Definition split_cell (name : string) (edges : list float) (c : list Event) : list (list Event) :=
  map (fun i => filter (event_in name edges i) c) (seq 0 (List.length edges - 1)).

Definition has_coord (name : string) (e : Event) : bool :=
  match assoc_get name (ev_coords e) with Some _ => true | None => false end.

(** [x.bin(name=edges)] on binned data: a new innermost dimension [name]
    with one bin per pair of consecutive edges; an existing dimension of
    that name is merged first.  The events keep their order. *)
Definition bin_by (x : DataArray) (name : Dim) (edges : Var) : result DataArray :=
  d <- dim edges ;;
  if negb (String.eqb d name) then Raise DimensionError else
  x1 <- (if has_dim name (da_sizes x) then bins_concat x [name] else Ok x) ;;
  match data x1 with
  | Dense _ => Raise NotModelled
  | Binned s wv cells =>
      if Nat.ltb (List.length (values edges)) 2 then Raise BinEdgeError
      else if negb (sorted_edges (values edges)) then Raise BinEdgeError
      else if negb (forallb (forallb (has_coord name)) cells) then Raise KeyError
      else
        Ok (mkDataArray
              (Binned (s ++ [(name, List.length (values edges) - 1)]) wv
                      (flat_map (split_cell name (values edges)) cells))
              (assoc_set name (mkCoord edges true) (coords x1))
              (masks x1))
  end.

(** *** Squeezing *)

Definition unit_dims (s : Sizes) : list Dim :=
  dims_of (filter (fun p => Nat.eqb (snd p) 1) s).

(** The extents left after indexing position 0 of the dimensions [u]: a
    bin-edge coordinate of such a dimension keeps its two edges. *)
Definition drop_unit (u : list Dim) (s : Sizes) : Sizes :=
  filter (fun p => negb (mem (fst p) u && Nat.eqb (snd p) 1)) s.

Definition squeeze_coord (u : list Dim) (c : Coord) : Coord :=
  mkCoord (mkVar (drop_unit u (sizes (c_var c))) (values (c_var c)) (variances (c_var c)))
          (c_aligned c && negb (depends_on u (sizes (c_var c)))).

Definition squeeze_mask (u : list Dim) (m : Mask) : Mask :=
  mkMask (drop_unit u (m_sizes m)) (m_values m).

Definition squeeze_data (u : list Dim) (d : Data) : Data :=
  match d with
  | Dense v => Dense (mkVar (drop_unit u (sizes v)) (values v) (variances v))
  | Binned s wv c => Binned (drop_unit u s) wv c
  end.

(** [x.squeeze()]: all dimensions of extent 1 are indexed away; the
    coordinates of those dimensions stay on the result as unaligned
    coordinates. *)
Definition squeeze (x : DataArray) : DataArray :=
  let u := unit_dims (da_sizes x) in
  mkDataArray (squeeze_data u (data x))
              (map (fun nc => (fst nc, squeeze_coord u (snd nc))) (coords x))
              (map (fun nm => (fst nm, squeeze_mask u (snd nm))) (masks x)).

(** *** Concatenation *)

(** A buffer of extents [s] seen as a stack of slices along [d].  A buffer
    that does not depend on [d] is repeated once per slice of its host (the
    array it belongs to), or once when the host has no dimension [d] either.
    Only an outermost [d] is modelled. *)
Definition as_slab {A : Type} (d : Dim) (host s : Sizes) (xs : list A)
  : result (Sizes * list A) :=
  let copies := match size_of d host with Some n => n | None => 1 end in
  match s with
  | (d', _) :: r =>
      if String.eqb d d' then Ok (s, xs)
      else if has_dim d r then Raise NotModelled
      else Ok ((d, copies) :: s, List.concat (repeat xs copies))
  | [] => Ok ((d, copies) :: s, List.concat (repeat xs copies))
  end.

Definition join_slabs {A : Type} (d : Dim) (a b : Sizes * list A)
  : result (Sizes * list A) :=
  match fst a, fst b with
  | (_, n) :: sa, (_, m) :: sb =>
      if sizes_eqb sa sb then Ok ((d, n + m) :: sa, snd a ++ snd b)
      else Raise DimensionError
  | _, _ => Raise DimensionError
  end.

Definition stack {A : Type} (d : Dim) (hosta sa : Sizes) (xa : list A)
                 (hostb sb : Sizes) (xb : list A) : result (Sizes * list A) :=
  a <- as_slab d hosta sa xa ;;
  b <- as_slab d hostb sb xb ;;
  join_slabs d a b.

Definition var_concat (d : Dim) (hosta : Sizes) (va : Var) (hostb : Sizes) (vb : Var)
  : result Var :=
  vals <- stack d hosta (sizes va) (values va) hostb (sizes vb) (values vb) ;;
  vars <- match variances va, variances vb with
          | None, None => Ok None
          | Some x, Some y =>
              r <- stack d hosta (sizes va) x hostb (sizes vb) y ;; Ok (Some (snd r))
          | _, _ => Raise VariancesError
          end ;;
  Ok (mkVar (fst vals) (snd vals) vars).

Definition data_concat (d : Dim) (a b : Data) : result Data :=
  match a, b with
  | Dense va, Dense vb =>
      v <- var_concat d (sizes va) va (sizes vb) vb ;; Ok (Dense v)
  | Binned sa wa ca, Binned sb wb cb =>
      if Bool.eqb wa wb then
        r <- stack d sa sa ca sb sb cb ;; Ok (Binned (fst r) wa (snd r))
      else Raise VariancesError
  | _, _ => Raise TypeError
  end.

(** A coordinate that matches in both inputs and does not depend on [d] is
    kept; otherwise the two are stacked along [d], and the stacked
    coordinate is aligned. *)
Definition concat_coord (d : Dim) (a b : DataArray) (nc : string * Coord)
  : result (string * Coord) :=
  cb <- getitem (fst nc) (coords b) ;;
  let ca := snd nc in
  if negb (has_dim d (sizes (c_var ca))) && negb (has_dim d (sizes (c_var cb)))
     && matching (c_var ca) (c_var cb)
  then Ok (fst nc, mkCoord (c_var ca) (c_aligned ca || c_aligned cb))
  else
    v <- var_concat d (da_sizes a) (c_var ca) (da_sizes b) (c_var cb) ;;
    Ok (fst nc, mkCoord v true).

Definition mask_matching (ma mb : Mask) : bool :=
  sizes_eqb (m_sizes ma) (m_sizes mb) && list_eqb Bool.eqb (m_values ma) (m_values mb).

Definition concat_mask (d : Dim) (a b : DataArray) (nm : string * Mask)
  : result (string * Mask) :=
  mb <- getitem (fst nm) (masks b) ;;
  let ma := snd nm in
  if negb (has_dim d (m_sizes ma)) && negb (has_dim d (m_sizes mb)) && mask_matching ma mb
  then Ok nm
  else
    r <- stack d (da_sizes a) (m_sizes ma) (m_values ma) (da_sizes b) (m_sizes mb) (m_values mb) ;;
    Ok (fst nm, mkMask (fst r) (snd r)).

Definition concat2 (d : Dim) (a b : DataArray) : result DataArray :=
  dt <- data_concat d (data a) (data b) ;;
  cs <- mapM (concat_coord d a b) (coords a) ;;
  ms <- mapM (concat_mask d a b) (masks a) ;;
  Ok (mkDataArray dt cs ms).

(** The data of a single input as a stack of one slice (or as it is when
    [d] already is its outermost dimension). *)
Definition lift (d : Dim) (x : DataArray) : result DataArray :=
  dt <- match data x with
        | Dense v =>
            vals <- as_slab d (sizes v) (sizes v) (values v) ;;
            vars <- match variances v with
                    | Some s => r <- as_slab d (sizes v) (sizes v) s ;; Ok (Some (snd r))
                    | None => Ok None
                    end ;;
            Ok (Dense (mkVar (fst vals) (snd vals) vars))
        | Binned s wv c =>
            r <- as_slab d s s c ;; Ok (Binned (fst r) wv (snd r))
        end ;;
  Ok (mkDataArray dt (coords x) (masks x)).

(** [sc.concat(xs, d)] *)
Definition concat (xs : list DataArray) (d : Dim) : result DataArray :=
  match xs with
  | [] => Raise ValueError
  | x :: r =>
      x0 <- lift d x ;;
      fold_left (fun acc y => a <- acc ;; concat2 d a y) r (Ok x0)
  end.

(** *** Event-wise division by a lookup table *)

Definition find_bin (edges : list float) (x : float) : option nat :=
  find (fun i => in_bin edges i x) (seq 0 (List.length edges - 1)).





(** *** [scipp.core.concepts.rewrap_reduced_data] *)

Definition reduced_coords (x : DataArray) (r : list Dim) : list (string * Coord) :=
  filter (fun nc => negb (depends_on r (sizes (c_var (snd nc))))) (coords x).

Definition reduced_masks (x : DataArray) (r : list Dim) : list (string * Mask) :=
  filter (fun nm => negb (depends_on r (m_sizes (snd nm)))) (masks x).

(** The coordinates and masks of [prototype] that do not depend on any of
    the reduced dimensions [r], around the new data. *)
Definition rewrap_reduced_data (prototype : DataArray) (d : Var) (r : list Dim) : DataArray :=
  mkDataArray (Dense d) (reduced_coords prototype r) (reduced_masks prototype r).

(** Python's [set(a) - set(b)] on dimension labels. *)
Definition set_minus (a b : list Dim) : list Dim :=
  filter (fun d => negb (mem d b)) a.

(* ================================================================== *)
(** ** Operations taken as an interface *)

(** Modelled from the spec: the enumeration [UncertaintyBroadcastMode] of
    [esssans.types], which is not among the sources; the spec names its
    three values. *)
Inductive UncertaintyBroadcastMode : Type := drop | upper_bound | fail.

(** The Q binning: a number of bins or explicit bin edges. *)
Inductive QBins : Type :=
| QCount (n : nat)
| QEdges (edges : Var).

(** [fill_value] of [interp1d]. *)
Inductive FillValue : Type := FillNaN | Extrapolate.

Class External : Type := {
  (** [esssans.common.mask_range(da, mask)] for the mask with the single
      entry [True] over the range [r] of dimension [d] *)
  mask_range : DataArray -> Dim -> Var -> result DataArray;
  (** [da.mean()] *)
  mean : DataArray -> result DataArray;
  (** [da.hist(d=bins)] with bins given *)
  hist : DataArray -> Dim -> QBins -> result DataArray;
  (** [da.rebin(d=edges)] *)
  rebin : DataArray -> Dim -> Var -> result DataArray;
  (** the edges [da.bin(d=n)] chooses for [n] bins *)
  auto_edges : DataArray -> Dim -> nat -> result Var;
  (** [esssans.uncertainty.broadcast_with_upper_bound_variances(da, sizes)] *)
  broadcast_with_upper_bound_variances : DataArray -> Sizes -> result DataArray;
  (** [interp1d(da, d, fill_value=.., bounds_error=..)(xnew, midpoints=..)] *)
  interp1d : DataArray -> Dim -> FillValue -> bool -> Var -> bool -> result DataArray;
  (** [scn.L2(da)]: the distance from the sample to each pixel *)
  L2 : DataArray -> result Var;
  (** [da.sum(dims)] *)
  sum : DataArray -> list Dim -> result DataArray;
  (** [da[d, lo:hi]] with labels [lo], [hi] *)
  slice_range : DataArray -> Dim -> float -> float -> result DataArray;
  (** which element of a set of labels [pop] takes (hash order) *)
  set_order : list Dim -> nat
}.

(** [s.pop()] on a Python set. *)
Definition set_pop {E : External} (s : list Dim) : result Dim :=
  match s with
  | [] => Raise KeyError
  | _ :: _ => Ok (nth (set_order s mod List.length s) s "")
  end.

(** [x.bin(name=b)] *)
Definition bin {E : External} (x : DataArray) (name : Dim) (b : QBins) : result DataArray :=
  match b with
  | QEdges v => bin_by x name v
  | QCount n => e <- auto_edges x name n ;; bin_by x name e
  end.

(* ================================================================== *)
(** ** [i_of_q.py] *)

(** The mask data array built from [non_background_range]: one [True]
    entry along the dimension of the range, with the range as its
    coordinate (one point or the two edges of the single bin). *)
Definition range_mask (non_background_range : Var) : result (Dim * Var) :=
  d <- dim non_background_range ;;
  match sizes non_background_range with
  | [(_, n)] =>
      if Nat.eqb n 1 || Nat.eqb n 2 then Ok (d, non_background_range)
      else Raise DimensionError
  | _ => Raise DimensionError
  end.

(** [monitor.hist(wavelength=bins)] for event data, [monitor.rebin] for
    dense data. *)
Definition to_wavelength_bins {E : External} (monitor : DataArray) (wavelength_bins : Var)
  : result DataArray :=
  if has_bins monitor then hist monitor "wavelength" (QEdges wavelength_bins)
  else rebin monitor "wavelength" wavelength_bins.

(** The estimated background level: the mean over everything outside the
    non-background range. *)
Definition background_level {E : External} (monitor : DataArray) (non_background_range : Var)
  : result DataArray :=
  m <- range_mask non_background_range ;;
  masked <- mask_range monitor (fst m) (snd m) ;;
  mean masked.

Definition preprocess_monitor_data {E : External}
    (monitor : DataArray) (wavelength_bins : Var)
    (non_background_range : option Var)
    (uncertainties : UncertaintyBroadcastMode) : result DataArray :=
  background <- match non_background_range with
                | Some r => b <- background_level monitor r ;; Ok (Some b)
                | None => Ok None
                end ;;
  monitor <- to_wavelength_bins monitor wavelength_bins ;;
  match background with
  | Some background =>
      match uncertainties with
      | drop => da_isub monitor (da_values background)
      | upper_bound =>
          b <- broadcast_with_upper_bound_variances background (da_sizes monitor) ;;
          da_isub monitor b
      | fail => da_isub monitor background
      end
  | None => Ok monitor
  end.

Definition variance_warning : string :=
  "An interpolation is being performed on the direct_beam function. The variances in the direct_beam function will be dropped.".

(** The first component is what was sent to [logger.warning]. *)
Definition resample_direct_beam {E : External}
    (direct_beam : DataArray) (wavelength_bins : Var) : list string * result DataArray :=
  match getitem "wavelength" (coords direct_beam) with
  | Raise e => ([], Raise e)
  | Ok c =>
      if identical (c_var c) wavelength_bins then ([], Ok direct_beam)
      else
        match has_variances direct_beam with
        | Raise e => ([], Raise e)
        | Ok hv =>
            ((if hv then [variance_warning] else []),
             interp1d (da_values direct_beam) "wavelength" Extrapolate false
                      wavelength_bins true)
        end
  end.

Definition _to_q_bins (q_bins : QBins) : result (Dim * QBins) :=
  match q_bins with
  | QCount _ => Ok ("Q", q_bins)
  | QEdges v => d <- dim v ;; Ok (d, q_bins)
  end.

(** The loop of [_events_merge_spectra] over the wavelength ranges, with
    the accumulator [out] ([None] before the first band). *)
Fixpoint events_band_loop (q_binned : DataArray) (band_dim : Dim)
    (ranges : list Var) (out : option DataArray) : result (option DataArray) :=
  match ranges with
  | [] => Ok out
  | wav_range :: rest =>
      b <- bin_by q_binned "wavelength" wav_range ;;
      let band := squeeze b in
      out' <- match out with
              | None => Ok band
              | Some o => concat [o; band] band_dim
              end ;;
      events_band_loop q_binned band_dim rest (Some out')
  end.

(** The result is [None] when the loop never ran. *)
Definition _events_merge_spectra {E : External}
    (data_q : DataArray) (q_bins : QBins) (final_dims : list Dim)
    (wavelength_bands : option Var) : result (option DataArray) :=
  q_all_pixels <- bins_concat data_q (set_minus (da_dims data_q) final_dims) ;;
  edges <- _to_q_bins q_bins ;;
  q_binned <- bin q_all_pixels (fst edges) (snd edges) ;;
  match wavelength_bands with
  | None => Ok (Some q_binned)
  | Some wavelength_bands =>
      band_dim <- set_pop (set_minus (dims wavelength_bands) ["wavelength"]) ;;
      ranges <- collapse wavelength_bands "wavelength" ;;
      events_band_loop q_binned band_dim ranges None
  end.

(** One iteration of the loop of [_dense_merge_spectra]. *)
Definition dense_band {E : External} (data_q : DataArray) (edges : Dim * QBins)
    (sum_dims : list Dim) (wav_range : Var) : result DataArray :=
  lo <- var_item wav_range 0 ;;
  hi <- var_item wav_range 1 ;;
  band <- slice_range data_q "wavelength" lo hi ;;
  h <- hist band (fst edges) (snd edges) ;;
  sum h sum_dims.

Definition _dense_merge_spectra {E : External}
    (data_q : DataArray) (q_bins : QBins) (final_dims : list Dim)
    (wavelength_bands : option Var) : result DataArray :=
  let sum_dims := set_minus (da_dims data_q) final_dims in
  edges <- _to_q_bins q_bins ;;
  match wavelength_bands with
  | None => h <- hist data_q (fst edges) (snd edges) ;; sum h sum_dims
  | Some wavelength_bands =>
      band_dim <- set_pop (set_minus (dims wavelength_bands) ["wavelength"]) ;;
      ranges <- collapse wavelength_bands "wavelength" ;;
      bands <- mapM (dense_band data_q edges sum_dims) ranges ;;
      concat bands band_dim
  end.

(** A one-dimensional band coordinate is folded to one band. *)
Definition fold_bands (wavelength_bands : option Var) : result (option Var) :=
  match wavelength_bands with
  | Some wb =>
      if Nat.eqb (ndim wb) 1 then
        w <- fold wb "wavelength" (band_first (sizes wb)) ;; Ok (Some w)
      else Ok (Some wb)
  | None => Ok None
  end.

Definition merge_spectra {E : External}
    (data : DataArray) (q_bins : QBins) (wavelength_bands : option Var)
    (final_dims : option (list Dim)) : result DataArray :=
  let final_dims := match final_dims with Some f => f | None => ["Q"] end in
  wavelength_bands <- fold_bands wavelength_bands ;;
  out <- (if has_bins data then
            _events_merge_spectra data q_bins final_dims wavelength_bands
          else
            o <- _dense_merge_spectra data q_bins final_dims wavelength_bands ;;
            Ok (Some o)) ;;
  match out with
  | Some o => Ok (squeeze o)
  | None => Raise AttributeError
  end.

(** [x.bins.sum()] when [x] holds events, [x] itself otherwise. *)
Definition to_dense (x : DataArray) : result DataArray :=
  if has_bins x then bins_sum x else Ok x.

Definition subtract_background (sample background : DataArray) : result DataArray :=
  sample <- to_dense sample ;;
  background <- to_dense background ;;
  da_binop OpSub sample background.

(* ================================================================== *)
(** ** [normalization.py] *)

Definition solid_angle_rectangular_approximation {E : External} (data : DataArray)
  : result DataArray :=
  pixel_width <- getitem "pixel_width" (coords data) ;;
  pixel_height <- getitem "pixel_height" (coords data) ;;
  l2 <- L2 data ;;
  area <- var_binop OpMul (c_var pixel_width) (c_var pixel_height) ;;
  l2sq <- var_binop OpMul l2 l2 ;;
  omega <- var_binop OpDiv area l2sq ;;
  let dims := set_minus (da_dims data) (dims omega) in
  Ok (rewrap_reduced_data data omega dims).

Definition transmission_fraction
    (sample_incident_monitor sample_transmission_monitor
     direct_incident_monitor direct_transmission_monitor : DataArray) : result DataArray :=
  t <- da_binop OpDiv sample_transmission_monitor direct_transmission_monitor ;;
  i <- da_binop OpDiv direct_incident_monitor sample_incident_monitor ;;
  da_binop OpMul t i.


(* ================================================================== *)
(** ** A reference instance of the interface

    Small executable versions of the interface operations for
    one-dimensional inputs.  They are used to run the providers on concrete
    arrays; the properties below are proved for every instance. *)

Definition float_of_nat (n : nat) : float :=
  PrimFloat.of_uint63 (Uint63.of_Z (Z.of_nat n)).

Definition in_range (lo hi x : float) : bool :=
  PrimFloat.leb lo x && PrimFloat.ltb x hi.

Definition any_mask (ms : list (string * Mask)) (i : nat) : bool :=
  existsb (fun nm => nth i (m_values (snd nm)) false) ms.

(** Modelled from the spec: [mask_range] of [esssans.common], which is not
    among the sources; the elements whose coordinate lies inside the range
    are masked. *)
Definition ref_mask_range (x : DataArray) (d : Dim) (r : Var) : result DataArray :=
  match data x, assoc_get d (coords x) with
  | Dense v, Some c =>
      match sizes v with
      | [(d', n)] =>
          let lo := nth 0 (values r) nan in
          let hi := nth (List.length (values r) - 1) (values r) nan in
          let m := map (fun i => in_range lo hi (nth i (values (c_var c)) nan)) (seq 0 n) in
          Ok (mkDataArray (data x) (coords x) (assoc_set d (mkMask [(d', n)] m) (masks x)))
      | _ => Raise NotModelled
      end
  | _, _ => Raise NotModelled
  end.

Definition unmasked {A : Type} (ms : list (string * Mask)) (l : list A) : list A :=
  map snd (filter (fun p => negb (any_mask ms (fst p))) (combine (seq 0 (List.length l)) l)).

(** The mean of the unmasked elements of a one-dimensional dense array. *)
Definition ref_mean (x : DataArray) : result DataArray :=
  match data x with
  | Dense v =>
      match sizes v with
      | [(_, _)] =>
          let kept := unmasked (masks x) (values v) in
          let n := float_of_nat (List.length kept) in
          Ok (mkDataArray
                (Dense (mkVar [] [(fsum kept / n)%float]
                          (option_map (fun s => [(fsum (unmasked (masks x) s) / (n * n))%float])
                                      (variances v))))
                (filter (fun nc => Nat.eqb (List.length (sizes (c_var (snd nc)))) 0) (coords x))
                [])
      | _ => Raise NotModelled
      end
  | Binned _ _ _ => Raise NotModelled
  end.

(** Histogram of a one-dimensional dense table without masks along its
    coordinate [d]: the bins replace the dimension of the data, every bin
    holds the sum of the elements whose coordinate lies in it, and the
    coordinates of the replaced dimension are dropped. *)
Definition ref_hist_dense (v : Var) (x : DataArray) (d : Dim) (edges : Var) : result DataArray :=
  match sizes v, assoc_get d (coords x), masks x with
  | [(w, n)], Some c, [] =>
      let nb := List.length (values edges) - 1 in
      let total (l : list float) :=
        map (fun j =>
               fsum (map (fun i => nth i l nan)
                         (filter (fun i => in_bin (values edges) j
                                                  (nth i (values (c_var c)) nan))
                                 (seq 0 n))))
            (seq 0 nb) in
      Ok (mkDataArray (Dense (mkVar [(d, nb)] (total (values v))
                                    (option_map total (variances v))))
                      (assoc_set d (mkCoord edges true)
                         (filter (fun nc => negb (has_dim w (sizes (c_var (snd nc)))))
                                 (coords x)))
                      [])
  | _, _, _ => Raise NotModelled
  end.

Definition ref_hist (x : DataArray) (d : Dim) (b : QBins) : result DataArray :=
  match b with
  | QCount _ => Raise NotModelled
  | QEdges edges =>
      match data x with
      | Dense v => ref_hist_dense v x d edges
      | Binned _ _ _ => y <- bin_by x d edges ;; bins_sum y
      end
  end.

(** Re-binning of a one-dimensional histogram without masks onto edges
    taken from its own bin edges: every new bin holds the sum of the old bins
    that lie in it.  On the edges it already has the histogram is returned
    as it is. *)
Definition ref_rebin (x : DataArray) (d : Dim) (edges : Var) : result DataArray :=
  match assoc_get d (coords x) with
  | Some c =>
      if identical (c_var c) edges then Ok x
      else
        match data x, masks x with
        | Dense v, [] =>
            let old := values (c_var c) in
            let new := values edges in
            match sizes v with
            | [(d', n)] =>
                if negb (String.eqb d d') then Raise NotModelled
                else if negb (forallb (fun e => existsb (PrimFloat.eqb e) old) new)
                then Raise NotModelled
                else
                  let nb := List.length new - 1 in
                  let total (l : list float) :=
                    map (fun j =>
                           fsum (map (fun i => nth i l nan)
                                     (filter (fun i =>
                                                PrimFloat.leb (nth j new nan) (nth i old nan) &&
                                                PrimFloat.leb (nth (S i) old nan)
                                                              (nth (S j) new nan))
                                             (seq 0 n))))
                        (seq 0 nb) in
                  Ok (mkDataArray
                        (Dense (mkVar [(d, nb)] (total (values v))
                                      (option_map total (variances v))))
                        (assoc_set d (mkCoord edges true) (coords x))
                        [])
            | _ => Raise NotModelled
            end
        | _, _ => Raise NotModelled
        end
  | None => Raise KeyError
  end.

Definition ref_auto_edges (x : DataArray) (d : Dim) (n : nat) : result Var :=
  Raise NotModelled.

(** Modelled from the spec: [broadcast_with_upper_bound_variances] of
    [esssans.uncertainty], which is not among the sources; a scalar is
    repeated over the target extents and its variance is scaled by the number
    of copies, so that no variance is underestimated. *)
Definition ref_broadcast (x : DataArray) (s : Sizes) : result DataArray :=
  match data x with
  | Dense v =>
      match sizes v, variances v with
      | [], Some var =>
          let n := volume s in
          Ok (mkDataArray
                (Dense (mkVar s (List.concat (repeat (values v) n))
                             (Some (map (fun y => (y * float_of_nat n)%float)
                                        (List.concat (repeat var n))))))
                (coords x) (masks x))
      | _, None => Ok x
      | _, _ => Raise NotModelled
      end
  | Binned _ _ _ => Raise NotModelled
  end.

Definition segment (xs : list float) (x : float) : nat :=
  match find_bin xs x with
  | Some i => i
  | None => if PrimFloat.ltb x (nth 0 xs nan) then 0 else List.length xs - 2
  end.

Definition linear (xs ys : list float) (x : float) : float :=
  let i := segment xs x in
  let x0 := nth i xs nan in
  let x1 := nth (S i) xs nan in
  let y0 := nth i ys nan in
  let y1 := nth (S i) ys nan in
  (y0 + (y1 - y0) * ((x - x0) / (x1 - x0)))%float.

Fixpoint midpoints (l : list float) : list float :=
  match l with
  | a :: r =>
      match r with
      | b :: _ => ((a + b) / 2)%float :: midpoints r
      | [] => []
      end
  | [] => []
  end.

(** Linear interpolation of a one-dimensional curve given at points, with
    linear extrapolation; the result carries the new points as coordinate. *)
Definition ref_interp1d (x : DataArray) (d : Dim) (fill : FillValue) (bounds_error : bool)
    (xnew : Var) (mid : bool) : result DataArray :=
  match data x, assoc_get d (coords x), fill with
  | Dense v, Some c, Extrapolate =>
      let pts := if mid then midpoints (values xnew) else values xnew in
      Ok (mkDataArray
            (Dense (mkVar [(d, List.length pts)]
                          (map (linear (values (c_var c)) (values v)) pts) None))
            (assoc_set d (mkCoord xnew true) (coords x))
            (masks x))
  | _, _, _ => Raise NotModelled
  end.

(** The distance is read from the coordinate [L2]. *)
Definition ref_L2 (x : DataArray) : result Var :=
  c <- getitem "L2" (coords x) ;; Ok (c_var c).

(** The sum over the dimensions [r] of a dense array without masks. *)
Definition ref_sum (x : DataArray) (r : list Dim) : result DataArray :=
  match data x, masks x with
  | Dense v, [] =>
      if negb (forallb (fun d => has_dim d (sizes v)) r) then Raise DimensionError else
      let kept := without r (sizes v) in
      let gone := only r (sizes v) in
      let total (l : list float) :=
        map (fun k =>
               fsum (map (fun j => nth (ravel (sizes v) (unravel kept k ++ unravel gone j)) l nan)
                         (seq 0 (volume gone))))
            (seq 0 (volume kept)) in
      Ok (mkDataArray (Dense (mkVar kept (total (values v)) (option_map total (variances v))))
                      (filter (fun nc => negb (depends_on r (sizes (c_var (snd nc))))) (coords x))
                      [])
  | _, _ => Raise NotModelled
  end.

(** The label based slice of a one-dimensional dense array without masks
    along its point coordinate [d]: the elements with [lo <= coordinate < hi]
    (the coordinate is taken to be sorted). *)
Definition ref_slice_range (x : DataArray) (d : Dim) (lo hi : float) : result DataArray :=
  match data x, assoc_get d (coords x), masks x with
  | Dense v, Some c, [] =>
      match sizes v with
      | [(d', n)] =>
          if negb (String.eqb d d') then Raise NotModelled else
          if negb (sizes_eqb (sizes (c_var c)) [(d, n)]) then Raise NotModelled else
          let keep (i : nat) := in_range lo hi (nth i (values (c_var c)) nan) in
          let pick (l : list float) :=
            map snd (filter (fun p => keep (fst p)) (combine (seq 0 n) l)) in
          let m := List.length (pick (values v)) in
          let cut (nc : string * Coord) :=
            if has_dim d (sizes (c_var (snd nc))) then
              (fst nc, mkCoord (mkVar [(d, m)] (pick (values (c_var (snd nc))))
                                      (option_map pick (variances (c_var (snd nc)))))
                               (c_aligned (snd nc)))
            else nc in
          Ok (mkDataArray (Dense (mkVar [(d, m)] (pick (values v)) (option_map pick (variances v))))
                          (map cut (coords x)) [])
      | _ => Raise NotModelled
      end
  | _, _, _ => Raise NotModelled
  end.

#[export] Instance reference_ops : External := {
  mask_range := ref_mask_range;
  mean := ref_mean;
  hist := ref_hist;
  rebin := ref_rebin;
  auto_edges := ref_auto_edges;
  broadcast_with_upper_bound_variances := ref_broadcast;
  interp1d := ref_interp1d;
  L2 := ref_L2;
  sum := ref_sum;
  slice_range := ref_slice_range;
  set_order := fun _ => 0
}.

(* ================================================================== *)
(** ** Concrete inputs *)

Definition point (x : float) : DataArray := mkDataArray (Dense (scalar x)) [] [].

Definition q_edges : Var := array1 "Q" [0; 1; 2; 3]%float.

(** An I(Q) histogram over three Q bins. *)
Definition iofq (vals : list float) : DataArray :=
  mkDataArray (Dense (array1 "Q" vals)) [("Q", mkCoord q_edges true)] [].

Definition event (w q lam : float) : Event :=
  mkEvent w 0 [("Q", q); ("wavelength", lam)].

(** Event I(Q) over the same bins: the weights in the bins add up to
    10, 20, 30. *)
Definition iofq_events : DataArray :=
  mkDataArray
    (Binned [("Q", 3)] false
       [[event 4 0.25 2; event 6 0.5 3];
        [event 20 1.5 4];
        [event 10 2.25 2; event 15 2.5 5; event 5 2.75 6]])
    [("Q", mkCoord q_edges true)] [].



(** Detector events of two pixels, not yet binned in Q. *)
Definition pixels : DataArray :=
  mkDataArray
    (Binned [("spectrum", 2)] false
       [[event 1 0.5 2; event 1 1.5 3; event 1 2.5 4];
        [event 1 0.25 5; event 1 2.75 6]])
    [] [].


Definition two_bands : Var :=
  mkVar [("band", 2); ("wavelength", 2)] [1; 4; 4; 8]%float None.

Definition grid_bands : Var :=
  mkVar [("a", 1); ("b", 2); ("wavelength", 2)] [1; 4; 4; 8]%float None.

(** A dense table over wavelength with its Q as a coordinate. *)
Definition dense_q : DataArray :=
  mkDataArray (Dense (array1 "wavelength" [1; 2; 3; 4]%float))
    [("wavelength", mkCoord (array1 "wavelength" [2; 3; 4; 5]%float) true);
     ("Q", mkCoord (array1 "wavelength" [0.5; 1.5; 1.75; 2.5]%float) true)]
    [].

(* ================================================================== *)
(** ** Vocabulary of the statements *)

(** The dense reading of a data array: its values, or the sum of the event
    weights of every cell. *)
Definition dense_view (x : DataArray) : Var :=
  match data x with
  | Dense v => v
  | Binned s wv c => sum_cells wv s c
  end.

Definition subset (a b : list Dim) : bool := forallb (fun d => mem d b) a.

(** The invariant of a data array: coordinates and masks only have
    dimensions of the data. *)
Definition dims_within (x : DataArray) : Prop :=
  Forall (fun nc => subset (dims (c_var (snd nc))) (da_dims x) = true) (coords x) /\
  Forall (fun nm => subset (dims_of (m_sizes (snd nm))) (da_dims x) = true) (masks x).

Definition fabs_lt (x y tol : float) : bool := PrimFloat.ltb (PrimFloat.abs (x - y)) tol.

(** A monitor over four wavelength bins with a flat background of 5. *)
Definition wavelength_edges : Var := array1 "wavelength" [1; 2; 3; 4; 5]%float.

Definition monitor4 : DataArray :=
  mkDataArray (Dense (mkVar [("wavelength", 4)] [5; 20; 30; 5]%float (Some [5; 20; 30; 5]%float)))
    [("wavelength", mkCoord wavelength_edges true)] [].

Definition signal_range : Var := array1 "wavelength" [2; 4]%float.

(** A direct-beam curve given on the edges [1 .. 5], and coarser target
    bins. *)
Definition direct_beam5 : DataArray :=
  mkDataArray (Dense (mkVar [("wavelength", 5)] [1; 2; 4; 8; 16]%float
                            (Some [1; 1; 1; 1; 1]%float)))
    [("wavelength", mkCoord wavelength_edges true)] [].

Definition coarse_edges : Var := array1 "wavelength" [1; 3; 5]%float.

(** Three detector pixels over two wavelength bins. *)
Definition detector : DataArray :=
  mkDataArray
    (Dense (mkVar [("spectrum", 3); ("wavelength", 2)] [1; 2; 3; 4; 5; 6]%float None))
    [("pixel_width", mkCoord (scalar 0.5) true);
     ("pixel_height", mkCoord (scalar 0.25) true);
     ("L2", mkCoord (array1 "spectrum" [2; 4; 8]%float) true);
     ("wavelength", mkCoord (array1 "wavelength" [1; 2; 3]%float) true);
     ("Q", mkCoord (mkVar [("spectrum", 3); ("wavelength", 2)]
                          [0.5; 0.25; 1; 0.5; 2; 1]%float None) true)]
    [("bad_pixel", mkMask [("spectrum", 3)] [false; true; false]);
     ("bad_wavelength", mkMask [("wavelength", 2)] [false; true])].

(** The binary64 number 1. *)
Definition SF_one : spec_float := S754_finite false 4503599627370496 (-52).

(** The variances of [a o b] for two arrays of the same extents. *)
Definition same_shape_variances (o : BinOp) (a b : Var) : option (list float) :=
  match variances a, variances b with
  | None, None => None
  | va, vb =>
      Some (map (fun k =>
                   op_variance o (nth k (values a) nan) (option_map (fun l => nth k l nan) va)
                                 (nth k (values b) nan) (option_map (fun l => nth k l nan) vb))
                (seq 0 (volume (sizes a))))
  end.

(** The coordinates of [b] are shared with [a]: each is an aligned
    coordinate that [a] holds under the same name. *)
Definition coords_shared (a b : list (string * Coord)) : Prop :=
  Forall (fun nb => c_aligned (snd nb) = true /\ assoc_get (fst nb) a = Some (snd nb)) b.

(** The extents left by [squeeze]. *)
Definition squeezed_sizes (s : Sizes) : Sizes :=
  filter (fun p => negb (Nat.eqb (snd p) 1)) s.

(** A property of every event of a binned array. *)
Definition all_events (P : Event -> Prop) (x : DataArray) : Prop :=
  match data x with
  | Binned _ _ cells => Forall (Forall P) cells
  | Dense _ => True
  end.

(** The event lies in the band [lo, hi): it has a wavelength and
    [lo <= wavelength < hi]. *)
Definition in_band (lo hi : float) (e : Event) : Prop :=
  event_in "wavelength" [lo; hi] 0 e = true.

(** No coordinate or mask of [x] has the dimension [d], and [d] is not a
    dimension of the data. *)
Definition free_of (d : Dim) (x : DataArray) : Prop :=
  ~ In d (da_dims x) /\
  Forall (fun nc => has_dim d (sizes (c_var (snd nc))) = false) (coords x) /\
  Forall (fun nm => has_dim d (m_sizes (snd nm)) = false) (masks x).

(** The band given as two edges, and [x] with those edges attached as the
    unaligned coordinate [wavelength]. *)
Definition band_edges (lo hi : float) : Var := array1 "wavelength" [lo; hi].

Definition with_band_edges (lo hi : float) (x : DataArray) : DataArray :=
  mkDataArray (data x)
              (assoc_set "wavelength" (mkCoord (band_edges lo hi) false) (coords x))
              (masks x).

(** The accumulator of the band loop after [j] bands of extents [Sb]:
    nothing, the first band itself, or a stack of [j] bands along [d]. *)
Definition stacked (d : Dim) (Sb : Sizes) (j : nat) (out : option DataArray) : Prop :=
  match out with
  | None => j = 0
  | Some o => (j = 1 /\ da_sizes o = Sb) \/ (2 <= j /\ da_sizes o = (d, j) :: Sb)
  end.

(* ================================================================== *)
(** ** [normalization.py]: the terms of the denominator *)

(** The two operations the denominator providers use besides those of
    [External]: their numerical definitions are not fixed by the
    repository. *)
Class Broadcasters : Type := {
  (** [esssans.uncertainty.drop_variances_if_broadcast(da, sizes)] *)
  drop_variances_if_broadcast : DataArray -> Sizes -> result DataArray;
  (** [sc.midpoints(v)] *)
  sc_midpoints : Var -> result Var
}.

(** The table [_broadcasters]: one entry for every mode. *)
Definition _broadcasters {E : External} {B : Broadcasters}
    (uncertainties : UncertaintyBroadcastMode) : DataArray -> Sizes -> result DataArray :=
  match uncertainties with
  | drop => drop_variances_if_broadcast
  | upper_bound => broadcast_with_upper_bound_variances
  | fail => fun x _ => Ok x
  end.

(** The extents of a coordinate without its bin-edge dimension: the first
    dimension that exceeds the extent of the data by one is cut to that
    extent, a dimension of extent 2 that the data lacks is removed. *)
Fixpoint strip_edges (s c : Sizes) : Sizes :=
  match c with
  | [] => []
  | (d, n) :: r =>
      match size_of d s with
      | Some m => if Nat.eqb n (S m) then (d, m) :: r else (d, n) :: strip_edges s r
      | None => if Nat.eqb n 2 then r else (d, n) :: strip_edges s r
      end
  end.

Definition fits (s c : Sizes) : bool :=
  forallb (fun p => match size_of (fst p) s with
                    | Some m => Nat.eqb m (snd p)
                    | None => false
                    end)
          (strip_edges s c).

(** [x.coords[name] = v]: the new coordinate is aligned; one that does not
    fit the extents of the data is refused. *)
Definition set_coord (x : DataArray) (name : string) (v : Var) : result DataArray :=
  if fits (da_sizes x) (sizes v)
  then Ok (mkDataArray (data x) (assoc_set name (mkCoord v true) (coords x)) (masks x))
  else Raise DimensionError.

Definition iofq_norm_wavelength_term {E : External} {B : Broadcasters}
    (incident_monitor transmission_fraction : DataArray) (direct_beam : option DataArray)
    (uncertainties : UncertaintyBroadcastMode) : result DataArray :=
  out <- da_binop OpMul incident_monitor transmission_fraction ;;
  out <- match direct_beam with
         | Some direct_beam =>
             b <- _broadcasters uncertainties out (da_sizes direct_beam) ;;
             da_binop OpMul direct_beam b
         | None => Ok out
         end ;;
  c <- getitem "wavelength" (coords out) ;;
  m <- sc_midpoints (c_var c) ;;
  set_coord out "wavelength" m.

Definition iofq_denominator {E : External} {B : Broadcasters}
    (wavelength_term solid_angle : DataArray)
    (uncertainties : UncertaintyBroadcastMode) : result DataArray :=
  b <- _broadcasters uncertainties wavelength_term (da_sizes solid_angle) ;;
  da_binop OpMul solid_angle b.

(** *** A reference instance *)

(** Modelled from the spec: [drop_variances_if_broadcast] of
    [esssans.uncertainty], which is not among the sources; the variances
    are stripped when the operand has them and lacks a dimension of the
    target extents. *)
Definition ref_drop (x : DataArray) (s : Sizes) : result DataArray :=
  match data x with
  | Dense v =>
      match variances v with
      | Some _ =>
          if forallb (fun p => has_dim (fst p) (sizes v)) s then Ok x else Ok (da_values x)
      | None => Ok x
      end
  | Binned _ _ _ => Raise NotModelled
  end.

(** The midpoints of a one-dimensional variable without variances. *)
Definition ref_midpoints (v : Var) : result Var :=
  match sizes v, variances v with
  | [(d, n)], None =>
      if Nat.eqb n 1 then Raise DimensionError
      else Ok (mkVar [(d, List.length (midpoints (values v)))] (midpoints (values v)) None)
  | _, _ => Raise NotModelled
  end.

#[export] Instance reference_broadcasters : Broadcasters := {
  drop_variances_if_broadcast := ref_drop;
  sc_midpoints := ref_midpoints
}.

(* ================================================================== *)
(** ** Vocabulary of the further statements *)

(** A finite binary64 number other than zero. *)
Definition finite_nonzero (x : float) : bool :=
  match Prim2SF x with
  | S754_finite _ _ _ => true
  | _ => false
  end.


(** Any binary64 number but the negative zero. *)
Definition not_neg_zero (x : float) : bool :=
  match Prim2SF x with
  | S754_zero true => false
  | _ => true
  end.

(** The variance of the element of [v] at the multi-index [ix], if [v]
    carries variances. *)
Definition variance_at (v : Var) (ix : Index) : option float :=
  var_at (variances v) (sizes v) ix.



(* ================================================================== *)
(** * Properties *)

(** ** The error monad *)

Lemma bind_ok {A B : Type} (m : result A) (k : A -> result B) (b : B) :
  bind m k = Ok b -> exists a, m = Ok a /\ k a = Ok b.
Proof.
  destruct m as [a | e]; simpl; intros H; [exists a; auto | discriminate].
Qed.

Ltac inv_bind H :=
  repeat match type of H with
         | bind ?m _ = Ok _ =>
             let a := fresh "x" in
             let Ha := fresh "E" in
             apply bind_ok in H; destruct H as (a & Ha & H); cbv beta in H
         end.

(** ** Binary64 facts: dividing by one changes nothing *)

Lemma Prim2SF_one : Prim2SF 1%float = SF_one.
Proof. reflexivity. Qed.









Lemma feq_nan_refl (x : float) : feq_nan x x = true.
Proof.
  unfold feq_nan, PrimFloat.is_nan. destruct (PrimFloat.eqb x x); reflexivity.
Qed.

(** ** Row-major indexing *)

Lemma mem_In (d : Dim) (l : list Dim) : mem d l = true <-> In d l.
Proof.
  unfold mem. rewrite existsb_exists. split.
  - intros (x & Hx & E). apply String.eqb_eq in E. subst. exact Hx.
  - intros H. exists d. split; [exact H | apply String.eqb_refl].
Qed.

Lemma mem_false (d : Dim) (l : list Dim) : mem d l = false <-> ~ In d l.
Proof.
  rewrite <- mem_In. destruct (mem d l); split; intros; congruence.
Qed.

Lemma ravel_ext (s : Sizes) (ix ix' : Index) :
  (forall d n, In (d, n) s -> position d ix = position d ix') ->
  ravel s ix = ravel s ix'.
Proof.
  induction s as [| [d n] r IH]; simpl; intros H; [reflexivity |].
  rewrite (H d n) by (left; reflexivity).
  rewrite IH; [reflexivity |]. intros d' n' Hin. apply (H d' n'). right. exact Hin.
Qed.

Lemma ravel_lt (s : Sizes) (ix : Index) :
  valid_index s ix -> ravel s ix < volume s.
Proof.
  induction s as [| [d n] r IH]; simpl; intros H; [lia |].
  assert (Hp : position d ix < n) by (apply (H d n); left; reflexivity).
  assert (Hr : ravel r ix < volume r).
  { apply IH. intros d' n' Hin. apply (H d' n'). right. exact Hin. }
  nia.
Qed.

Lemma position_unravel_ravel (s : Sizes) (ix : Index) (d : Dim) (n : nat) :
  valid_index s ix -> In (d, n) s ->
  position d (unravel s (ravel s ix)) = position d ix.
Proof.
  induction s as [| [d0 n0] r IH]; simpl; intros Hv Hin; [contradiction |].
  assert (Hr : ravel r ix < volume r).
  { apply ravel_lt. intros d' n' H'. apply (Hv d' n'). right. exact H'. }
  assert (Hq : (position d0 ix * volume r + ravel r ix) / volume r = position d0 ix).
  { rewrite Nat.div_add_l by lia. rewrite Nat.div_small by lia. lia. }
  assert (Hm : (position d0 ix * volume r + ravel r ix) mod volume r = ravel r ix).
  { rewrite Nat.add_comm, Nat.Div0.mod_add. apply Nat.mod_small. lia. }
  rewrite Hq, Hm.
  destruct (String.eqb_spec d d0) as [-> | Hne]; [reflexivity |].
  apply IH.
  - intros d' n' H'. apply (Hv d' n'). right. exact H'.
  - destruct Hin as [E | Hin]; [inversion E; congruence | exact Hin].
Qed.

Lemma position_skip (d d0 : Dim) (i : nat) (ix : Index) :
  d <> d0 -> position d ((d0, i) :: ix) = position d ix.
Proof.
  intros H. simpl. destruct (String.eqb_spec d d0); [contradiction | reflexivity].
Qed.

Lemma ravel_unravel (s : Sizes) (k : nat) :
  NoDup (dims_of s) -> k < volume s -> ravel s (unravel s k) = k.
Proof.
  revert k. induction s as [| [d n] r IH]; simpl; intros k Hnd Hk; [lia |].
  inversion Hnd as [| ? ? Hnotin Hnd']; subst.
  rewrite String.eqb_refl.
  assert (Hv : volume r <> 0) by (intros E; rewrite E in Hk; lia).
  rewrite (ravel_ext r _ (unravel r (k mod volume r))).
  - rewrite IH; [| exact Hnd' | apply Nat.mod_upper_bound; exact Hv].
    rewrite (Nat.div_mod_eq k (volume r)) at 3. lia.
  - intros d' n' Hin. apply position_skip. intros ->.
    apply Hnotin. change d with (fst (d, n')). apply in_map. exact Hin.
Qed.

Lemma map_nth_seq {A : Type} (l : list A) (dflt : A) :
  map (fun k => nth k l dflt) (seq 0 (List.length l)) = l.
Proof.
  induction l as [| a l IH]; simpl; [reflexivity |].
  f_equal. rewrite <- seq_shift, map_map. exact IH.
Qed.

Lemma map_seq_ext {A : Type} (f g : nat -> A) (n : nat) :
  (forall k, k < n -> f k = g k) -> map f (seq 0 n) = map g (seq 0 n).
Proof.
  intros H. apply map_ext_in. intros k Hk. apply in_seq in Hk. apply H. lia.
Qed.

(** ** Merging dimension sets *)

Lemma size_of_Some_In (d : Dim) (n : nat) (s : Sizes) :
  size_of d s = Some n -> In (d, n) s.
Proof.
  induction s as [| [d' n'] r IH]; simpl; [discriminate |].
  destruct (String.eqb_spec d d') as [-> | Hne]; intros H.
  - inversion H; subst. left. reflexivity.
  - right. apply IH. exact H.
Qed.

Lemma size_of_In (d : Dim) (n : nat) (s : Sizes) :
  NoDup (dims_of s) -> In (d, n) s -> size_of d s = Some n.
Proof.
  induction s as [| [d' n'] r IH]; simpl; intros Hnd Hin; [contradiction |].
  inversion Hnd as [| ? ? Hnotin Hnd']; subst.
  destruct Hin as [E | Hin].
  - inversion E; subst. rewrite String.eqb_refl. reflexivity.
  - destruct (String.eqb_spec d d') as [-> | Hne].
    + exfalso. apply Hnotin. change d' with (fst (d', n)). apply in_map. exact Hin.
    + apply IH; assumption.
Qed.

Lemma size_of_None (d : Dim) (s : Sizes) :
  size_of d s = None <-> ~ In d (dims_of s).
Proof.
  induction s as [| [d' n'] r IH]; simpl; [tauto |].
  destruct (String.eqb_spec d d') as [-> | Hne].
  - split; [discriminate | intros H; exfalso; apply H; left; reflexivity].
  - rewrite IH. split; intros H; [intros [E | Hin]; [congruence | tauto] | tauto].
Qed.

Lemma span_until_app (d : Dim) (it pre post : Sizes) :
  span_until d it = (pre, post) -> it = pre ++ post.
Proof.
  revert pre post. induction it as [| p r IH]; simpl; intros pre post H.
  - inversion H. reflexivity.
  - destruct (String.eqb (fst p) d).
    + inversion H. reflexivity.
    + destruct (span_until d r) as [pre' post'] eqn:E. inversion H; subst.
      simpl. f_equal. apply IH. reflexivity.
Qed.

Lemma span_until_found (d : Dim) (n : nat) (skip rest : Sizes) :
  ~ In d (dims_of skip) ->
  span_until d (skip ++ (d, n) :: rest) = (skip, (d, n) :: rest).
Proof.
  induction skip as [| p r IH]; simpl; intros H.
  - rewrite String.eqb_refl. reflexivity.
  - destruct (String.eqb_spec (fst p) d) as [E | Hne]; [exfalso; apply H; left; exact E |].
    rewrite IH by tauto. reflexivity.
Qed.

Lemma without_app (r : list Dim) (a b : Sizes) :
  without r (a ++ b) = without r a ++ without r b.
Proof. unfold without. apply filter_app. Qed.

Lemma without_all (r : list Dim) (s : Sizes) :
  (forall p, In p s -> In (fst p) r) -> without r s = [].
Proof.
  induction s as [| p s IH]; simpl; intros H; [reflexivity |].
  assert (E : mem (fst p) r = true) by (apply mem_In, H; left; reflexivity).
  rewrite E. simpl. apply IH. intros q Hq. apply H. right. exact Hq.
Qed.

Lemma merge_from_perm (afull b a it r : Sizes) :
  merge_from afull b a it = Ok r ->
  Permutation r (a ++ without (dims_of afull) it).
Proof.
  revert it r. induction a as [| [d n] a' IH]; simpl; intros it r H.
  - inversion H. apply Permutation_refl.
  - destruct (size_of d b) as [m |].
    + destruct (Nat.eqb n m); [| discriminate].
      destruct (span_until d it) as [pre post] eqn:Es.
      inv_bind H. inversion H; subst.
      apply span_until_app in Es. subst it. rewrite without_app.
      apply IH in E.
      eapply Permutation_trans.
      * apply Permutation_sym, Permutation_middle.
      * apply perm_skip.
        eapply Permutation_trans; [apply Permutation_app_head; exact E |].
        rewrite !app_assoc. apply Permutation_app_tail. apply Permutation_app_comm.
    + inv_bind H. inversion H; subst. apply perm_skip. apply IH. exact E.
Qed.

Lemma merge_from_agree (afull b a it r : Sizes) :
  merge_from afull b a it = Ok r ->
  forall d n m, In (d, n) a -> size_of d b = Some m -> n = m.
Proof.
  revert it r. induction a as [| [d0 n0] a' IH]; simpl; intros it r H d n m Hin Hs;
    [contradiction |].
  destruct (size_of d0 b) as [m0 |] eqn:E0.
  - destruct (Nat.eqb_spec n0 m0) as [-> | Hne]; [| discriminate].
    destruct (span_until d0 it) as [pre post].
    inv_bind H.
    destruct Hin as [Eq | Hin].
    + inversion Eq; subst. congruence.
    + eapply IH; eauto.
  - inv_bind H.
    destruct Hin as [Eq | Hin].
    + inversion Eq; subst. congruence.
    + eapply IH; eauto.
Qed.

Lemma merge_sizes_In_l (a b out : Sizes) (x : Dim * nat) :
  merge_sizes a b = Ok out -> In x a -> In x out.
Proof.
  intros H Hin. apply merge_from_perm in H.
  apply (Permutation_in _ (Permutation_sym H)). apply in_or_app. left. exact Hin.
Qed.

Lemma In_dims_of (d : Dim) (s : Sizes) :
  In d (dims_of s) -> exists n, In (d, n) s.
Proof.
  unfold dims_of. rewrite in_map_iff. intros ([d' n] & E & Hin). simpl in E. subst.
  exists n. exact Hin.
Qed.

Lemma merge_sizes_In_r (a b out : Sizes) (x : Dim * nat) :
  merge_sizes a b = Ok out -> NoDup (dims_of b) -> In x b -> In x out.
Proof.
  intros H Hnd Hin. pose proof (merge_from_agree _ _ _ _ _ H) as Hag.
  apply merge_from_perm in H.
  apply (Permutation_in _ (Permutation_sym H)). apply in_or_app.
  destruct x as [d m].
  destruct (mem d (dims_of a)) eqn:Em.
  - left. apply mem_In, In_dims_of in Em. destruct Em as [n Hn].
    rewrite <- (Hag d n m Hn (size_of_In d m b Hnd Hin)). exact Hn.
  - right. unfold without. apply filter_In. split; [exact Hin |]. simpl. rewrite Em. reflexivity.
Qed.

Lemma NoDup_without (r : list Dim) (s : Sizes) :
  NoDup (dims_of s) -> NoDup (dims_of (without r s)).
Proof.
  induction s as [| p s IH]; simpl; intros H; [constructor |].
  inversion H as [| ? ? Hnotin H']; subst.
  destruct (negb (mem (fst p) r)); [| apply IH; exact H'].
  simpl. constructor; [| apply IH; exact H'].
  intros Hin. apply Hnotin. apply in_map_iff in Hin. destruct Hin as (q & Eq & Hq).
  apply filter_In in Hq. rewrite <- Eq. apply in_map. tauto.
Qed.

Lemma merge_sizes_NoDup (a b out : Sizes) :
  merge_sizes a b = Ok out -> NoDup (dims_of a) -> NoDup (dims_of b) ->
  NoDup (dims_of out).
Proof.
  intros H Ha Hb. apply merge_from_perm in H.
  apply (Permutation_NoDup (l := dims_of (a ++ without (dims_of a) b))).
  - unfold dims_of. apply Permutation_map, Permutation_sym, H.
  - unfold dims_of. rewrite map_app. apply NoDup_app; [exact Ha | |].
    + apply (NoDup_without (map fst a) b Hb).
    + intros d Hd Hd'. apply in_map_iff in Hd'. destruct Hd' as (q & Eq & Hq).
      apply filter_In in Hq. destruct Hq as [_ Hq]. apply negb_true_iff, mem_false in Hq.
      subst d. apply Hq. exact Hd.
Qed.

Lemma merge_from_same (s a skip : Sizes) :
  NoDup (dims_of s) -> NoDup (dims_of a) ->
  (forall x, In x a -> In x s) ->
  (forall p, In p skip -> In (fst p) (dims_of s)) ->
  (forall p, In p skip -> ~ In (fst p) (dims_of a)) ->
  merge_from s s a (skip ++ a) = Ok a.
Proof.
  intros Hs. revert skip. induction a as [| [d n] a' IH]; simpl; intros skip Ha Hsub Hin Hout.
  - rewrite app_nil_r, without_all by exact Hin. reflexivity.
  - inversion Ha as [| ? ? Hnotin Ha']; subst.
    rewrite (size_of_In d n s Hs) by (apply Hsub; left; reflexivity).
    rewrite Nat.eqb_refl.
    rewrite span_until_found.
    + change ((d, n) :: a') with ([(d, n)] ++ a').
      assert (E : merge_from s s a' ([(d, n)] ++ a') = Ok a').
      { apply IH.
        - exact Ha'.
        - intros x Hx. apply Hsub. right. exact Hx.
        - intros p [<- | []]. simpl.
          change d with (fst (d, n)). apply in_map. apply Hsub. left. reflexivity.
        - intros p [<- | []]. simpl. exact Hnotin. }
      rewrite E. simpl. rewrite without_all by exact Hin. reflexivity.
    + intros Hd. apply In_dims_of in Hd. destruct Hd as [m Hm].
      apply (Hout _ Hm). left. reflexivity.
Qed.

Lemma merge_sizes_same (s : Sizes) :
  NoDup (dims_of s) -> merge_sizes s s = Ok s.
Proof.
  intros Hs. unfold merge_sizes.
  apply (merge_from_same s s [] Hs Hs); auto; intros p [].
Qed.

Lemma merge_sizes_nil_r (s : Sizes) : merge_sizes s [] = Ok s.
Proof.
  unfold merge_sizes. generalize s at 1 as afull.
  induction s as [| [d n] r IH]; intros afull; simpl; [reflexivity |].
  rewrite IH. reflexivity.
Qed.

(** ** Element-wise arithmetic *)

Lemma var_binop_sizes (o : BinOp) (a b r : Var) :
  var_binop o a b = Ok r -> merge_sizes (sizes a) (sizes b) = Ok (sizes r).
Proof.
  unfold var_binop. intros H. inv_bind H. inversion H; subst. simpl. exact E.
Qed.

Lemma var_binop_NoDup (o : BinOp) (a b r : Var) :
  var_binop o a b = Ok r -> NoDup (dims a) -> NoDup (dims b) -> NoDup (dims r).
Proof.
  intros H Ha Hb. apply var_binop_sizes in H. exact (merge_sizes_NoDup _ _ _ H Ha Hb).
Qed.

Lemma valid_index_sub (s s' : Sizes) (ix : Index) :
  (forall x, In x s' -> In x s) -> valid_index s ix -> valid_index s' ix.
Proof. intros Hsub Hv d n Hin. apply Hv, Hsub, Hin. Qed.

Lemma var_binop_valid_l (o : BinOp) (a b r : Var) (ix : Index) :
  var_binop o a b = Ok r -> valid_index (sizes r) ix -> valid_index (sizes a) ix.
Proof.
  intros H. apply var_binop_sizes in H. apply valid_index_sub.
  intros x. apply (merge_sizes_In_l _ _ _ x H).
Qed.

Lemma var_binop_valid_r (o : BinOp) (a b r : Var) (ix : Index) :
  var_binop o a b = Ok r -> NoDup (dims b) ->
  valid_index (sizes r) ix -> valid_index (sizes b) ix.
Proof.
  intros H Hb. apply var_binop_sizes in H. apply valid_index_sub.
  intros x. apply (merge_sizes_In_r _ _ _ x H Hb).
Qed.

Lemma at_index_reindex (v : Var) (out : Sizes) (ix : Index) :
  (forall x, In x (sizes v) -> In x out) -> valid_index out ix ->
  at_index v (unravel out (ravel out ix)) = at_index v ix.
Proof.
  intros Hsub Hv. unfold at_index. f_equal. apply ravel_ext.
  intros d n Hin. apply (position_unravel_ravel out ix d n Hv). apply Hsub. exact Hin.
Qed.

(** Every element of [a o b] is the float operation on the elements of
    [a] and [b] at the same labelled position (broadcast included). *)
Lemma var_binop_at (o : BinOp) (a b r : Var) (ix : Index) :
  var_binop o a b = Ok r -> NoDup (dims b) -> valid_index (sizes r) ix ->
  at_index r ix = op_value o (at_index a ix) (at_index b ix).
Proof.
  unfold var_binop. destruct (merge_sizes (sizes a) (sizes b)) as [out | e] eqn:Hm;
    simpl; [| discriminate].
  destruct (variance_guard out a); simpl; [| discriminate].
  destruct (variance_guard out b); simpl; [| discriminate].
  intros H Hb Hv. inversion H; subst r; clear H. simpl in Hv.
  unfold at_index at 1. simpl. unfold elem_values.
  pose proof (ravel_lt _ _ Hv) as Hlt.
  rewrite (nth_indep _ nan (op_value o (at_index a (unravel out 0)) (at_index b (unravel out 0))))
    by (rewrite length_map, length_seq; exact Hlt).
  rewrite (map_nth (fun k => op_value o (at_index a (unravel out k)) (at_index b (unravel out k)))).
  rewrite seq_nth by exact Hlt. simpl.
  rewrite (at_index_reindex a out ix), (at_index_reindex b out ix); auto.
  - intros y. apply (merge_sizes_In_r _ _ _ y Hm Hb).
  - intros y. apply (merge_sizes_In_l _ _ _ y Hm).
Qed.

(** On two arrays of the same extents the buffers are combined position
    by position. *)
Lemma var_binop_same_shape (o : BinOp) (a b : Var) :
  NoDup (dims a) -> sizes b = sizes a ->
  var_binop o a b =
  Ok (mkVar (sizes a)
        (map (fun k => op_value o (nth k (values a) nan) (nth k (values b) nan))
             (seq 0 (volume (sizes a))))
        (same_shape_variances o a b)).
Proof.
  intros Hnd Hs. unfold var_binop. rewrite Hs, (merge_sizes_same _ Hnd). simpl.
  unfold variance_guard, broadcasts. rewrite Hs, Nat.eqb_refl. simpl.
  assert (G1 : match variances a with Some _ => Ok tt | None => Ok tt end = Ok tt)
    by (destruct (variances a); reflexivity).
  assert (G2 : match variances b with Some _ => Ok tt | None => Ok tt end = Ok tt)
    by (destruct (variances b); reflexivity).
  rewrite G1. simpl. rewrite G2. simpl. f_equal. f_equal.
  - unfold elem_values. apply map_seq_ext. intros k Hk. unfold at_index.
    rewrite Hs, (ravel_unravel _ _ Hnd Hk). reflexivity.
  - unfold elem_variances, same_shape_variances.
    destruct (variances a) as [va |], (variances b) as [vb |]; try reflexivity;
      f_equal; apply map_seq_ext; intros k Hk; unfold at_index, var_at; simpl;
      rewrite ?Hs, (ravel_unravel _ _ Hnd Hk); reflexivity.
Qed.

Lemma da_binop_inv (o : BinOp) (a b r : DataArray) :
  da_binop o a b = Ok r ->
  exists va vb v, data a = Dense va /\ data b = Dense vb /\
                  var_binop o va vb = Ok v /\ data r = Dense v.
Proof.
  unfold da_binop. destruct (data a) as [va | ? ? ?]; [| discriminate].
  destruct (data b) as [vb | ? ? ?]; [| discriminate].
  intros H. inv_bind H. inversion H; subst. exists va, vb, x0. auto.
Qed.

(** ** Coordinates and masks in binary operations *)

Lemma sizes_eqb_refl (s : Sizes) : sizes_eqb s s = true.
Proof.
  unfold sizes_eqb. rewrite Nat.eqb_refl. simpl.
  induction s as [| [d n] r IH]; simpl; [reflexivity |].
  rewrite String.eqb_refl, Nat.eqb_refl. exact IH.
Qed.

Lemma sizes_eqb_eq (a b : Sizes) : sizes_eqb a b = true -> a = b.
Proof.
  unfold sizes_eqb. revert b. induction a as [| [d n] a IH]; intros [| [d' n'] b]; simpl;
    try discriminate; [reflexivity |].
  intros H. apply andb_true_iff in H as [Hl H]. apply andb_true_iff in H as [Hh Ht].
  apply andb_true_iff in Hh as [Hd Hn].
  apply String.eqb_eq in Hd. apply Nat.eqb_eq in Hn. subst. f_equal.
  apply IH. rewrite Hl. exact Ht.
Qed.

Lemma list_eqb_refl {A : Type} (eq : A -> A -> bool) (l : list A) :
  (forall x, eq x x = true) -> list_eqb eq l l = true.
Proof.
  intros H. induction l as [| x l IH]; simpl; [reflexivity |]. rewrite H, IH. reflexivity.
Qed.

Lemma matching_refl (v : Var) : matching v v = true.
Proof.
  unfold matching, var_equal. rewrite sizes_eqb_refl, (list_eqb_refl _ _ feq_nan_refl). simpl.
  destruct (variances v); simpl; [apply list_eqb_refl, feq_nan_refl | reflexivity].
Qed.

Lemma assoc_get_In {A : Type} (k : string) (v : A) (l : list (string * A)) :
  assoc_get k l = Some v -> In (k, v) l.
Proof.
  induction l as [| [k' v'] r IH]; simpl; [discriminate |].
  destruct (String.eqb_spec k k') as [-> | Hne]; intros H.
  - inversion H. left. reflexivity.
  - right. apply IH. exact H.
Qed.

Lemma assoc_get_NoDup {A : Type} (k : string) (v : A) (l : list (string * A)) :
  NoDup (map fst l) -> In (k, v) l -> assoc_get k l = Some v.
Proof.
  induction l as [| [k' v'] r IH]; simpl; intros Hnd Hin; [contradiction |].
  inversion Hnd as [| ? ? Hnotin Hnd']; subst.
  destruct Hin as [E | Hin].
  - inversion E; subst. rewrite String.eqb_refl. reflexivity.
  - destruct (String.eqb_spec k k') as [-> | Hne]; [| apply IH; assumption].
    exfalso. apply Hnotin. change k' with (fst (k', v)). apply in_map. exact Hin.
Qed.

Lemma merge_left_shared (a0 a b : list (string * Coord)) :
  NoDup (map fst a0) -> (forall x, In x a -> In x a0) ->
  Forall (fun nc => c_aligned (snd nc) = true) a ->
  coords_shared a0 b ->
  merge_left a b = Ok a.
Proof.
  intros Hnd Hsub Hal Hsh. induction a as [| [n ca] a IH]; simpl; [reflexivity |].
  inversion Hal as [| ? ? Hca Hal']; subst. simpl in Hca.
  assert (Hc : match assoc_get n b with
               | Some cb => meet_coord ca cb
               | None => Ok (if c_aligned ca then Some ca else None)
               end = Ok (Some ca)).
  { destruct (assoc_get n b) as [cb |] eqn:Eb; [| rewrite Hca; reflexivity].
    apply assoc_get_In in Eb. unfold coords_shared in Hsh. rewrite Forall_forall in Hsh.
    destruct (Hsh _ Eb) as [Halb Hget]. simpl in *.
    rewrite (assoc_get_NoDup n ca a0 Hnd) in Hget by (apply Hsub; left; reflexivity).
    inversion Hget; subst cb. unfold meet_coord. rewrite Halb, matching_refl. reflexivity. }
  rewrite Hc. simpl. rewrite IH; [reflexivity | | exact Hal'].
  intros x Hx. apply Hsub. right. exact Hx.
Qed.

Lemma merge_coords_shared (a b : list (string * Coord)) :
  NoDup (map fst a) -> Forall (fun nc => c_aligned (snd nc) = true) a ->
  coords_shared a b -> merge_coords a b = Ok a.
Proof.
  intros Hnd Hal Hsh. unfold merge_coords.
  rewrite (merge_left_shared a a b Hnd (fun x H => H) Hal Hsh). simpl.
  assert (E : filter (fun nb => absent_from a nb && c_aligned (snd nb)) b = []).
  { unfold coords_shared in Hsh. induction Hsh as [| nb b [_ Hg] _ IH]; simpl; [reflexivity |].
    unfold absent_from at 1. rewrite Hg. exact IH. }
  rewrite E, app_nil_r. reflexivity.
Qed.

Lemma merge_masks_nil_r (a : list (string * Mask)) : merge_masks a [] = Ok a.
Proof.
  unfold merge_masks.
  assert (E : merge_masks_left a [] = Ok a).
  { induction a as [| [n m] a IH]; simpl; [reflexivity |]. rewrite IH. reflexivity. }
  rewrite E. simpl. rewrite app_nil_r. reflexivity.
Qed.

(* ================================================================== *)
(** ** Background subtraction, transmission fraction, normalization *)

Lemma to_dense_view (x y : DataArray) :
  to_dense x = Ok y -> data y = Dense (dense_view x).
Proof.
  unfold to_dense, has_bins, bins_sum, dense_view.
  destruct (data x) as [v | s wv c] eqn:E; intros H; inversion H; subst; simpl; auto.
Qed.

Lemma to_dense_sizes (x y : DataArray) :
  to_dense x = Ok y -> da_sizes x = sizes (dense_view x).
Proof.
  unfold to_dense, has_bins, da_sizes, dense_view.
  destruct (data x) as [v | s wv c]; intros _; reflexivity.
Qed.

Lemma has_bins_dense (x : DataArray) (v : Var) : data x = Dense v -> has_bins x = false.
Proof. unfold has_bins. intros ->. reflexivity. Qed.

Ltac nodup_strings :=
  repeat constructor; simpl; intuition discriminate.

Ltac valid_index_closed :=
  let d := fresh "d" in
  let n := fresh "n" in
  let H := fresh "H" in
  intros d n H; simpl in H;
  repeat (destruct H as [H | H]; [inversion H; subst; simpl; lia |]);
  contradiction.

(** C9.  [subtract_background] first turns an event-form operand into
    its dense form, the sum of the event weights of every bin, and then
    subtracts bin by bin: the result is dense and each of its elements is the
    float difference of the two dense readings.  On the sample
    [10, 20, 30] and the background [1, 2, 3] over three Q bins the result is
    exactly [9, 18, 27], also when the sample is given as events. *)
Theorem subtract_background_dense_difference :
  (forall sample background r,
     subtract_background sample background = Ok r ->
     has_bins r = false /\
     (NoDup (da_dims background) ->
      forall ix, valid_index (da_sizes r) ix ->
        at_index (dense_view r) ix =
        (at_index (dense_view sample) ix - at_index (dense_view background) ix)%float))
  /\ subtract_background (iofq [10; 20; 30]%float) (iofq [1; 2; 3]%float)
     = Ok (iofq [9; 18; 27]%float)
  /\ subtract_background iofq_events (iofq [1; 2; 3]%float)
     = Ok (iofq [9; 18; 27]%float).
Proof.
  split; [| split; vm_compute; reflexivity].
  intros sample background r H. unfold subtract_background in H. inv_bind H.
  destruct (da_binop_inv _ _ _ _ H) as (va & vb & v & Ea & Eb & Hv & Er).
  rewrite (to_dense_view _ _ E) in Ea. rewrite (to_dense_view _ _ E0) in Eb.
  inversion Ea; subst va. inversion Eb; subst vb.
  split; [exact (has_bins_dense _ _ Er) |].
  intros Hnd ix Hix.
  unfold da_sizes in Hix. rewrite Er in Hix.
  unfold dense_view at 1. rewrite Er.
  apply (var_binop_at OpSub _ _ _ ix Hv); [| exact Hix].
  unfold dims. rewrite <- (to_dense_sizes _ _ E0). exact Hnd.
Qed.

Lemma subtract_background_witness :
  has_bins (iofq [9; 18; 27]%float) = false /\
  at_index (dense_view (iofq [9; 18; 27]%float)) [("Q", 1%nat)] =
  (at_index (dense_view iofq_events) [("Q", 1%nat)]
   - at_index (dense_view (iofq [1; 2; 3]%float)) [("Q", 1%nat)])%float.
Proof.
  destruct (proj1 subtract_background_dense_difference
              iofq_events (iofq [1; 2; 3]%float) (iofq [9; 18; 27]%float)
              ltac:(vm_compute; reflexivity)) as [H1 H2].
  split; [exact H1 |].
  apply H2; [nodup_strings | valid_index_closed].
Defined.

(** C3.  [transmission_fraction] is, element by element,
    (sample transmission / direct transmission) * (direct incident / sample
    incident) in binary64 arithmetic; for the scalar monitors 100, 80, 90, 95
    it is (80/95)*(90/100), within 1e-4 of 0.7579. *)
Theorem transmission_fraction_formula :
  (forall sample_incident sample_transmission direct_incident direct_transmission r,
     transmission_fraction sample_incident sample_transmission
                           direct_incident direct_transmission = Ok r ->
     NoDup (da_dims sample_incident) -> NoDup (da_dims direct_incident) ->
     NoDup (da_dims direct_transmission) ->
     has_bins r = false /\
     forall ix, valid_index (da_sizes r) ix ->
       at_index (dense_view r) ix =
       ((at_index (dense_view sample_transmission) ix
         / at_index (dense_view direct_transmission) ix)
        * (at_index (dense_view direct_incident) ix
           / at_index (dense_view sample_incident) ix))%float)
  /\ transmission_fraction (point 100) (point 80) (point 90) (point 95)
     = Ok (point ((80 / 95) * (90 / 100))%float)
  /\ fabs_lt ((80 / 95) * (90 / 100)) 0.7579 0.0001 = true.
Proof.
  split; [| split; vm_compute; reflexivity].
  intros si st di dt r H Hsi Hdi Hdt. unfold transmission_fraction in H. inv_bind H.
  destruct (da_binop_inv _ _ _ _ E) as (vst & vdt & vt & Est & Edt & Ht & Ext).
  destruct (da_binop_inv _ _ _ _ E0) as (vdi & vsi & vi & Edi & Esi & Hi & Exi).
  destruct (da_binop_inv _ _ _ _ H) as (vt' & vi' & v & Et' & Ei' & Hv & Er).
  rewrite Ext in Et'. rewrite Exi in Ei'. inversion Et'; subst vt'. inversion Ei'; subst vi'.
  split; [exact (has_bins_dense _ _ Er) |].
  unfold da_dims, da_sizes, dense_view in *.
  rewrite Est, Edt, Edi, Esi, Er in *.
  assert (Hni : NoDup (dims vi)) by exact (var_binop_NoDup _ _ _ _ Hi Hdi Hsi).
  intros ix Hix.
  rewrite (var_binop_at OpMul vt vi v ix Hv Hni Hix). simpl.
  rewrite (var_binop_at OpDiv vst vdt vt ix Ht Hdt (var_binop_valid_l _ _ _ _ _ Hv Hix)).
  rewrite (var_binop_at OpDiv vdi vsi vi ix Hi Hsi (var_binop_valid_r _ _ _ _ _ Hv Hni Hix)).
  reflexivity.
Qed.

Lemma transmission_fraction_witness :
  has_bins (point ((80 / 95) * (90 / 100))%float) = false /\
  at_index (dense_view (point ((80 / 95) * (90 / 100))%float)) [] =
  ((at_index (dense_view (point 80)) [] / at_index (dense_view (point 95)) [])
   * (at_index (dense_view (point 90)) [] / at_index (dense_view (point 100)) []))%float.
Proof.
  destruct (proj1 transmission_fraction_formula
              (point 100) (point 80) (point 90) (point 95)
              (point ((80 / 95) * (90 / 100))%float)
              ltac:(vm_compute; reflexivity)
              ltac:(constructor) ltac:(constructor) ltac:(constructor)) as [H1 H2].
  split; [exact H1 |].
  apply H2. valid_index_closed.
Defined.


(** Adding a zero changes nothing, except that [-0 + 0 = +0]. *)
Lemma fadd_zero (a z : float) (s : bool) :
  not_neg_zero a = true -> Prim2SF z = S754_zero s -> (a + z)%float = a.
Proof.
  unfold not_neg_zero. intros Ha Hz. apply Prim2SF_inj.
  rewrite FloatAxioms.add_spec, Hz.
  destruct (Prim2SF a) as [[|] | | | sa ma ea]; try discriminate; try reflexivity;
    destruct s; reflexivity.
Qed.









Lemma bind_ret {A : Type} (m : result A) : bind m (fun x => Ok x) = m.
Proof. destruct m; reflexivity. Qed.









(* ================================================================== *)
(** ** Monitor preprocessing *)

Lemma ravel_reindex (s out : Sizes) (ix : Index) :
  (forall x, In x s -> In x out) -> valid_index out ix ->
  ravel s (unravel out (ravel out ix)) = ravel s ix.
Proof.
  intros Hsub Hv. apply ravel_ext.
  intros d n Hin. apply (position_unravel_ravel out ix d n Hv). apply Hsub. exact Hin.
Qed.

(** The variance of every element of [a o b]. *)
Lemma var_binop_variance_at (o : BinOp) (a b r : Var) (ix : Index) :
  var_binop o a b = Ok r -> NoDup (dims b) -> valid_index (sizes r) ix ->
  variance_at r ix =
  match variances a, variances b with
  | None, None => None
  | _, _ => Some (op_variance o (at_index a ix) (variance_at a ix)
                              (at_index b ix) (variance_at b ix))
  end.
Proof.
  unfold var_binop. destruct (merge_sizes (sizes a) (sizes b)) as [out | e] eqn:Hm;
    simpl; [| discriminate].
  destruct (variance_guard out a); simpl; [| discriminate].
  destruct (variance_guard out b); simpl; [| discriminate].
  intros H Hb Hv. inversion H; subst r; clear H. cbn [sizes] in Hv.
  pose proof (ravel_lt _ _ Hv) as Hlt.
  assert (Ha' : forall y, In y (sizes a) -> In y out)
    by (intros y; apply (merge_sizes_In_l _ _ _ y Hm)).
  assert (Hb' : forall y, In y (sizes b) -> In y out)
    by (intros y; apply (merge_sizes_In_r _ _ _ y Hm Hb)).
  unfold variance_at at 1. cbn [variances sizes]. unfold elem_variances.
  assert (Hnth : forall f : nat -> float,
             nth (ravel out ix) (map f (seq 0 (volume out))) nan = f (ravel out ix)).
  { intros f. rewrite (nth_indep _ nan (f 0)) by (rewrite length_map, length_seq; exact Hlt).
    rewrite (map_nth f). rewrite seq_nth by exact Hlt. reflexivity. }
  assert (Hva : var_at (variances a) (sizes a) (unravel out (ravel out ix)) = variance_at a ix).
  { unfold variance_at, var_at. destruct (variances a); [| reflexivity].
    rewrite (ravel_reindex _ _ _ Ha' Hv). reflexivity. }
  assert (Hvb : var_at (variances b) (sizes b) (unravel out (ravel out ix)) = variance_at b ix).
  { unfold variance_at, var_at. destruct (variances b); [| reflexivity].
    rewrite (ravel_reindex _ _ _ Hb' Hv). reflexivity. }
  destruct (variances a) as [la |] eqn:Ea, (variances b) as [lb |] eqn:Eb;
    try reflexivity; unfold var_at at 1; rewrite Hnth; cbv beta zeta;
    rewrite Hva, Hvb, (at_index_reindex a out ix Ha' Hv), (at_index_reindex b out ix Hb' Hv);
    reflexivity.
Qed.

(** What [a -= b] returns: the left operand's extents and coordinates, the
    element-wise difference, and on every element that has a variance the
    sum of its variance and the variance of the subtracted element (0 when
    [b] has no variances). *)
Lemma da_isub_result (a b r : DataArray) :
  da_isub a b = Ok r ->
  exists va vb vr,
    data a = Dense va /\ data b = Dense vb /\ data r = Dense vr /\
    sizes vr = sizes va /\ coords r = coords a /\
    (NoDup (dims vb) ->
     forall ix, valid_index (sizes va) ix ->
       at_index vr ix = (at_index va ix - at_index vb ix)%float /\
       variance_at vr ix =
       match variance_at va ix with
       | Some x => Some (x + match variance_at vb ix with Some y => y | None => 0 end)%float
       | None => None
       end).
Proof.
  unfold da_isub. destruct (data a) as [va | ? ? ?]; [| discriminate].
  destruct (data b) as [vb | ? ? ?]; [| discriminate].
  destruct (coords_cover _ _); [| discriminate]. intros H. inv_bind H.
  destruct (sizes_eqb (sizes x) (sizes va)) eqn:Es; [| discriminate].
  apply sizes_eqb_eq in Es. cbn [negb] in H.
  assert (H' : (exists ms, r = mkDataArray (Dense x) (coords a) ms) /\
               (variances va = None -> variances vb = None)).
  { destruct (variances va), (variances vb); try discriminate;
      inv_bind H; inversion H; split; eauto; intros; congruence. }
  destruct H' as [[ms ->] Hnone]. exists va, vb, x. cbn [data coords].
  repeat split; auto. 
  - rewrite <- Es in H1. exact (var_binop_at OpSub va vb x ix E H0 H1).
  - rewrite <- Es in H1. rewrite (var_binop_variance_at OpSub va vb x ix E H0 H1).
    destruct (variances va) as [la |] eqn:Ea.
    + assert (Hva : variance_at va ix = Some (nth (ravel (sizes va) ix) la nan))
        by (unfold variance_at, var_at; rewrite Ea; reflexivity).
      rewrite Hva. cbn [op_variance].
      destruct (variances vb); reflexivity.
    + assert (Hva : variance_at va ix = None)
        by (unfold variance_at, var_at; rewrite Ea; reflexivity).
      rewrite Hva, (Hnone eq_refl). reflexivity.
Qed.

(** C1.  Without a range [preprocess_monitor_data] returns the
    re-binning of the monitor ([hist] onto the target bins for events,
    [rebin] for dense data), whatever the mode.  With a range the background
    level is the mean of the monitor outside of the range, and what is
    returned is the re-binned monitor minus an operand chosen by the mode:
    under [drop] the values of the background without its variances, under
    [upper_bound] the background broadcast with upper-bound variances to
    the extents of the re-binned monitor, under [fail] the background
    itself.  The result has the extents and coordinates of the re-binned
    monitor, every element is the float difference, and every variance is
    the variance of the re-binned element plus that of the operand (plus 0
    under [drop]: the re-binned variance itself).  Under [fail] a scalar
    background with variances is refused with [VariancesError] when the
    re-binned monitor has a dimension. *)
Theorem preprocess_monitor_background_mode {E : External}
    (monitor : DataArray) (wavelength_bins : Var)
    (uncertainties : UncertaintyBroadcastMode) :
  let rebinning :=
    if has_bins monitor then hist monitor "wavelength" (QEdges wavelength_bins)
    else rebin monitor "wavelength" wavelength_bins in
  preprocess_monitor_data monitor wavelength_bins None uncertainties = rebinning
  /\
  forall non_background_range d n masked background rebinned,
    sizes non_background_range = [(d, n)] -> n = 1 \/ n = 2 ->
    mask_range monitor d non_background_range = Ok masked ->
    mean masked = Ok background ->
    rebinning = Ok rebinned ->
    (forall r,
       preprocess_monitor_data monitor wavelength_bins (Some non_background_range)
                               uncertainties = Ok r ->
       exists operand vm vb vr,
         match uncertainties with
         | drop =>
             exists v, data background = Dense v /\ data operand = Dense (var_values v)
         | upper_bound =>
             broadcast_with_upper_bound_variances background (da_sizes rebinned) = Ok operand
         | fail => operand = background
         end /\
         data rebinned = Dense vm /\ data operand = Dense vb /\ data r = Dense vr /\
         sizes vr = sizes vm /\ coords r = coords rebinned /\
         (NoDup (dims vb) ->
          forall ix, valid_index (sizes vm) ix ->
            at_index vr ix = (at_index vm ix - at_index vb ix)%float /\
            variance_at vr ix =
            match variance_at vm ix with
            | Some x =>
                Some (x + match variance_at vb ix with Some y => y | None => 0 end)%float
            | None => None
            end /\
            (uncertainties = drop ->
             forall x, variance_at vm ix = Some x -> not_neg_zero x = true ->
               variance_at vr ix = Some x)))
    /\ (uncertainties = fail ->
        forall vb vm,
          data background = Dense vb -> sizes vb = [] -> variances vb <> None ->
          data rebinned = Dense vm -> sizes vm <> [] ->
          coords_cover (coords rebinned) (coords background) = true ->
          preprocess_monitor_data monitor wavelength_bins (Some non_background_range)
                                  uncertainties = Raise VariancesError).
Proof.
  cbv zeta. split.
  - unfold preprocess_monitor_data, to_wavelength_bins. cbn [bind]. apply bind_ret.
  - intros range d n masked background rebinned Hs Hn Hmask Hmean Hre.
    assert (Hpre : preprocess_monitor_data monitor wavelength_bins (Some range) uncertainties =
                   match uncertainties with
                   | drop => da_isub rebinned (da_values background)
                   | upper_bound =>
                       b <- broadcast_with_upper_bound_variances background
                              (da_sizes rebinned) ;;
                       da_isub rebinned b
                   | fail => da_isub rebinned background
                   end).
    { unfold preprocess_monitor_data, background_level, range_mask, dim, to_wavelength_bins.
      rewrite Hs. cbn [bind fst snd].
      assert (Hn' : Nat.eqb n 1 || Nat.eqb n 2 = true)
        by (destruct Hn as [-> | ->]; reflexivity).
      rewrite Hn'. cbn [bind fst snd]. rewrite Hmask. cbn [bind]. rewrite Hmean. cbn [bind].
      rewrite Hre. reflexivity. }
    split.
    + intros r Hr. rewrite Hpre in Hr.
      assert (Hop : exists operand,
                 match uncertainties with
                 | drop =>
                     exists v, data background = Dense v /\
                               data operand = Dense (var_values v)
                 | upper_bound =>
                     broadcast_with_upper_bound_variances background (da_sizes rebinned)
                     = Ok operand
                 | fail => operand = background
                 end /\ da_isub rebinned operand = Ok r).
      { destruct uncertainties.
        - exists (da_values background). split; [| exact Hr].
          unfold da_isub in Hr. destruct (data rebinned); [| discriminate].
          unfold da_values in *. destruct (data background) as [vk | ? ? ?] eqn:Eb;
            cbn [data] in *; [| discriminate]. exists vk. auto.
        - inv_bind Hr. exists x. auto.
        - exists background. auto. }
      destruct Hop as (operand & Hmode & Hsub).
      destruct (da_isub_result _ _ _ Hsub) as (vm & vb & vr & Em & Eo & Er & Hsz & Hc & Hel).
      exists operand, vm, vb, vr. repeat split; auto.
      * apply (Hel H ix H0).
      * apply (Hel H ix H0).
      * intros -> x Hx Hnz. destruct (Hel H ix H0) as [_ Hvar]. rewrite Hvar, Hx.
        destruct Hmode as (v & Eb & Eo'). rewrite Eo in Eo'. inversion Eo'; subst vb.
        unfold variance_at at 1. cbn [variances var_values var_at].
        f_equal. exact (fadd_zero x 0%float false Hnz eq_refl).
    + intros -> vb vm Eb Hsb Hvb Em Hsm Hcov. rewrite Hpre.
      unfold da_isub. rewrite Em, Eb, Hcov.
      unfold var_binop. rewrite Hsb, merge_sizes_nil_r. cbn [bind].
      unfold variance_guard, broadcasts. rewrite Nat.eqb_refl. cbn [negb].
      assert (G : match variances vm with Some _ => Ok tt | None => Ok tt end = Ok tt)
        by (destruct (variances vm); reflexivity).
      rewrite G. cbn [bind].
      destruct (variances vb) as [l |]; [| congruence].
      rewrite Hsb. destruct (sizes vm) as [| p s]; [congruence |]. reflexivity.
Qed.

Lemma preprocess_monitor_witness :
  rebin monitor4 "wavelength" coarse_edges
  = Ok (mkDataArray
          (Dense (mkVar [("wavelength", 2)] [25; 35]%float (Some [25; 35]%float)))
          [("wavelength", mkCoord coarse_edges true)] [])
  /\ preprocess_monitor_data monitor4 coarse_edges None drop
     = rebin monitor4 "wavelength" coarse_edges
  /\ preprocess_monitor_data monitor4 coarse_edges (Some signal_range) drop
     = Ok (mkDataArray
             (Dense (mkVar [("wavelength", 2)] [20; 30]%float (Some [25; 35]%float)))
             [("wavelength", mkCoord coarse_edges true)] [])
  /\ preprocess_monitor_data monitor4 coarse_edges (Some signal_range) upper_bound
     = Ok (mkDataArray
             (Dense (mkVar [("wavelength", 2)] [20; 30]%float (Some [30; 40]%float)))
             [("wavelength", mkCoord coarse_edges true)] [])
  /\ preprocess_monitor_data monitor4 coarse_edges (Some signal_range) fail
     = Raise VariancesError.
Proof.
  split; [vm_compute; reflexivity |].
  split; [exact (proj1 (preprocess_monitor_background_mode monitor4 coarse_edges drop)) |].
  split; [vm_compute; reflexivity |].
  split; [vm_compute; reflexivity |].
  refine (proj2 (proj2 (preprocess_monitor_background_mode monitor4 coarse_edges fail)
                   signal_range "wavelength" 2 _ _ _ eq_refl (or_intror eq_refl)
                   eq_refl eq_refl eq_refl)
                eq_refl _ _ eq_refl eq_refl _ eq_refl _ eq_refl).
  - discriminate.
  - discriminate.
Defined.

(* ================================================================== *)
(** ** Direct-beam resampling *)

(** C4.  A direct beam whose wavelength coordinate is identical to the
    target bins is returned as it is, with nothing logged; so resampling a
    result that lies on the target bins returns that result again.
    Otherwise the value-only curve is handed to the interpolation at the
    midpoints of the target bins, with extrapolation switched on and the
    bounds error switched off, and the warning about the dropped variances is
    logged exactly when the curve had variances. *)
Theorem resample_direct_beam_identity {E : External}
    (direct_beam : DataArray) (wavelength_bins : Var) (c : Coord) :
  getitem "wavelength" (coords direct_beam) = Ok c ->
  (identical (c_var c) wavelength_bins = true ->
     resample_direct_beam direct_beam wavelength_bins = ([], Ok direct_beam))
  /\ (forall r c',
        snd (resample_direct_beam direct_beam wavelength_bins) = Ok r ->
        getitem "wavelength" (coords r) = Ok c' ->
        identical (c_var c') wavelength_bins = true ->
        resample_direct_beam r wavelength_bins = ([], Ok r))
  /\ (identical (c_var c) wavelength_bins = false ->
      forall hv, has_variances direct_beam = Ok hv ->
        resample_direct_beam direct_beam wavelength_bins =
        ((if hv then [variance_warning] else []),
         interp1d (da_values direct_beam) "wavelength" Extrapolate false wavelength_bins true)
        /\ has_variances (da_values direct_beam) = Ok false
        /\ values (dense_view (da_values direct_beam)) = values (dense_view direct_beam)).
Proof.
  intros Hc. split; [| split].
  - intros Hid. unfold resample_direct_beam. rewrite Hc, Hid. reflexivity.
  - intros r c' _ Hc' Hid. unfold resample_direct_beam. rewrite Hc', Hid. reflexivity.
  - intros Hid hv Hv. unfold resample_direct_beam. rewrite Hc, Hid, Hv.
    split; [reflexivity |].
    unfold has_variances, da_values, dense_view in *.
    destruct (data direct_beam); split; reflexivity.
Qed.

Lemma resample_direct_beam_witness :
  resample_direct_beam direct_beam5 wavelength_edges = ([], Ok direct_beam5)
  /\ resample_direct_beam direct_beam5 coarse_edges =
     ([variance_warning],
      interp1d (da_values direct_beam5) "wavelength" Extrapolate false coarse_edges true).
Proof.
  pose proof (resample_direct_beam_identity direct_beam5 wavelength_edges
                (mkCoord wavelength_edges true) eq_refl) as H1.
  pose proof (resample_direct_beam_identity direct_beam5 coarse_edges
                (mkCoord wavelength_edges true) eq_refl) as H2.
  split.
  - exact (proj1 H1 eq_refl).
  - exact (proj1 (proj2 (proj2 H2) eq_refl true eq_refl)).
Defined.

(* ================================================================== *)
(** ** Solid angle *)

Lemma mem_set_minus (d : Dim) (a b : list Dim) :
  mem d (set_minus a b) = mem d a && negb (mem d b).
Proof.
  unfold set_minus, mem. induction a as [| x a IH]; simpl; [reflexivity |].
  fold (mem x b). fold (mem d b) in *. destruct (mem x b) eqn:Ex; simpl; rewrite IH.
  - destruct (String.eqb_spec d x) as [-> | Hne]; simpl; [| reflexivity].
    rewrite Ex. simpl. apply andb_false_r.
  - destruct (String.eqb_spec d x) as [-> | Hne]; simpl; [| reflexivity].
    rewrite Ex. reflexivity.
Qed.

(** For a coordinate or mask with dimensions of the data, not depending on
    a dimension the output lacks is having all its dimensions among those of
    the output. *)
Lemma independent_iff_subset (all out : list Dim) (s : Sizes) :
  subset (dims_of s) all = true ->
  negb (depends_on (set_minus all out) s) = subset (dims_of s) out.
Proof.
  unfold depends_on, subset, dims_of. induction s as [| p s IH]; simpl; [reflexivity |].
  intros H. apply andb_true_iff in H as [Hp Hs].
  rewrite mem_set_minus, Hp, negb_orb, IH by exact Hs. simpl.
  rewrite negb_involutive. reflexivity.
Qed.

Lemma filter_ext_Forall {A : Type} (f g : A -> bool) (l : list A) :
  Forall (fun x => f x = g x) l -> filter f l = filter g l.
Proof.
  induction 1 as [| x l Hx _ IH]; simpl; [reflexivity |]. rewrite Hx, IH. reflexivity.
Qed.

(** C8.  When the pixel shape coordinates are present and the
    arithmetic goes through, [solid_angle_rectangular_approximation] returns
    the array [omega] with, at every position,
    (pixel width * pixel height) / (L2 * L2), where L2 is the distance from
    the sample to the pixel; of the coordinates and masks of the input
    exactly those whose dimensions are all dimensions of [omega] are kept. *)
Theorem solid_angle_rectangular {E : External} (x : DataArray)
    (pixel_width pixel_height : Coord) (l2 omega : Var) :
  getitem "pixel_width" (coords x) = Ok pixel_width ->
  getitem "pixel_height" (coords x) = Ok pixel_height ->
  L2 x = Ok l2 ->
  (area <- var_binop OpMul (c_var pixel_width) (c_var pixel_height) ;;
   l2sq <- var_binop OpMul l2 l2 ;;
   var_binop OpDiv area l2sq) = Ok omega ->
  exists r,
    solid_angle_rectangular_approximation x = Ok r /\
    data r = Dense omega /\
    (NoDup (dims (c_var pixel_height)) -> NoDup (dims l2) ->
     forall ix, valid_index (sizes omega) ix ->
       at_index omega ix =
       ((at_index (c_var pixel_width) ix * at_index (c_var pixel_height) ix)
        / (at_index l2 ix * at_index l2 ix))%float) /\
    (dims_within x ->
     coords r = filter (fun nc => subset (dims (c_var (snd nc))) (dims omega)) (coords x) /\
     masks r = filter (fun nm => subset (dims_of (m_sizes (snd nm))) (dims omega)) (masks x)).
Proof.
  intros Hw Hh Hl Ho.
  exists (rewrap_reduced_data x omega (set_minus (da_dims x) (dims omega))).
  split; [| split; [reflexivity | split]].
  - unfold solid_angle_rectangular_approximation. rewrite Hw, Hh, Hl. cbn [bind].
    inv_bind Ho. rewrite E0. cbn [bind]. rewrite E1. cbn [bind]. rewrite Ho. reflexivity.
  - intros Hnh Hnl ix Hix. inv_bind Ho.
    assert (Hn1 : NoDup (dims x1)) by exact (var_binop_NoDup _ _ _ _ E1 Hnl Hnl).
    rewrite (var_binop_at OpDiv x0 x1 omega ix Ho Hn1 Hix). simpl.
    rewrite (var_binop_at OpMul _ _ x0 ix E0 Hnh (var_binop_valid_l _ _ _ _ _ Ho Hix)).
    rewrite (var_binop_at OpMul _ _ x1 ix E1 Hnl (var_binop_valid_r _ _ _ _ _ Ho Hn1 Hix)).
    reflexivity.
  - intros [Hc Hm]. unfold rewrap_reduced_data, reduced_coords, reduced_masks.
    cbn [coords masks]. split; apply filter_ext_Forall.
    + eapply Forall_impl; [| exact Hc]. intros nc Hnc.
      apply independent_iff_subset. exact Hnc.
    + eapply Forall_impl; [| exact Hm]. intros nm Hnm.
      apply independent_iff_subset. exact Hnm.
Qed.

Lemma solid_angle_rectangular_witness :
  solid_angle_rectangular_approximation detector =
  Ok (mkDataArray
        (Dense (array1 "spectrum" [0.03125; 0.0078125; 0.001953125]%float))
        [("pixel_width", mkCoord (scalar 0.5) true);
         ("pixel_height", mkCoord (scalar 0.25) true);
         ("L2", mkCoord (array1 "spectrum" [2; 4; 8]%float) true)]
        [("bad_pixel", mkMask [("spectrum", 3)] [false; true; false])]).
Proof.
  destruct (solid_angle_rectangular (E := reference_ops) detector
              (mkCoord (scalar 0.5) true) (mkCoord (scalar 0.25) true)
              (array1 "spectrum" [2; 4; 8]%float)
              (array1 "spectrum" [0.03125; 0.0078125; 0.001953125]%float)
              eq_refl eq_refl eq_refl ltac:(vm_compute; reflexivity))
    as (r & Hr & Hd & _ & Hk).
  destruct Hk as [Hc Hm].
  { split; repeat constructor. }
  rewrite Hr. destruct r as [dt cs ms]. cbn [data coords masks] in *.
  subst. vm_compute. reflexivity.
Defined.

(* ================================================================== *)
(** ** Squeezing and concatenation *)

Lemma drop_unit_self (s : Sizes) : drop_unit (unit_dims s) s = squeezed_sizes s.
Proof.
  unfold drop_unit, squeezed_sizes. apply filter_ext_in. intros p Hp.
  destruct (Nat.eqb (snd p) 1) eqn:E1; [| rewrite andb_false_r; reflexivity].
  rewrite andb_true_r. f_equal. apply mem_In. unfold unit_dims, dims_of.
  apply in_map. apply filter_In. split; assumption.
Qed.

Lemma da_sizes_squeeze (x : DataArray) : da_sizes (squeeze x) = squeezed_sizes (da_sizes x).
Proof.
  unfold squeeze, da_sizes. cbn [data]. unfold da_sizes.
  destruct (data x) as [v | s wv c]; cbn [squeeze_data data_sizes sizes]; apply drop_unit_self.
Qed.


Lemma squeezed_sizes_In (s : Sizes) (p : Dim * nat) :
  In p (squeezed_sizes s) -> In p s.
Proof. unfold squeezed_sizes. intros H. apply filter_In in H. tauto. Qed.

Lemma squeezed_sizes_app (a b : Sizes) :
  squeezed_sizes (a ++ b) = squeezed_sizes a ++ squeezed_sizes b.
Proof. apply filter_app. Qed.

Lemma squeezed_sizes_idem (s : Sizes) : squeezed_sizes (squeezed_sizes s) = squeezed_sizes s.
Proof.
  unfold squeezed_sizes. induction s as [| p s IH]; simpl; [reflexivity |].
  destruct (negb (Nat.eqb (snd p) 1)) eqn:E1; simpl; [rewrite E1, IH |]; auto.
Qed.

Lemma has_dim_false (d : Dim) (s : Sizes) : has_dim d s = false <-> ~ In d (dims_of s).
Proof. unfold has_dim. apply mem_false. Qed.

Lemma as_slab_outer {A : Type} (d : Dim) (host S : Sizes) (j : nat) (xs : list A) :
  as_slab d host ((d, j) :: S) xs = Ok ((d, j) :: S, xs).
Proof. unfold as_slab. cbn [fst]. rewrite String.eqb_refl. reflexivity. Qed.

Lemma as_slab_new {A : Type} (d : Dim) (host s : Sizes) (xs : list A) :
  ~ In d (dims_of s) -> size_of d host = None ->
  as_slab d host s xs = Ok ((d, 1) :: s, xs).
Proof.
  intros Hs Hh. unfold as_slab. rewrite Hh. cbn [repeat List.concat]. rewrite app_nil_r.
  destruct s as [| [d' n] r]; [reflexivity |].
  simpl in Hs.
  destruct (String.eqb_spec d d') as [-> | Hne]; [exfalso; apply Hs; left; reflexivity |].
  assert (Hr : has_dim d r = false) by (apply has_dim_false; tauto).
  rewrite Hr. reflexivity.
Qed.

(** Appending one slice without dimension [d] to a stack of [j] slices
    along [d] gives a stack of [j + 1] slices of the same extents. *)
Lemma stack_sizes {A : Type} (d : Dim) (ha hb sb S : Sizes) (j : nat)
    (xa xb : list A) (r : Sizes * list A) :
  stack d ha ((d, j) :: S) xa hb sb xb = Ok r ->
  ~ In d (dims_of sb) -> size_of d hb = None ->
  r = ((d, j + 1) :: S, xa ++ xb) /\ sb = S.
Proof.
  intros H Hsb Hhb. unfold stack in H.
  rewrite as_slab_outer, (as_slab_new d hb sb xb Hsb Hhb) in H. cbn [bind] in H.
  unfold join_slabs in H. cbn [fst snd] in H.
  destruct (sizes_eqb S sb) eqn:Es; [| discriminate].
  apply sizes_eqb_eq in Es. inversion H. auto.
Qed.

Lemma data_concat_sizes (d : Dim) (a b c : Data) (j : nat) (S : Sizes) :
  data_concat d a b = Ok c ->
  data_sizes a = (d, j) :: S -> ~ In d (dims_of (data_sizes b)) ->
  data_sizes c = (d, j + 1) :: S /\ data_sizes b = S.
Proof.
  intros H Ha Hb. assert (Hn : size_of d (data_sizes b) = None) by (apply size_of_None, Hb).
  destruct a as [va | sa wa ca], b as [vb | sb wb cb]; simpl in *; try discriminate.
  - inv_bind H. inversion H; subst c. simpl.
    unfold var_concat in E. rewrite Ha in E. inv_bind E. inversion E; subst x. simpl.
    destruct (stack_sizes _ _ _ _ _ _ _ _ _ E0 Hb Hn) as [-> ->]. auto.
  - destruct (Bool.eqb wa wb); [| discriminate]. subst sa. inv_bind H.
    inversion H; subst c. simpl.
    destruct (stack_sizes _ _ _ _ _ _ _ _ _ E Hb Hn) as [-> ->]. auto.
Qed.

Lemma concat2_sizes (d : Dim) (a b c : DataArray) (j : nat) (S : Sizes) :
  concat2 d a b = Ok c ->
  da_sizes a = (d, j) :: S -> ~ In d (da_dims b) ->
  da_sizes c = (d, j + 1) :: S /\ da_sizes b = S.
Proof.
  unfold concat2, da_dims, da_sizes. intros H Ha Hb. inv_bind H. inversion H; subst c.
  cbn [data]. exact (data_concat_sizes _ _ _ _ _ _ E Ha Hb).
Qed.

Lemma lift_sizes_new (d : Dim) (x y : DataArray) :
  lift d x = Ok y -> ~ In d (da_dims x) -> da_sizes y = (d, 1) :: da_sizes x.
Proof.
  unfold lift, da_dims, da_sizes. intros H Hx.
  assert (Hn : size_of d (data_sizes (data x)) = None) by (apply size_of_None, Hx).
  destruct (data x) as [v | s wv c]; simpl in *.
  - rewrite (as_slab_new d _ _ (values v) Hx Hn) in H. cbn [bind fst snd] in H.
    inv_bind H. inversion H; subst y. cbn [data].
    inv_bind E. inversion E; subst x0. reflexivity.
  - rewrite (as_slab_new d _ _ c Hx Hn) in H. cbn [bind fst snd] in H.
    inversion H; subst y. reflexivity.
Qed.

Lemma lift_sizes_outer (d : Dim) (x y : DataArray) (j : nat) (S : Sizes) :
  lift d x = Ok y -> da_sizes x = (d, j) :: S -> da_sizes y = (d, j) :: S.
Proof.
  unfold lift, da_sizes. intros H Hx.
  destruct (data x) as [v | s wv c]; simpl in *.
  - rewrite Hx, as_slab_outer in H. cbn [bind fst snd] in H.
    inv_bind H. inversion H; subst y. cbn [data].
    inv_bind E. inversion E; subst x0. reflexivity.
  - rewrite Hx, as_slab_outer in H. cbn [bind fst snd] in H.
    inversion H; subst y. reflexivity.
Qed.

Lemma fold_left_raise {A B : Type} (f : result A -> B -> result A) (l : list B) (e : Exception) :
  (forall b, f (Raise e) b = Raise e) -> fold_left f l (Raise e) = Raise e.
Proof. intros H. induction l as [| b l IH]; simpl; [reflexivity |]. rewrite H. exact IH. Qed.

Lemma concat_tail_sizes (d : Dim) (rest : list DataArray) (acc c : DataArray)
    (j : nat) (S : Sizes) :
  fold_left (fun acc y => a <- acc ;; concat2 d a y) rest (Ok acc) = Ok c ->
  da_sizes acc = (d, j) :: S ->
  Forall (fun y => ~ In d (da_dims y)) rest ->
  da_sizes c = (d, j + List.length rest) :: S /\ Forall (fun y => da_sizes y = S) rest.
Proof.
  revert acc j. induction rest as [| y rest IH]; simpl; intros acc j H Ha Hr.
  - inversion H; subst. rewrite Nat.add_0_r. auto.
  - inversion Hr as [| ? ? Hy Hr']; subst.
    destruct (concat2 d acc y) as [a' | e] eqn:E2.
    + destruct (concat2_sizes _ _ _ _ _ _ E2 Ha Hy) as [Ha' Hy'].
      destruct (IH a' (j + 1) H Ha' Hr') as [Hc Hall].
      split; [rewrite Hc; f_equal; f_equal; lia | constructor; assumption].
    + rewrite fold_left_raise in H by reflexivity. discriminate.
Qed.

(** The extents of [sc.concat(xs, d)] when no input has the dimension
    [d]: a new outermost dimension with one slice per input. *)
Lemma concat_new_sizes (d : Dim) (x : DataArray) (rest : list DataArray) (c : DataArray) :
  concat (x :: rest) d = Ok c ->
  Forall (fun y => ~ In d (da_dims y)) (x :: rest) ->
  da_sizes c = (d, List.length (x :: rest)) :: da_sizes x.
Proof.
  unfold concat. intros H Hall. inversion Hall as [| ? ? Hx Hr]; subst.
  inv_bind H. pose proof (lift_sizes_new _ _ _ E Hx) as H0.
  destruct (concat_tail_sizes _ _ _ _ _ _ H H0 Hr) as [Hc _]. exact Hc.
Qed.

(** Appending one more band to a stack of [j] bands. *)
Lemma concat_append_sizes (d : Dim) (o band c : DataArray) (j : nat) (S : Sizes) :
  concat [o; band] d = Ok c ->
  da_sizes o = (d, j) :: S -> ~ In d (da_dims band) ->
  da_sizes c = (d, j + 1) :: S /\ da_sizes band = S.
Proof.
  unfold concat. intros H Ho Hb. inv_bind H. cbn [fold_left bind] in H.
  pose proof (lift_sizes_outer _ _ _ _ _ E Ho) as H0.
  exact (concat2_sizes _ _ _ _ _ _ H H0 Hb).
Qed.

(** Stacking the first two bands. *)
Lemma concat_pair_sizes (d : Dim) (o band c : DataArray) :
  concat [o; band] d = Ok c ->
  ~ In d (da_dims o) -> ~ In d (da_dims band) ->
  da_sizes c = (d, 2) :: da_sizes o /\ da_sizes band = da_sizes o.
Proof.
  unfold concat. intros H Ho Hb. inv_bind H. cbn [fold_left bind] in H.
  pose proof (lift_sizes_new _ _ _ E Ho) as H0.
  exact (concat2_sizes _ _ _ _ _ _ H H0 Hb).
Qed.

(* ================================================================== *)
(** ** The spectrum merger: extents *)


Lemma without_notin (r : list Dim) (s : Sizes) :
  (forall d, In d r -> ~ In d (dims_of s)) -> without r s = s.
Proof.
  unfold without. induction s as [| p s IH]; simpl; intros H; [reflexivity |].
  assert (E : mem (fst p) r = false).
  { apply mem_false. intros Hin. apply (H _ Hin). left. reflexivity. }
  rewrite E. simpl. f_equal. apply IH. intros d Hd Hin. apply (H d Hd). right. exact Hin.
Qed.

Lemma dims_without (r : list Dim) (s : Sizes) (d : Dim) :
  In d (dims_of (without r s)) -> In d (dims_of s) /\ ~ In d r.
Proof.
  unfold dims_of, without. rewrite in_map_iff. intros (p & <- & Hp).
  apply filter_In in Hp as [Hp Hm]. apply negb_true_iff, mem_false in Hm.
  split; [apply in_map; exact Hp | exact Hm].
Qed.

Lemma bins_concat_sizes (x y : DataArray) (r : list Dim) :
  bins_concat x r = Ok y -> da_sizes y = without r (da_sizes x).
Proof.
  unfold bins_concat, da_sizes. destruct (data x) as [v | s wv cells]; [discriminate |].
  intros H. inversion H; subst y. reflexivity.
Qed.

Lemma bin_by_sizes (x y : DataArray) (name : Dim) (edges : Var) :
  bin_by x name edges = Ok y ->
  da_sizes y = without [name] (da_sizes x) ++ [(name, List.length (values edges) - 1)].
Proof.
  unfold bin_by. intros H. inv_bind H.
  destruct (negb (String.eqb x0 name)); [discriminate |]. inv_bind H.
  assert (Hs : da_sizes x1 = without [name] (da_sizes x)).
  { destruct (has_dim name (da_sizes x)) eqn:Eh.
    - exact (bins_concat_sizes _ _ _ E0).
    - inversion E0; subst x1. symmetry. apply without_notin.
      intros d [<- | []]. apply has_dim_false. exact Eh. }
  unfold da_sizes in Hs at 1.
  destruct (data x1) as [v | s wv cells]; [discriminate |]. cbn [data_sizes] in Hs.
  destruct (Nat.ltb _ 2); [discriminate |].
  destruct (negb (sorted_edges _)); [discriminate |].
  destruct (negb (forallb _ cells)); [discriminate |].
  inversion H; subst y. unfold da_sizes. cbn [data data_sizes]. rewrite Hs. reflexivity.
Qed.

Lemma bin_sizes {E : External} (x y : DataArray) (name : Dim) (b : QBins) :
  bin x name b = Ok y ->
  exists nb, da_sizes y = without [name] (da_sizes x) ++ [(name, nb)].
Proof.
  unfold bin. destruct b as [n | edges]; intros H.
  - inv_bind H. eexists. exact (bin_by_sizes _ _ _ _ H).
  - eexists. exact (bin_by_sizes _ _ _ _ H).
Qed.

Lemma collapse_inv (v : Var) (keep : Dim) (ranges : list Var) :
  collapse v keep = Ok ranges ->
  exists n,
    size_of keep (sizes v) = Some n /\
    List.length ranges = volume (without [keep] (sizes v)) /\
    Forall (fun r => sizes r = [(keep, n)] /\ List.length (values r) = n) ranges.
Proof.
  unfold collapse. destruct (size_of keep (sizes v)) as [n |]; [| discriminate].
  intros H. inversion H; subst ranges; clear H. exists n.
  split; [reflexivity |]. split; [rewrite length_map, length_seq; reflexivity |].
  apply Forall_forall. intros r Hr. apply in_map_iff in Hr. destruct Hr as (k & <- & _).
  cbn [sizes values]. rewrite length_map, length_seq. auto.
Qed.

Lemma mapM_length {A B : Type} (f : A -> result B) (l : list A) (r : list B) :
  mapM f l = Ok r -> List.length r = List.length l.
Proof.
  revert r. induction l as [| a l IH]; simpl; intros r H.
  - inversion H. reflexivity.
  - inv_bind H. inversion H; subst r. simpl. f_equal. apply IH. exact E0.
Qed.

(** The invariant of the band loop. *)
Lemma events_band_loop_stacked (q_binned : DataArray) (d : Dim) (Sb : Sizes)
    (ranges : list Var) (out res : option DataArray) (j : nat) :
  (forall range b, In range ranges ->
     bin_by q_binned "wavelength" range = Ok b -> da_sizes (squeeze b) = Sb) ->
  ~ In d (dims_of Sb) ->
  stacked d Sb j out ->
  events_band_loop q_binned d ranges out = Ok res ->
  stacked d Sb (j + List.length ranges) res.
Proof.
  intros Hband Hd. revert out j.
  induction ranges as [| range rest IH]; simpl; intros out j Hout H.
  - inversion H; subst. rewrite Nat.add_0_r. exact Hout.
  - inv_bind H.
    assert (Hsb : da_sizes (squeeze x) = Sb)
      by (apply (Hband range x); [left; reflexivity | exact E]).
    assert (Hnb : ~ In d (da_dims (squeeze x))) by (unfold da_dims; rewrite Hsb; exact Hd).
    replace (j + S (List.length rest)) with ((j + 1) + List.length rest) by lia.
    apply (IH (fun r b Hr => Hband r b (or_intror Hr)) (Some x0)); [| exact H].
    unfold stacked in Hout |- *. destruct out as [o |].
    + destruct Hout as [[-> Ho] | [Hj Ho]].
      * right. split; [lia |].
        assert (Hno : ~ In d (da_dims o)) by (unfold da_dims; rewrite Ho; exact Hd).
        destruct (concat_pair_sizes _ _ _ _ E0 Hno Hnb) as [Hc _].
        rewrite Hc, Ho. reflexivity.
      * right. split; [lia |].
        destruct (concat_append_sizes _ _ _ _ _ _ E0 Ho Hnb) as [Hc _]. exact Hc.
    + subst j. inversion E0; subst x0. left. auto.
Qed.

Lemma squeezed_cons_keep (d : Dim) (n : nat) (s : Sizes) :
  n <> 1 -> squeezed_sizes ((d, n) :: s) = (d, n) :: squeezed_sizes s.
Proof.
  intros H. unfold squeezed_sizes. simpl.
  destruct (Nat.eqb_spec n 1); [contradiction | reflexivity].
Qed.


Lemma dims_squeezed (s : Sizes) (d : Dim) :
  In d (dims_of (squeezed_sizes s)) -> In d (dims_of s).
Proof.
  unfold dims_of. rewrite !in_map_iff. intros (p & <- & Hp).
  exists p. split; [reflexivity | exact (squeezed_sizes_In _ _ Hp)].
Qed.

Lemma set_pop_single {E : External} (d : Dim) : set_pop [d] = Ok d.
Proof. unfold set_pop. cbn [List.length]. rewrite Nat.mod_1_r. reflexivity. Qed.

Lemma set_pop_In {E : External} (s : list Dim) :
  s <> [] -> exists d, set_pop s = Ok d /\ In d s.
Proof.
  destruct s as [| a s]; [congruence |]. intros _. unfold set_pop.
  eexists. split; [reflexivity |]. apply nth_In. apply Nat.mod_upper_bound. discriminate.
Qed.





Lemma fold_bands_flat (l : list float) :
  fold_bands (Some (array1 "wavelength" l)) =
  Ok (Some (mkVar [("band", 1); ("wavelength", List.length l)] l None)).
Proof.
  unfold fold_bands, array1, ndim, fold, band_first. simpl.
  rewrite ?Nat.mul_1_r, ?Nat.add_0_r, Nat.eqb_refl. reflexivity.
Qed.


(* ================================================================== *)
(** ** The spectrum merger: inference of the band dimension *)

Lemma set_minus_In (d : Dim) (a b : list Dim) :
  In d (set_minus a b) -> In d a /\ ~ In d b.
Proof.
  unfold set_minus. intros H. apply filter_In in H as [Ha Hb].
  split; [exact Ha |]. apply mem_false. apply negb_true_iff. exact Hb.
Qed.

(** The event path with the band dimension [band_dim] that [pop] took:
    what the loop returns is a stack along [band_dim] of as many bands as the
    band coordinate has slices along [wavelength]. *)
Lemma events_merge_stacked_pop {E : External} (x : DataArray) (q_bins : QBins)
    (final_dims : list Dim) (bands : Var) (band_dim : Dim) (out : option DataArray) :
  set_pop (set_minus (dims bands) ["wavelength"]) = Ok band_dim ->
  band_dim <> "wavelength" ->
  (forall e, _to_q_bins q_bins = Ok e -> ~ In band_dim (fst e :: final_dims)) ->
  _events_merge_spectra x q_bins final_dims (Some bands) = Ok out ->
  exists Sb, ~ In band_dim (dims_of Sb) /\
             stacked band_dim Sb (volume (without ["wavelength"] (sizes bands))) out.
Proof.
  intros Hpop Hw Hfree H. unfold _events_merge_spectra in H.
  destruct (bins_concat x _) as [q_all | ?] eqn:Eall; [| discriminate]. cbn [bind] in H.
  destruct (_to_q_bins q_bins) as [edges | ?] eqn:Eedges; [| discriminate]. cbn [bind] in H.
  destruct (bin q_all (fst edges) (snd edges)) as [q_binned | ?] eqn:Ebin; [| discriminate].
  cbn [bind] in H. rewrite Hpop in H. cbn [bind] in H.
  destruct (collapse bands "wavelength") as [ranges | ?] eqn:Ecol; [| discriminate].
  cbn [bind] in H.
  destruct (collapse_inv _ _ _ Ecol) as (k & _ & Hlen & Hall).
  set (Sb := squeezed_sizes (without ["wavelength"] (da_sizes q_binned)
                             ++ [("wavelength", k - 1)])).
  exists Sb.
  assert (Hd : ~ In band_dim (dims_of Sb)).
  { intros Hin. apply dims_squeezed in Hin. unfold dims_of in Hin.
    rewrite map_app in Hin. apply in_app_or in Hin. destruct Hin as [Hin | Hin].
    - apply dims_without in Hin. destruct Hin as [Hin _].
      destruct (bin_sizes _ _ _ _ Ebin) as [nb Hq]. rewrite Hq in Hin.
      unfold dims_of in Hin. rewrite map_app in Hin. apply in_app_or in Hin.
      destruct Hin as [Hin | Hin].
      + apply dims_without in Hin. destruct Hin as [Hin _].
        rewrite (bins_concat_sizes _ _ _ Eall) in Hin.
        apply dims_without in Hin. destruct Hin as [Hin Hnot].
        apply (Hfree edges eq_refl). right.
        apply mem_false in Hnot. rewrite mem_set_minus in Hnot.
        apply mem_In in Hin. unfold da_dims in Hnot. rewrite Hin in Hnot. simpl in Hnot.
        apply negb_false_iff, mem_In in Hnot. exact Hnot.
      + simpl in Hin. destruct Hin as [Hin | []].
        apply (Hfree edges eq_refl). left. exact Hin.
    - simpl in Hin. destruct Hin as [Hin | []]. apply Hw. symmetry. exact Hin. }
  split; [exact Hd |].
  rewrite <- (Nat.add_0_l (volume _)), <- Hlen.
  apply (events_band_loop_stacked q_binned band_dim Sb ranges None out 0); auto.
  - intros range b Hr Hb. rewrite da_sizes_squeeze, (bin_by_sizes _ _ _ _ Hb).
    rewrite Forall_forall in Hall. destruct (Hall _ Hr) as [_ Hk]. rewrite Hk. reflexivity.
  - reflexivity.
Qed.

(** The same for the dense path. *)
Lemma dense_merge_stacked_pop {E : External} (x : DataArray) (q_bins : QBins)
    (final_dims : list Dim) (bands : Var) (band_dim : Dim) (o : DataArray)
    (e : Dim * QBins) (ranges : list Var) (xs : list DataArray) :
  set_pop (set_minus (dims bands) ["wavelength"]) = Ok band_dim ->
  _to_q_bins q_bins = Ok e ->
  collapse bands "wavelength" = Ok ranges ->
  mapM (dense_band x e (set_minus (da_dims x) final_dims)) ranges = Ok xs ->
  Forall (fun y => ~ In band_dim (da_dims y)) xs ->
  _dense_merge_spectra x q_bins final_dims (Some bands) = Ok o ->
  exists y rest, xs = y :: rest /\
    da_sizes o = (band_dim, volume (without ["wavelength"] (sizes bands))) :: da_sizes y.
Proof.
  intros Hpop He Hcol Hxs Hall H. unfold _dense_merge_spectra in H.
  rewrite He in H. cbn [bind] in H. rewrite Hpop in H. cbn [bind] in H.
  rewrite Hcol in H. cbn [bind] in H. rewrite Hxs in H. cbn [bind] in H.
  destruct (collapse_inv _ _ _ Hcol) as (k & _ & Hlen & _).
  pose proof (mapM_length _ _ _ Hxs) as Hl.
  destruct xs as [| y rest]; [discriminate |].
  exists y, rest. split; [reflexivity |].
  rewrite (concat_new_sizes _ _ _ _ H Hall), Hl, Hlen. reflexivity.
Qed.

(** C6 (as the code has it).  The band dimension is whatever [pop]
    takes from the set of the band coordinate's dimensions other than
    [wavelength]; the code does not count them.  With no such dimension both
    merge paths fail, with the [KeyError] of popping an empty set as soon as
    the steps before it are passed.  With at least one, [pop] returns one of
    them (the one, when there is exactly one) and that dimension is used:
    what the event path returns is the stack along it of as many bands as
    the band coordinate has slices along [wavelength], over all its other
    dimensions, and so is what the dense path returns (bands that do not
    themselves have a dimension of that name given).  With more than one
    other dimension nothing is raised on that account. *)
Theorem band_dimension_inference {E : External} (wavelength_bands : Var)
    (data_q : DataArray) (q_bins : QBins) (final_dims : list Dim) :
  let others := set_minus (dims wavelength_bands) ["wavelength"] in
  let slices := volume (without ["wavelength"] (sizes wavelength_bands)) in
  (others = [] ->
     is_ok (_events_merge_spectra data_q q_bins final_dims (Some wavelength_bands)) = false /\
     is_ok (_dense_merge_spectra data_q q_bins final_dims (Some wavelength_bands)) = false /\
     (forall e, _to_q_bins q_bins = Ok e ->
        _dense_merge_spectra data_q q_bins final_dims (Some wavelength_bands)
        = Raise KeyError) /\
     (forall q_all e q_binned,
        bins_concat data_q (set_minus (da_dims data_q) final_dims) = Ok q_all ->
        _to_q_bins q_bins = Ok e ->
        bin q_all (fst e) (snd e) = Ok q_binned ->
        _events_merge_spectra data_q q_bins final_dims (Some wavelength_bands)
        = Raise KeyError))
  /\
  (others <> [] ->
     exists band_dim,
       set_pop others = Ok band_dim /\ In band_dim others /\
       (forall d, others = [d] -> band_dim = d) /\
       (forall out e,
          _events_merge_spectra data_q q_bins final_dims (Some wavelength_bands) = Ok out ->
          _to_q_bins q_bins = Ok e -> ~ In band_dim (fst e :: final_dims) ->
          exists Sb, ~ In band_dim (dims_of Sb) /\ stacked band_dim Sb slices out) /\
       (forall o e ranges xs,
          _dense_merge_spectra data_q q_bins final_dims (Some wavelength_bands) = Ok o ->
          _to_q_bins q_bins = Ok e ->
          collapse wavelength_bands "wavelength" = Ok ranges ->
          mapM (dense_band data_q e (set_minus (da_dims data_q) final_dims)) ranges
          = Ok xs ->
          Forall (fun y => ~ In band_dim (da_dims y)) xs ->
          exists y rest, xs = y :: rest /\
                         da_sizes o = (band_dim, slices) :: da_sizes y)).
Proof.
  cbv zeta. split.
  - intros Hnil. unfold _events_merge_spectra, _dense_merge_spectra. rewrite Hnil.
    split; [| split; [| split]].
    + destruct (bins_concat _ _); [| reflexivity]. cbn [bind].
      destruct (_to_q_bins q_bins); [| reflexivity]. cbn [bind].
      destruct (bin _ _ _); reflexivity.
    + destruct (_to_q_bins q_bins); reflexivity.
    + intros e ->. reflexivity.
    + intros q_all e q_binned -> ->. cbn [bind]. intros ->. reflexivity.
  - intros Hne. destruct (set_pop_In _ Hne) as (band_dim & Hpop & Hin).
    exists band_dim. split; [exact Hpop |]. split; [exact Hin |].
    split; [| split].
    + intros d Hd. rewrite Hd in Hin. destruct Hin as [<- | []]. reflexivity.
    + intros out e Hout He Hfree.
      apply (events_merge_stacked_pop data_q q_bins final_dims wavelength_bands band_dim out
               Hpop).
      * intros Hw. apply set_minus_In in Hin. apply (proj2 Hin). left. symmetry. exact Hw.
      * intros e' He'. rewrite He in He'. inversion He'; subst e'. exact Hfree.
      * exact Hout.
    + intros o e ranges xs Ho He Hcol Hxs Hall.
      exact (dense_merge_stacked_pop data_q q_bins final_dims wavelength_bands band_dim o
               e ranges xs Hpop He Hcol Hxs Hall Ho).
Qed.

Lemma band_dimension_inference_witness :
  _events_merge_spectra pixels (QEdges q_edges) ["Q"] (Some (scalar 1)) = Raise KeyError
  /\ exists band_dim out Sb,
       set_pop (E := reference_ops) ["a"; "b"] = Ok band_dim /\
       _events_merge_spectra pixels (QEdges q_edges) ["Q"] (Some grid_bands) = Ok (Some out) /\
       da_sizes out = (band_dim, 2) :: Sb.
Proof.
  pose proof (band_dimension_inference (E := reference_ops) (scalar 1)
                pixels (QEdges q_edges) ["Q"]) as H0.
  pose proof (band_dimension_inference (E := reference_ops) grid_bands
                pixels (QEdges q_edges) ["Q"]) as H1.
  cbv zeta in H0, H1. split.
  - destruct (proj1 H0 eq_refl) as (_ & _ & _ & Hev).
    exact (Hev _ _ _ eq_refl eq_refl eq_refl).
  - destruct (proj2 H1 ltac:(discriminate)) as (band_dim & Hpop & Hin & _ & Hev & _).
    assert (Hrun : exists out,
               _events_merge_spectra pixels (QEdges q_edges) ["Q"] (Some grid_bands)
               = Ok (Some out))
      by (eexists; vm_compute; reflexivity).
    destruct Hrun as [out Hout].
    destruct (Hev (Some out) ("Q", QEdges q_edges) Hout eq_refl) as (Sb & _ & Hst).
    + destruct Hin as [<- | [<- | []]]; simpl; intuition discriminate.
    + exists band_dim, out, Sb. split; [exact Hpop |]. split; [exact Hout |].
      destruct Hst as [[Hone _] | [_ Hs]]; [vm_compute in Hone; discriminate | exact Hs].
Defined.

(** More than one dimension besides [wavelength] in the band coordinate
    is not fatal: with the bands laid out over two dimensions [a] and [b]
    the merge of event data returns a result. *)
Lemma band_ambiguity_not_fatal :
  ~ (forall (E : External) (x : DataArray) (q_bins : QBins) (bands : Var)
            (final_dims : option (list Dim)),
       List.length (set_minus (dims bands) ["wavelength"]) <> 1 ->
       is_ok (merge_spectra x q_bins (Some bands) final_dims) = false).
Proof.
  intros H.
  specialize (H reference_ops pixels (QEdges q_edges) grid_bands None).
  vm_compute in H. specialize (H ltac:(discriminate)). discriminate.
Qed.

(* ================================================================== *)
(** ** The spectrum merger: a single band over the full range *)

Lemma unit_dims_app (a b : Sizes) : unit_dims (a ++ b) = unit_dims a ++ unit_dims b.
Proof. unfold unit_dims, dims_of. rewrite filter_app, map_app. reflexivity. Qed.

Lemma unit_dims_squeezed (s : Sizes) : unit_dims (squeezed_sizes s) = [].
Proof.
  unfold unit_dims, squeezed_sizes. induction s as [| p s IH]; simpl; [reflexivity |].
  destruct (Nat.eqb (snd p) 1) eqn:E1; simpl; [exact IH |]. rewrite E1. exact IH.
Qed.

Lemma mem_app (d : Dim) (a b : list Dim) : mem d (a ++ b) = mem d a || mem d b.
Proof. unfold mem. apply existsb_app. Qed.

Lemma drop_unit_nil (s : Sizes) : drop_unit [] s = s.
Proof.
  unfold drop_unit. induction s as [| p s IH]; simpl; [reflexivity |]. f_equal. exact IH.
Qed.

Lemma depends_on_nil (s : Sizes) : depends_on [] s = false.
Proof. unfold depends_on. induction s as [| p s IH]; simpl; auto. Qed.

Lemma drop_unit_extra (u : list Dim) (w : Dim) (s : Sizes) :
  has_dim w s = false -> drop_unit (u ++ [w]) s = drop_unit u s.
Proof.
  intros H. unfold drop_unit. apply filter_ext_in. intros p Hp.
  rewrite mem_app. simpl. rewrite orb_false_r.
  destruct (String.eqb_spec (fst p) w) as [Heq | Hne]; [| rewrite orb_false_r; reflexivity].
  exfalso. apply has_dim_false in H. apply H. rewrite <- Heq. apply in_map. exact Hp.
Qed.

Lemma depends_on_extra (u : list Dim) (w : Dim) (s : Sizes) :
  has_dim w s = false -> depends_on (u ++ [w]) s = depends_on u s.
Proof.
  intros H. unfold depends_on.
  induction s as [| p s IH]; simpl; [reflexivity |].
  unfold has_dim in H. simpl in H. apply orb_false_iff in H as [Hp Hs].
  rewrite mem_app, IH by exact Hs. simpl. rewrite orb_false_r.
  rewrite String.eqb_sym, Hp, orb_false_r. reflexivity.
Qed.

Lemma squeeze_coord_extra (u : list Dim) (w : Dim) (c : Coord) :
  has_dim w (sizes (c_var c)) = false -> squeeze_coord (u ++ [w]) c = squeeze_coord u c.
Proof.
  intros H. unfold squeeze_coord.
  rewrite (drop_unit_extra _ _ _ H), (depends_on_extra _ _ _ H). reflexivity.
Qed.

Lemma squeeze_mask_extra (u : list Dim) (w : Dim) (m : Mask) :
  has_dim w (m_sizes m) = false -> squeeze_mask (u ++ [w]) m = squeeze_mask u m.
Proof. intros H. unfold squeeze_mask. rewrite (drop_unit_extra _ _ _ H). reflexivity. Qed.

Lemma map_assoc_set {A B : Type} (f : A -> B) (k : string) (v : A) (l : list (string * A)) :
  map (fun p => (fst p, f (snd p))) (assoc_set k v l) =
  assoc_set k (f v) (map (fun p => (fst p, f (snd p))) l).
Proof.
  induction l as [| [k' v'] l IH]; simpl; [reflexivity |].
  destruct (String.eqb k k'); simpl; [reflexivity | rewrite IH; reflexivity].
Qed.

Lemma map_snd_ext_Forall {A B : Type} (f g : A -> B) (P : A -> Prop) (l : list (string * A)) :
  (forall a, P a -> f a = g a) -> Forall (fun p => P (snd p)) l ->
  map (fun p => (fst p, f (snd p))) l = map (fun p => (fst p, g (snd p))) l.
Proof.
  intros H. induction 1 as [| p l Hp _ IH]; simpl; [reflexivity |].
  rewrite (H _ Hp), IH. reflexivity.
Qed.

Lemma map_snd_id {A : Type} (f : A -> A) (l : list (string * A)) :
  (forall a, f a = a) -> map (fun p => (fst p, f (snd p))) l = l.
Proof.
  intros H. induction l as [| [k v] l IH]; simpl; [reflexivity |]. rewrite H, IH. reflexivity.
Qed.

(** Squeezing an array without dimensions of extent 1 changes nothing. *)
Lemma squeeze_fixed (x : DataArray) : unit_dims (da_sizes x) = [] -> squeeze x = x.
Proof.
  intros H. unfold squeeze. rewrite H. destruct x as [dt cs ms]. cbn [data coords masks].
  f_equal.
  - destruct dt as [[s v va] | s wv c]; cbn [squeeze_data sizes values variances];
      rewrite drop_unit_nil; reflexivity.
  - apply map_snd_id. intros [[s v va] al]. unfold squeeze_coord.
    cbn [c_var c_aligned sizes values variances].
    rewrite drop_unit_nil, depends_on_nil, andb_true_r. reflexivity.
  - apply map_snd_id. intros [s v]. unfold squeeze_mask. cbn [m_sizes m_values].
    rewrite drop_unit_nil. reflexivity.
Qed.

Lemma drop_unit_app (u : list Dim) (a b : Sizes) :
  drop_unit u (a ++ b) = drop_unit u a ++ drop_unit u b.
Proof. unfold drop_unit. apply filter_app. Qed.

Lemma mem_last (u : list Dim) (w : Dim) : mem w (u ++ [w]) = true.
Proof. rewrite mem_app. unfold mem at 2. simpl. rewrite String.eqb_refl. apply orb_true_r. Qed.

Lemma drop_unit_band (u : list Dim) (w : Dim) : drop_unit (u ++ [w]) [(w, 1)] = [].
Proof. unfold drop_unit. cbn [filter fst snd]. rewrite mem_last. reflexivity. Qed.

Lemma squeeze_coord_band (u : list Dim) (lo hi : float) :
  squeeze_coord (u ++ ["wavelength"]) (mkCoord (band_edges lo hi) true)
  = mkCoord (band_edges lo hi) false.
Proof.
  unfold squeeze_coord, band_edges, array1, drop_unit, depends_on.
  cbn [c_var c_aligned sizes values variances List.length filter existsb fst snd].
  rewrite mem_last. reflexivity.
Qed.

(** The band result of a single band that holds every event: after the
    squeezes it is the squeezed Q-binned array with the band edges left on it
    as an unaligned coordinate. *)
Lemma squeeze_band (X : DataArray) (s : Sizes) (wv : bool) (cells : list (list Event))
    (lo hi : float) :
  data X = Binned s wv cells -> free_of "wavelength" X ->
  squeeze (squeeze (mkDataArray (Binned (s ++ [("wavelength", 1)]) wv cells)
                      (assoc_set "wavelength" (mkCoord (band_edges lo hi) true) (coords X))
                      (masks X)))
  = with_band_edges lo hi (squeeze X).
Proof.
  intros Hd (Hs & Hc & Hm).
  unfold da_dims, da_sizes in Hs. rewrite Hd in Hs. cbn [data_sizes] in Hs.
  apply has_dim_false in Hs.
  assert (Hfirst :
    squeeze (mkDataArray (Binned (s ++ [("wavelength", 1)]) wv cells)
               (assoc_set "wavelength" (mkCoord (band_edges lo hi) true) (coords X))
               (masks X))
    = with_band_edges lo hi (squeeze X)).
  { unfold squeeze, with_band_edges, da_sizes. cbn [data data_sizes coords masks].
    rewrite Hd. cbn [data_sizes squeeze_data]. rewrite unit_dims_app.
    change (unit_dims [("wavelength", 1)]) with ["wavelength"].
    f_equal.
    - f_equal. rewrite drop_unit_app, drop_unit_band, app_nil_r.
      apply drop_unit_extra. exact Hs.
    - rewrite (map_assoc_set (squeeze_coord (unit_dims s ++ ["wavelength"]))).
      rewrite squeeze_coord_band. f_equal.
      apply (map_snd_ext_Forall _ _ (fun c => has_dim "wavelength" (sizes (c_var c)) = false));
        [intros c; apply squeeze_coord_extra | exact Hc].
    - apply (map_snd_ext_Forall _ _ (fun m => has_dim "wavelength" (m_sizes m) = false));
        [intros m; apply squeeze_mask_extra | exact Hm]. }
  rewrite Hfirst. apply squeeze_fixed.
  unfold with_band_edges, da_sizes. cbn [data].
  change (data_sizes (data (squeeze X))) with (da_sizes (squeeze X)).
  rewrite da_sizes_squeeze. apply unit_dims_squeezed.
Qed.

Lemma filter_all {A : Type} (f : A -> bool) (l : list A) :
  Forall (fun a => f a = true) l -> filter f l = l.
Proof. induction 1 as [| a l Ha _ IH]; simpl; [reflexivity |]. rewrite Ha, IH. reflexivity. Qed.

Lemma Forall_filter_keep {A : Type} (P : A -> Prop) (f : A -> bool) (l : list A) :
  Forall P l -> Forall P (filter f l).
Proof.
  intros H. apply Forall_forall. intros a Ha. apply filter_In in Ha as [Ha _].
  rewrite Forall_forall in H. exact (H a Ha).
Qed.

Lemma Forall_nth_cell {A : Type} (P : A -> Prop) (cells : list (list A)) (i : nat) :
  Forall (Forall P) cells -> Forall P (nth i cells []).
Proof.
  intros H. destruct (Nat.lt_ge_cases i (List.length cells)) as [Hlt | Hge].
  - rewrite Forall_forall in H. apply H. apply nth_In. exact Hlt.
  - rewrite nth_overflow by exact Hge. constructor.
Qed.

Lemma split_cell_band (lo hi : float) (c : list Event) :
  Forall (in_band lo hi) c -> split_cell "wavelength" [lo; hi] c = [c].
Proof. intros H. unfold split_cell. cbn. rewrite (filter_all _ _ H). reflexivity. Qed.

Lemma flat_map_split_band (lo hi : float) (cells : list (list Event)) :
  Forall (Forall (in_band lo hi)) cells ->
  flat_map (split_cell "wavelength" [lo; hi]) cells = cells.
Proof.
  induction 1 as [| c cells Hc _ IH]; cbn [flat_map]; [reflexivity |].
  rewrite (split_cell_band _ _ _ Hc), IH. reflexivity.
Qed.

Lemma in_band_has_coord (lo hi : float) (e : Event) :
  in_band lo hi e -> has_coord "wavelength" e = true.
Proof.
  unfold in_band, event_in, has_coord.
  destruct (assoc_get "wavelength" (ev_coords e)); [reflexivity | discriminate].
Qed.

Lemma in_band_all_have_coord (lo hi : float) (cells : list (list Event)) :
  Forall (Forall (in_band lo hi)) cells ->
  forallb (forallb (has_coord "wavelength")) cells = true.
Proof.
  intros H. apply forallb_forall. intros c Hc. apply forallb_forall. intros e He.
  rewrite Forall_forall in H. specialize (H c Hc). rewrite Forall_forall in H.
  exact (in_band_has_coord lo hi e (H e He)).
Qed.

(** Binning by a band that holds every event adds a wavelength dimension
    with one bin and leaves the event lists as they are. *)
Lemma bin_by_band (x : DataArray) (s : Sizes) (wv : bool) (cells : list (list Event))
    (lo hi : float) :
  data x = Binned s wv cells -> has_dim "wavelength" s = false ->
  PrimFloat.leb lo hi = true -> Forall (Forall (in_band lo hi)) cells ->
  bin_by x "wavelength" (band_edges lo hi) =
  Ok (mkDataArray (Binned (s ++ [("wavelength", 1)]) wv cells)
        (assoc_set "wavelength" (mkCoord (band_edges lo hi) true) (coords x))
        (masks x)).
Proof.
  intros Hd Hs Hle Hall. unfold bin_by, band_edges, array1, dim, da_sizes.
  cbn [sizes values bind List.length]. rewrite String.eqb_refl. cbn [negb].
  rewrite Hd. cbn [data_sizes]. rewrite Hs. cbn [bind]. rewrite Hd.
  cbn [Nat.ltb Nat.leb sorted_edges]. rewrite Hle. cbn [andb negb].
  rewrite (in_band_all_have_coord _ _ _ Hall). cbn [negb].
  rewrite (flat_map_split_band _ _ _ Hall). reflexivity.
Qed.

Lemma bins_concat_events (P : Event -> Prop) (x y : DataArray) (r : list Dim) :
  all_events P x -> bins_concat x r = Ok y -> all_events P y.
Proof.
  unfold all_events, bins_concat. destruct (data x) as [v | s wv cells]; [discriminate |].
  intros H Hy. inversion Hy; subst y. cbn [data].
  apply Forall_forall. intros c Hc. apply in_map_iff in Hc. destruct Hc as (k & <- & _).
  apply Forall_flat_map. apply Forall_forall. intros j _.
  destruct (cell_masked _ _ _); [constructor | apply Forall_nth_cell, H].
Qed.

Lemma bin_by_events (P : Event -> Prop) (x y : DataArray) (name : Dim) (edges : Var) :
  all_events P x -> bin_by x name edges = Ok y ->
  all_events P y /\ has_bins y = true.
Proof.
  unfold bin_by. intros H Hy. inv_bind Hy.
  destruct (negb (String.eqb x0 name)); [discriminate |]. inv_bind Hy.
  assert (H1 : all_events P x1).
  { destruct (has_dim name (da_sizes x)).
    - exact (bins_concat_events P _ _ _ H E0).
    - inversion E0; subst x1. exact H. }
  unfold all_events in H1. destruct (data x1) as [v | s wv cells]; [discriminate |].
  destruct (Nat.ltb _ 2); [discriminate |].
  destruct (negb (sorted_edges _)); [discriminate |].
  destruct (negb (forallb _ cells)); [discriminate |].
  inversion Hy; subst y. unfold all_events, has_bins. cbn [data]. split; [| reflexivity].
  apply Forall_flat_map. apply Forall_forall. intros c Hc.
  unfold split_cell. apply Forall_forall. intros c' Hc'.
  apply in_map_iff in Hc'. destruct Hc' as (i & <- & _).
  apply Forall_filter_keep. rewrite Forall_forall in H1. exact (H1 c Hc).
Qed.

Lemma bin_events {E : External} (P : Event -> Prop) (x y : DataArray) (name : Dim) (b : QBins) :
  all_events P x -> bin x name b = Ok y -> all_events P y /\ has_bins y = true.
Proof.
  unfold bin. destruct b as [n | edges]; intros H Hy.
  - inv_bind Hy. exact (bin_by_events P _ _ _ _ H Hy).
  - exact (bin_by_events P _ _ _ _ H Hy).
Qed.

Lemma subset_In (a b : list Dim) (d : Dim) : subset a b = true -> In d a -> In d b.
Proof.
  unfold subset. intros H Hd. rewrite forallb_forall in H. apply mem_In. exact (H d Hd).
Qed.

Lemma depends_on_In (r : list Dim) (s : Sizes) (d : Dim) :
  In d r -> In d (dims_of s) -> depends_on r s = true.
Proof.
  intros Hr Hs. unfold depends_on. apply existsb_exists.
  unfold dims_of in Hs. apply in_map_iff in Hs. destruct Hs as (p & <- & Hp).
  exists p. split; [exact Hp | apply mem_In; exact Hr].
Qed.

Lemma bins_concat_parts (x y : DataArray) (r : list Dim) :
  bins_concat x r = Ok y ->
  da_sizes y = without r (da_sizes x) /\
  coords y = filter (fun nc => negb (depends_on r (sizes (c_var (snd nc))))) (coords x) /\
  masks y = filter (fun nm => negb (depends_on r (m_sizes (snd nm)))) (masks x).
Proof.
  intros H. split; [exact (bins_concat_sizes _ _ _ H) |].
  unfold bins_concat in H. destruct (data x) as [v | s wv cells]; [discriminate |].
  inversion H; subst y. split; reflexivity.
Qed.

Lemma bin_by_parts (x y : DataArray) (name : Dim) (edges : Var) :
  bin_by x name edges = Ok y ->
  exists x1 n,
    (x1 = x \/ bins_concat x [name] = Ok x1) /\
    sizes edges = [(name, n)] /\
    coords y = assoc_set name (mkCoord edges true) (coords x1) /\
    masks y = masks x1.
Proof.
  unfold bin_by. intros Hy. inv_bind Hy.
  destruct (String.eqb x0 name) eqn:En; [| discriminate]. cbn [negb] in Hy.
  apply String.eqb_eq in En. inv_bind Hy. exists x1.
  assert (Hn : exists n, sizes edges = [(name, n)]).
  { unfold dim in E. destruct (sizes edges) as [| [d n] [| ? ?]]; try discriminate.
    inversion E; subst. exists n. reflexivity. }
  destruct Hn as [n Hn]. exists n.
  assert (H1 : x1 = x \/ bins_concat x [name] = Ok x1).
  { destruct (has_dim name (da_sizes x)); [right; exact E0 | left; inversion E0; reflexivity]. }
  destruct (data x1) as [v | s wv cells]; [discriminate |].
  destruct (Nat.ltb _ 2); [discriminate |].
  destruct (negb (sorted_edges _)); [discriminate |].
  destruct (negb (forallb _ cells)); [discriminate |].
  inversion Hy; subst y. cbn [coords masks]. auto.
Qed.

(** After the concatenation over everything that is not a final dimension
    nothing depends on a dimension [w] outside the final dimensions. *)
Lemma bins_concat_free_of (x y : DataArray) (fd : list Dim) (w : Dim) :
  dims_within x -> ~ In w fd ->
  bins_concat x (set_minus (da_dims x) fd) = Ok y -> free_of w y.
Proof.
  intros [Hc Hm] Hw Hy.
  assert (Hr : In w (da_dims x) -> In w (set_minus (da_dims x) fd)).
  { intros Hin. apply mem_In. rewrite mem_set_minus.
    apply mem_In in Hin. rewrite Hin. apply mem_false in Hw. rewrite Hw. reflexivity. }
  destruct (bins_concat_parts _ _ _ Hy) as (Hs & Hcs & Hms).
  unfold free_of, da_dims. rewrite Hs, Hcs, Hms. split; [| split].
  - intros Hin. apply dims_without in Hin.
    destruct Hin as [Hin Hnot]. apply Hnot, Hr. exact Hin.
  - apply Forall_forall. intros nc Hnc. apply filter_In in Hnc as [Hnc Hdep].
    apply has_dim_false. intros Hin. apply negb_true_iff in Hdep.
    rewrite Forall_forall in Hc. specialize (Hc nc Hnc).
    rewrite (depends_on_In _ _ w (Hr (subset_In _ _ _ Hc Hin)) Hin) in Hdep. discriminate.
  - apply Forall_forall. intros nm Hnm. apply filter_In in Hnm as [Hnm Hdep].
    apply has_dim_false. intros Hin. apply negb_true_iff in Hdep.
    rewrite Forall_forall in Hm. specialize (Hm nm Hnm).
    rewrite (depends_on_In _ _ w (Hr (subset_In _ _ _ Hm Hin)) Hin) in Hdep. discriminate.
Qed.

Lemma bins_concat_keeps_free (x y : DataArray) (r : list Dim) (w : Dim) :
  free_of w x -> bins_concat x r = Ok y -> free_of w y.
Proof.
  intros (Hs & Hc & Hm) Hy.
  destruct (bins_concat_parts _ _ _ Hy) as (Hsz & Hcs & Hms).
  unfold free_of, da_dims. rewrite Hsz, Hcs, Hms. split; [| split].
  - intros Hin. apply dims_without in Hin. tauto.
  - apply Forall_forall. intros nc Hnc. apply filter_In in Hnc as [Hnc _].
    rewrite Forall_forall in Hc. exact (Hc nc Hnc).
  - apply Forall_forall. intros nm Hnm. apply filter_In in Hnm as [Hnm _].
    rewrite Forall_forall in Hm. exact (Hm nm Hnm).
Qed.

Lemma Forall_assoc_set {A : Type} (P : string * A -> Prop) (k : string) (v : A)
    (l : list (string * A)) :
  P (k, v) -> Forall P l -> Forall P (assoc_set k v l).
Proof.
  intros Hv. induction 1 as [| [k' v'] l Hp Hl IH]; simpl; [repeat constructor; exact Hv |].
  destruct (String.eqb k k'); constructor; assumption.
Qed.

Lemma bin_by_keeps_free (x y : DataArray) (name : Dim) (edges : Var) (w : Dim) :
  free_of w x -> name <> w -> bin_by x name edges = Ok y -> free_of w y.
Proof.
  intros Hx Hne Hy. pose proof (bin_by_sizes _ _ _ _ Hy) as Hsz.
  destruct (bin_by_parts _ _ _ _ Hy) as (x1 & n & H1 & He & Hcs & Hms).
  assert (Hx1 : free_of w x1).
  { destruct H1 as [-> | H1]; [exact Hx | exact (bins_concat_keeps_free _ _ _ _ Hx H1)]. }
  destruct Hx1 as (_ & Hc & Hm). destruct Hx as (Hs & _).
  unfold free_of, da_dims. rewrite Hsz, Hcs, Hms. split; [| split].
  - unfold dims_of. rewrite map_app. intros Hin.
    apply in_app_or in Hin. destruct Hin as [Hin | [Hin | []]].
    + apply dims_without in Hin. tauto.
    + simpl in Hin. congruence.
  - apply Forall_assoc_set; [| exact Hc]. cbn [snd c_var]. rewrite He.
    unfold has_dim, mem. simpl.
    destruct (String.eqb_spec w name); [congruence | reflexivity].
  - exact Hm.
Qed.

Lemma bin_keeps_free {E : External} (x y : DataArray) (name : Dim) (b : QBins) (w : Dim) :
  free_of w x -> name <> w -> bin x name b = Ok y -> free_of w y.
Proof.
  unfold bin. destruct b as [n | edges]; intros Hx Hne Hy.
  - inv_bind Hy. exact (bin_by_keeps_free _ _ _ _ _ Hx Hne Hy).
  - exact (bin_by_keeps_free _ _ _ _ _ Hx Hne Hy).
Qed.

Lemma collapse_flat (lo hi : float) :
  collapse (mkVar [("band", 1); ("wavelength", 2)] [lo; hi] None) "wavelength"
  = Ok [band_edges lo hi].
Proof. reflexivity. Qed.

Lemma drop_unit_extra_cons (u : list Dim) (w : Dim) (s : Sizes) :
  has_dim w s = false -> drop_unit (w :: u) s = drop_unit u s.
Proof.
  intros H. unfold drop_unit. apply filter_ext_in. intros p Hp.
  unfold mem. simpl.
  destruct (String.eqb_spec (fst p) w) as [Heq | Hne]; [| reflexivity].
  exfalso. apply has_dim_false in H. apply H. rewrite <- Heq. apply in_map. exact Hp.
Qed.

Lemma depends_on_extra_cons (u : list Dim) (w : Dim) (s : Sizes) :
  has_dim w s = false -> depends_on (w :: u) s = depends_on u s.
Proof.
  intros H. unfold depends_on.
  induction s as [| p s IH]; cbn [existsb]; [reflexivity |].
  unfold has_dim, dims_of, mem in H. cbn [map existsb] in H.
  apply orb_false_iff in H as [Hp Hs]. f_equal.
  - unfold mem. cbn [existsb]. rewrite String.eqb_sym, Hp. reflexivity.
  - apply IH. exact Hs.
Qed.

Lemma lift_new (d : Dim) (x : DataArray) :
  ~ In d (da_dims x) ->
  lift d x =
  Ok (mkDataArray
        (match data x with
         | Dense v => Dense (mkVar ((d, 1) :: sizes v) (values v) (variances v))
         | Binned s wv c => Binned ((d, 1) :: s) wv c
         end)
        (coords x) (masks x)).
Proof.
  unfold lift, da_dims, da_sizes. intros Hx.
  assert (Hn : size_of d (data_sizes (data x)) = None) by (apply size_of_None, Hx).
  destruct (data x) as [v | s wv c]; cbn [data_sizes] in *.
  - rewrite (as_slab_new d _ _ (values v) Hx Hn). cbn [bind fst snd].
    destruct (variances v) as [l |]; [| reflexivity].
    rewrite (as_slab_new d _ _ l Hx Hn). reflexivity.
  - rewrite (as_slab_new d _ _ c Hx Hn). reflexivity.
Qed.

(** A new outermost dimension of extent 1 on an array that does not know
    the label disappears in the squeeze. *)
Lemma squeeze_lift (d : Dim) (x y : DataArray) :
  free_of d x -> lift d x = Ok y -> squeeze y = squeeze x.
Proof.
  intros (Hs & Hc & Hm) Hy. rewrite (lift_new d x Hs) in Hy. inversion Hy; subst y; clear Hy.
  unfold da_dims, da_sizes in Hs. apply has_dim_false in Hs.
  unfold squeeze, da_sizes. cbn [data coords masks].
  assert (Hu : unit_dims (data_sizes
                 (match data x with
                  | Dense v => Dense (mkVar ((d, 1) :: sizes v) (values v) (variances v))
                  | Binned s wv c => Binned ((d, 1) :: s) wv c
                  end)) = d :: unit_dims (data_sizes (data x)))
    by (destruct (data x); reflexivity).
  rewrite Hu. set (u := unit_dims (data_sizes (data x))). f_equal.
  - destruct (data x) as [v | s wv c]; cbn [squeeze_data sizes values variances data_sizes] in *.
    + f_equal. f_equal. unfold drop_unit at 1. cbn [filter fst snd].
      unfold mem at 1. cbn [existsb]. rewrite String.eqb_refl. cbn [orb andb Nat.eqb negb].
      exact (drop_unit_extra_cons u d _ Hs).
    + f_equal. unfold drop_unit at 1. cbn [filter fst snd].
      unfold mem at 1. cbn [existsb]. rewrite String.eqb_refl. cbn [orb andb Nat.eqb negb].
      exact (drop_unit_extra_cons u d _ Hs).
  - apply (map_snd_ext_Forall _ _ (fun c => has_dim d (sizes (c_var c)) = false)); [| exact Hc].
    intros c H. unfold squeeze_coord.
    rewrite (drop_unit_extra_cons _ _ _ H), (depends_on_extra_cons _ _ _ H). reflexivity.
  - apply (map_snd_ext_Forall _ _ (fun m => has_dim d (m_sizes m) = false)); [| exact Hm].
    intros m H. unfold squeeze_mask. rewrite (drop_unit_extra_cons _ _ _ H). reflexivity.
Qed.

Lemma bin_binned {E : External} (x y : DataArray) (name : Dim) (b : QBins) :
  bin x name b = Ok y -> exists s wv cells, data y = Binned s wv cells.
Proof.
  intros H.
  assert (Hb : has_bins y = true).
  { destruct (bin_events (fun _ => True) x y name b) as [_ Hb]; auto.
    unfold all_events. destruct (data x); [exact I |].
    apply Forall_forall. intros c _. apply Forall_forall. intros e _. exact I. }
  unfold has_bins in Hb. destruct (data y) as [v | s wv cells]; [discriminate |]. eauto.
Qed.

(** C5 (as the code has it).  Let the band be the two edges [lo, hi].
    - Event data whose events all lie in [lo, hi) (final dimensions and Q
      dimension other than [wavelength]): merging with the band returns what
      merging without a band returns, with the band edges attached to it as
      an unaligned coordinate [wavelength]; the dimensions, the event lists,
      the masks and all other coordinates are the same, and the two calls
      fail together.
    - Dense data of which the label slice [lo:hi] along [wavelength] is the
      whole array (and whose merged histogram does not know the label
      [band]): the two calls return the same. *)
Theorem merge_single_band_covers {E : External} (x : DataArray) (q_bins : QBins)
    (final_dims : option (list Dim)) (lo hi : float) :
  let fd := match final_dims with Some f => f | None => ["Q"] end in
  (has_bins x = true ->
   dims_within x -> all_events (in_band lo hi) x -> PrimFloat.leb lo hi = true ->
   ~ In "wavelength" fd ->
   (forall e, _to_q_bins q_bins = Ok e -> fst e <> "wavelength") ->
   merge_spectra x q_bins (Some (band_edges lo hi)) final_dims =
   (r <- merge_spectra x q_bins None final_dims ;; Ok (with_band_edges lo hi r)))
  /\
  (has_bins x = false ->
   slice_range x "wavelength" lo hi = Ok x ->
   (forall y, _dense_merge_spectra x q_bins fd None = Ok y -> free_of "band" y) ->
   merge_spectra x q_bins (Some (band_edges lo hi)) final_dims =
   merge_spectra x q_bins None final_dims).
Proof.
  cbv zeta. set (fd := match final_dims with Some f => f | None => ["Q"] end).
  split.
  - intros Hb Hwithin Hev Hle Hw Hq. unfold merge_spectra. fold fd.
    unfold band_edges at 1. rewrite fold_bands_flat. cbn [fold_bands bind List.length].
    rewrite Hb. unfold _events_merge_spectra.
    destruct (bins_concat x (set_minus (da_dims x) fd)) as [q_all | e] eqn:Eall;
      [| reflexivity]. cbn [bind].
    destruct (_to_q_bins q_bins) as [edges | e] eqn:Ee; [| reflexivity]. cbn [bind].
    destruct (bin q_all (fst edges) (snd edges)) as [q_binned | e] eqn:Eb; [| reflexivity].
    cbn [bind].
    change (set_minus (dims (mkVar [("band", 1); ("wavelength", 2)] [lo; hi] None))
                      ["wavelength"]) with ["band"].
    rewrite set_pop_single. cbn [bind]. rewrite collapse_flat. cbn [bind events_band_loop].
    assert (Hfree : free_of "wavelength" q_binned).
    { apply (bin_keeps_free q_all q_binned (fst edges) (snd edges) "wavelength");
        [| exact (Hq edges eq_refl) | exact Eb].
      exact (bins_concat_free_of _ _ _ _ Hwithin Hw Eall). }
    assert (Hall : all_events (in_band lo hi) q_binned).
    { apply (bin_events _ q_all q_binned (fst edges) (snd edges)); [| exact Eb].
      exact (bins_concat_events _ _ _ _ Hev Eall). }
    destruct (bin_binned _ _ _ _ Eb) as (s & wv & cells & Hd).
    unfold all_events in Hall. rewrite Hd in Hall.
    assert (Hs : has_dim "wavelength" s = false).
    { destruct Hfree as (Hs & _). unfold da_dims, da_sizes in Hs. rewrite Hd in Hs.
      apply has_dim_false. exact Hs. }
    rewrite (bin_by_band q_binned s wv cells lo hi Hd Hs Hle Hall). cbn [bind].
    rewrite (squeeze_band q_binned s wv cells lo hi Hd Hfree). reflexivity.
  - intros Hb Hslice Hfree. unfold merge_spectra. fold fd.
    unfold band_edges at 1. rewrite fold_bands_flat. cbn [fold_bands bind List.length].
    rewrite Hb. unfold _dense_merge_spectra in *.
    destruct (_to_q_bins q_bins) as [edges | e] eqn:Ee; [| reflexivity]. cbn [bind] in *.
    change (set_minus (dims (mkVar [("band", 1); ("wavelength", 2)] [lo; hi] None))
                      ["wavelength"]) with ["band"].
    rewrite set_pop_single. cbn [bind]. rewrite collapse_flat. cbn [bind mapM].
    unfold dense_band at 1. unfold band_edges, array1, var_item.
    cbn [sizes values List.length Nat.ltb Nat.leb nth bind]. rewrite Hslice. cbn [bind].
    destruct (h <- hist x (fst edges) (snd edges) ;; sum h (set_minus (da_dims x) fd))
      as [y | e] eqn:Ey; [| reflexivity].
    cbn [bind]. specialize (Hfree y eq_refl).
    unfold concat. cbn [fold_left].
    rewrite (lift_new "band" y (proj1 Hfree)). cbn [bind].
    f_equal. apply (squeeze_lift "band" y); [exact Hfree | apply lift_new, Hfree].
Qed.

Lemma pixels_in_full_band : all_events (in_band 1 8) pixels.
Proof. unfold all_events. cbn [data pixels]. repeat constructor. Qed.

Lemma merge_single_band_covers_witness :
  (merge_spectra pixels (QEdges q_edges) (Some (band_edges 1 8)) None =
   (r <- merge_spectra pixels (QEdges q_edges) None None ;; Ok (with_band_edges 1 8 r)))
  /\ merge_spectra dense_q (QEdges q_edges) (Some (band_edges 1 8))
                   (Some ["wavelength"; "Q"]) =
     merge_spectra dense_q (QEdges q_edges) None (Some ["wavelength"; "Q"]).
Proof.
  pose proof (merge_single_band_covers (E := reference_ops) pixels (QEdges q_edges) None 1 8)
    as Hev.
  pose proof (merge_single_band_covers (E := reference_ops) dense_q (QEdges q_edges)
                (Some ["wavelength"; "Q"]) 1 8)
    as Hdense.
  cbv zeta in Hev, Hdense. split.
  - apply (proj1 Hev).
    + reflexivity.
    + split; constructor.
    + exact pixels_in_full_band.
    + reflexivity.
    + simpl. intuition discriminate.
    + intros e He. inversion He; subst e. discriminate.
  - apply (proj2 Hdense).
    + reflexivity.
    + vm_compute. reflexivity.
    + intros y Hy. vm_compute in Hy. inversion Hy; subst y.
      unfold free_of. cbn. repeat split; try (repeat constructor); intuition discriminate.
Defined.

(** With events, the result of merging with a single band over the full
    range is not the result of merging without a band: the band edges stay
    on it as a coordinate. *)
Lemma single_band_result_differs :
  ~ (forall (E : External) (x : DataArray) (q_bins : QBins)
            (final_dims : option (list Dim)) (lo hi : float),
       all_events (in_band lo hi) x ->
       merge_spectra x q_bins (Some (band_edges lo hi)) final_dims =
       merge_spectra x q_bins None final_dims).
Proof.
  intros H.
  specialize (H reference_ops pixels (QEdges q_edges) None 1%float 8%float pixels_in_full_band).
  vm_compute in H. discriminate H.
Qed.

(* ================================================================== *)
(** * Further properties of the providers *)

(** ** Monitor preprocessing *)

Lemma da_isub_frame (a b r : DataArray) :
  da_isub a b = Ok r ->
  coords r = coords a /\ da_sizes r = da_sizes a /\ has_variances r = has_variances a.
Proof.
  unfold da_isub, da_sizes, has_variances.
  destruct (data a) as [va | ? ? ?]; [| discriminate].
  destruct (data b) as [vb | ? ? ?]; [| discriminate].
  destruct (coords_cover _ _); [| discriminate]. intros H. inv_bind H.
  destruct (sizes_eqb (sizes x) (sizes va)) eqn:Es; [| discriminate].
  apply sizes_eqb_eq in Es. cbn [negb] in H.
  unfold var_binop in E. inv_bind E. inversion E; subst x; clear E.
  cbn [sizes] in Es. unfold elem_variances in H.
  destruct (variances va) as [la |], (variances vb) as [lb |]; try discriminate;
    inv_bind H; inversion H; subst r; cbn [data coords data_sizes sizes variances];
    auto.
Qed.

(** X1.  Whatever the mode, a successful [preprocess_monitor_data] leaves
    the monitor on the requested binning: the result has the coordinates and
    the extents of the re-binned monitor and carries variances exactly when
    the re-binned monitor does. *)
Theorem preprocess_monitor_keeps_binning {E : External}
    (monitor : DataArray) (wavelength_bins : Var) (non_background_range : option Var)
    (uncertainties : UncertaintyBroadcastMode) (r : DataArray) :
  preprocess_monitor_data monitor wavelength_bins non_background_range uncertainties = Ok r ->
  exists rebinned,
    to_wavelength_bins monitor wavelength_bins = Ok rebinned /\
    coords r = coords rebinned /\ da_sizes r = da_sizes rebinned /\
    has_variances r = has_variances rebinned.
Proof.
  unfold preprocess_monitor_data. intros H. inv_bind H. exists x0.
  split; [exact E1 |].
  destruct x as [background |]; [| inversion H; subst; auto].
  destruct uncertainties.
  - exact (da_isub_frame _ _ _ H).
  - inv_bind H. exact (da_isub_frame _ _ _ H).
  - exact (da_isub_frame _ _ _ H).
Qed.

Lemma preprocess_monitor_keeps_binning_witness :
  let r := mkDataArray
             (Dense (mkVar [("wavelength", 4)] [0; 15; 25; 0]%float
                           (Some [15; 30; 40; 15]%float)))
             [("wavelength", mkCoord wavelength_edges true)] [] in
  preprocess_monitor_data monitor4 wavelength_edges (Some signal_range) upper_bound = Ok r /\
  exists rebinned,
    to_wavelength_bins monitor4 wavelength_edges = Ok rebinned /\
    coords r = coords rebinned /\ da_sizes r = da_sizes rebinned /\
    has_variances r = has_variances rebinned.
Proof.
  intros r.
  assert (H : preprocess_monitor_data monitor4 wavelength_edges (Some signal_range) upper_bound
              = Ok r) by (vm_compute; reflexivity).
  split; [exact H |].
  exact (preprocess_monitor_keeps_binning monitor4 wavelength_edges (Some signal_range)
           upper_bound r H).
Defined.

(** X2.  Under the mode [fail] nothing guards the subtraction: when the
    background level is a scalar with variances and the re-binned monitor
    has at least one dimension, [preprocess_monitor_data] does not return;
    with matching coordinates the exception is the [VariancesError] of the
    refused broadcast. *)
Theorem preprocess_monitor_fail_refuses_variances {E : External}
    (monitor : DataArray) (wavelength_bins non_background_range : Var)
    (background rebinned : DataArray) (vb vm : Var) :
  background_level monitor non_background_range = Ok background ->
  to_wavelength_bins monitor wavelength_bins = Ok rebinned ->
  data background = Dense vb -> sizes vb = [] -> variances vb <> None ->
  data rebinned = Dense vm -> sizes vm <> [] ->
  preprocess_monitor_data monitor wavelength_bins (Some non_background_range) fail =
  Raise (if coords_cover (coords rebinned) (coords background)
         then VariancesError else CoordMismatchError).
Proof.
  intros Hb Hr Eb Hsb Hvb Em Hsm. unfold preprocess_monitor_data.
  rewrite Hb. cbn [bind]. rewrite Hr. cbn [bind].
  unfold da_isub. rewrite Em, Eb.
  destruct (coords_cover _ _); [| reflexivity].
  unfold var_binop. rewrite Hsb, merge_sizes_nil_r. cbn [bind].
  unfold variance_guard, broadcasts. rewrite Nat.eqb_refl. cbn [negb].
  assert (G : match variances vm with Some _ => Ok tt | None => Ok tt end = Ok tt)
    by (destruct (variances vm); reflexivity).
  rewrite G. cbn [bind].
  destruct (variances vb) as [l |]; [| congruence].
  rewrite Hsb. destruct (sizes vm) as [| p s]; [congruence |]. reflexivity.
Qed.

Lemma preprocess_monitor_fail_refuses_variances_witness :
  preprocess_monitor_data monitor4 wavelength_edges (Some signal_range) fail =
  Raise VariancesError.
Proof.
  exact (preprocess_monitor_fail_refuses_variances (E := reference_ops)
           monitor4 wavelength_edges signal_range
           (mkDataArray (Dense (mkVar [] [5]%float (Some [2.5]%float))) [] [])
           monitor4 _ _ eq_refl eq_refl eq_refl eq_refl
           ltac:(discriminate) eq_refl ltac:(discriminate)).
Defined.

(** X3.  The non-background range must be one-dimensional with one value
    or two: any other shape is a [DimensionError], in every mode and before
    anything is re-binned. *)
Theorem preprocess_monitor_range_shape {E : External}
    (monitor : DataArray) (wavelength_bins non_background_range : Var)
    (uncertainties : UncertaintyBroadcastMode) :
  (forall d, sizes non_background_range <> [(d, 1)] /\
             sizes non_background_range <> [(d, 2)]) ->
  preprocess_monitor_data monitor wavelength_bins (Some non_background_range) uncertainties =
  Raise DimensionError.
Proof.
  intros H. unfold preprocess_monitor_data, background_level, range_mask, dim.
  destruct (sizes non_background_range) as [| [d n] [| q s]] eqn:Es; try reflexivity.
  cbn [bind]. destruct (H d) as [H1 H2].
  destruct n as [| [| [| n]]]; try reflexivity; congruence.
Qed.

Lemma preprocess_monitor_range_shape_witness :
  preprocess_monitor_data monitor4 wavelength_edges
    (Some (array1 "wavelength" [2; 3; 4]%float)) drop = Raise DimensionError.
Proof.
  apply (preprocess_monitor_range_shape (E := reference_ops)).
  intros d. split; discriminate.
Defined.
(** ** Direct-beam resampling *)

(** X4.  A direct beam without a wavelength coordinate is a [KeyError],
    raised before anything is logged or interpolated; and whatever the
    input, the log holds nothing or the one warning about the dropped
    variances. *)
Theorem resample_direct_beam_missing_wavelength {E : External}
    (direct_beam : DataArray) (wavelength_bins : Var) :
  (assoc_get "wavelength" (coords direct_beam) = None ->
   resample_direct_beam direct_beam wavelength_bins = ([], Raise KeyError))
  /\ (fst (resample_direct_beam direct_beam wavelength_bins) = [] \/
      fst (resample_direct_beam direct_beam wavelength_bins) = [variance_warning]).
Proof.
  unfold resample_direct_beam, getitem.
  destruct (assoc_get "wavelength" (coords direct_beam)) as [c |].
  - split; [discriminate |].
    destruct (identical (c_var c) wavelength_bins); [left; reflexivity |].
    destruct (has_variances direct_beam) as [[|] | e]; auto.
  - split; [reflexivity | left; reflexivity].
Qed.

Lemma resample_direct_beam_missing_wavelength_witness :
  resample_direct_beam (point 1) wavelength_edges = ([], Raise KeyError).
Proof.
  exact (proj1 (resample_direct_beam_missing_wavelength (E := reference_ops)
                  (point 1) wavelength_edges) eq_refl).
Defined.

(** ** Background subtraction *)

Lemma to_dense_parts (x : DataArray) :
  to_dense x = Ok (mkDataArray (Dense (dense_view x)) (coords x) (masks x)).
Proof.
  unfold to_dense, has_bins, bins_sum, dense_view. destruct x as [[v | s wv c] cs ms]; reflexivity.
Qed.

Lemma meet_raises (ca : Coord) (ocb : option Coord) :
  let m := match ocb with
           | Some cb => meet_coord ca cb
           | None => Ok (if c_aligned ca then Some ca else None)
           end in
  m = Raise CoordMismatchError \/ exists c, m = Ok c.
Proof.
  destruct ocb as [cb |]; cbn zeta; [| right; eauto].
  unfold meet_coord. destruct (c_aligned ca), (c_aligned cb);
    try (right; eauto; fail); destruct (matching _ _); eauto.
Qed.

Lemma merge_left_mismatch (a b : list (string * Coord)) (n : string) (ca cb : Coord) :
  assoc_get n a = Some ca -> assoc_get n b = Some cb ->
  c_aligned ca = true -> c_aligned cb = true -> matching (c_var ca) (c_var cb) = false ->
  merge_left a b = Raise CoordMismatchError.
Proof.
  intros Ha Hb Hca Hcb Hm. induction a as [| [k c] a IH]; simpl in *; [discriminate |].
  destruct (String.eqb_spec n k) as [-> | Hne].
  - inversion Ha; subst c. rewrite Hb. unfold meet_coord. rewrite Hca, Hcb, Hm. reflexivity.
  - rewrite (IH Ha).
    destruct (meet_raises c (assoc_get k b)) as [-> | [c' ->]]; reflexivity.
Qed.

(** X5.  Sample and background must lie on the same bins: when an aligned
    coordinate of the sample has an aligned namesake on the background that
    does not match it, [subtract_background] raises [CoordMismatchError],
    for dense and for event inputs alike. *)
Theorem subtract_background_coord_mismatch
    (sample background : DataArray) (n : string) (cs cb : Coord) :
  da_sizes background = da_sizes sample ->
  assoc_get n (coords sample) = Some cs -> assoc_get n (coords background) = Some cb ->
  c_aligned cs = true -> c_aligned cb = true -> matching (c_var cs) (c_var cb) = false ->
  subtract_background sample background = Raise CoordMismatchError.
Proof.
  intros _ Hs Hb Has Hab Hm. unfold subtract_background.
  rewrite !to_dense_parts. cbn [bind]. unfold da_binop, merge_coords. cbn [data coords].
  rewrite (merge_left_mismatch _ _ n cs cb Hs Hb Has Hab Hm). reflexivity.
Qed.

Lemma subtract_background_coord_mismatch_witness :
  subtract_background iofq_events
    (mkDataArray (Dense (array1 "Q" [1; 2; 3]%float))
                 [("Q", mkCoord (array1 "Q" [0; 1; 2; 4]%float) true)] [])
  = Raise CoordMismatchError.
Proof.
  apply (subtract_background_coord_mismatch _ _ "Q" (mkCoord q_edges true)
           (mkCoord (array1 "Q" [0; 1; 2; 4]%float) true)); reflexivity.
Defined.

(** X6.  The uncertainties of sample and background add up: on operands of
    the same extents that both carry variances, every variance of the
    result is the float sum of the two variances at that position; when
    neither carries variances the result carries none. *)
Theorem subtract_background_variances (sample background r : DataArray) :
  subtract_background sample background = Ok r ->
  NoDup (da_dims sample) -> da_sizes background = da_sizes sample ->
  exists v, data r = Dense v /\ sizes v = da_sizes sample /\
    (forall vs vb,
       variances (dense_view sample) = Some vs ->
       variances (dense_view background) = Some vb ->
       variances v =
       Some (map (fun k => (nth k vs nan + nth k vb nan)%float)
                 (seq 0 (volume (da_sizes sample))))) /\
    (variances (dense_view sample) = None -> variances (dense_view background) = None ->
     variances v = None).
Proof.
  intros H Hnd Hs. unfold subtract_background in H.
  rewrite !to_dense_parts in H. cbn [bind] in H.
  unfold da_binop in H. cbn [data] in H. inv_bind H.
  assert (Ha : sizes (dense_view sample) = da_sizes sample)
    by (unfold dense_view, da_sizes; destruct (data sample); reflexivity).
  assert (Hb : sizes (dense_view background) = da_sizes background)
    by (unfold dense_view, da_sizes; destruct (data background); reflexivity).
  assert (Hnd' : NoDup (dims (dense_view sample))) by (unfold dims; rewrite Ha; exact Hnd).
  assert (Hs' : sizes (dense_view background) = sizes (dense_view sample)) by congruence.
  rewrite (var_binop_same_shape OpSub _ _ Hnd' Hs') in E0.
  inversion E0; subst x0; clear E0. inversion H; subst r; clear H.
  eexists. split; [reflexivity |]. cbn [sizes variances].
  split; [exact Ha |]. unfold same_shape_variances. rewrite Ha. split.
  - intros vs vb -> ->. reflexivity.
  - intros -> ->. reflexivity.
Qed.

Lemma subtract_background_variances_witness :
  let sample := mkDataArray (Dense (mkVar [("Q", 3)] [10; 20; 30]%float (Some [4; 5; 6]%float)))
                            [("Q", mkCoord q_edges true)] [] in
  let background := mkDataArray (Dense (mkVar [("Q", 3)] [1; 2; 3]%float (Some [1; 2; 3]%float)))
                                [("Q", mkCoord q_edges true)] [] in
  exists v,
    data (mkDataArray (Dense (mkVar [("Q", 3)] [9; 18; 27]%float (Some [5; 7; 9]%float)))
                      [("Q", mkCoord q_edges true)] []) = Dense v /\
    sizes v = da_sizes sample /\
    (forall vs vb,
       variances (dense_view sample) = Some vs ->
       variances (dense_view background) = Some vb ->
       variances v =
       Some (map (fun k => (nth k vs nan + nth k vb nan)%float)
                 (seq 0 (volume (da_sizes sample))))) /\
    (variances (dense_view sample) = None -> variances (dense_view background) = None ->
     variances v = None).
Proof.
  intros sample background.
  apply (subtract_background_variances sample background).
  - vm_compute. reflexivity.
  - nodup_strings.
  - reflexivity.
Defined.
(** ** Transmission fraction *)

Lemma coords_shared_refl (cs : list (string * Coord)) :
  NoDup (map fst cs) -> Forall (fun nc => c_aligned (snd nc) = true) cs ->
  coords_shared cs cs.
Proof.
  intros Hnd Hal. unfold coords_shared. rewrite Forall_forall in *.
  intros [n c] Hin. split; [exact (Hal _ Hin) |].
  exact (assoc_get_NoDup n c cs Hnd Hin).
Qed.

(** The operation on two dense arrays of the same extents, with the same
    aligned coordinates and without masks, returns an array in that frame. *)
Lemma da_binop_same_frame (o : BinOp) (a b : DataArray) (s : Sizes)
    (cs : list (string * Coord)) (va vb : Var) :
  NoDup (dims_of s) -> NoDup (map fst cs) ->
  Forall (fun nc => c_aligned (snd nc) = true) cs ->
  a = mkDataArray (Dense va) cs [] -> b = mkDataArray (Dense vb) cs [] ->
  sizes va = s -> sizes vb = s ->
  exists v, da_binop o a b = Ok (mkDataArray (Dense v) cs []) /\ sizes v = s.
Proof.
  intros Hs Hnd Hal -> -> Ha Hb. unfold da_binop. cbn [data coords masks].
  rewrite (merge_coords_shared cs cs Hnd Hal (coords_shared_refl cs Hnd Hal)). cbn [bind].
  assert (Hnd' : NoDup (dims va)) by (unfold dims; rewrite Ha; exact Hs).
  rewrite (var_binop_same_shape o va vb Hnd' (eq_trans Hb (eq_sym Ha))). cbn [bind].
  eexists. split; [reflexivity | exact Ha].
Qed.

(** X7.  On four dense monitors over the same bins (the same extents and
    aligned coordinates, no masks) [transmission_fraction] always returns,
    whatever the counts are (zero counts give infinities or NaN, not an
    exception), and the fraction lies on those bins again. *)
Theorem transmission_fraction_same_frame
    (sample_incident sample_transmission direct_incident direct_transmission : DataArray)
    (s : Sizes) (cs : list (string * Coord)) :
  NoDup (dims_of s) -> NoDup (map fst cs) ->
  Forall (fun nc => c_aligned (snd nc) = true) cs ->
  Forall (fun m => exists v, m = mkDataArray (Dense v) cs [] /\ sizes v = s)
         [sample_incident; sample_transmission; direct_incident; direct_transmission] ->
  exists v,
    transmission_fraction sample_incident sample_transmission
                          direct_incident direct_transmission
    = Ok (mkDataArray (Dense v) cs []) /\ sizes v = s.
Proof.
  intros Hs Hnd Hal Hm.
  apply Forall_cons_iff in Hm as [(vsi & -> & Ssi) Hm].
  apply Forall_cons_iff in Hm as [(vst & -> & Sst) Hm].
  apply Forall_cons_iff in Hm as [(vdi & -> & Sdi) Hm].
  apply Forall_cons_iff in Hm as [(vdt & -> & Sdt) _].
  unfold transmission_fraction.
  destruct (da_binop_same_frame OpDiv _ _ _ cs vst vdt Hs Hnd Hal eq_refl eq_refl Sst Sdt)
    as (t & -> & St).
  destruct (da_binop_same_frame OpDiv _ _ _ cs vdi vsi Hs Hnd Hal eq_refl eq_refl Sdi Ssi)
    as (i & -> & Si).
  cbn [bind].
  exact (da_binop_same_frame OpMul _ _ _ cs t i Hs Hnd Hal eq_refl eq_refl St Si).
Qed.

Lemma transmission_fraction_same_frame_witness :
  let m (a b : float) :=
    mkDataArray (Dense (array1 "wavelength" [a; b]))
                [("wavelength", mkCoord (array1 "wavelength" [1; 2; 3]%float) true)] [] in
  exists v,
    transmission_fraction (m 100 0)%float (m 80 0)%float (m 90 50)%float (m 95 0)%float
    = Ok (mkDataArray (Dense v)
            [("wavelength", mkCoord (array1 "wavelength" [1; 2; 3]%float) true)] [])
    /\ sizes v = [("wavelength", 2)].
Proof.
  intros m.
  apply (transmission_fraction_same_frame
           (m 100 0)%float (m 80 0)%float (m 90 50)%float (m 95 0)%float).
  - nodup_strings.
  - nodup_strings.
  - repeat constructor.
  - repeat constructor; eexists; split; reflexivity.
Defined.

(** ** Solid angle *)

(** X8.  The pixel shape is read from the coordinates [pixel_width] and
    [pixel_height]: when either is missing the provider raises [KeyError],
    whatever the data and the flight path are. *)
Theorem solid_angle_missing_pixel_shape {E : External} (data : DataArray) :
  assoc_get "pixel_width" (coords data) = None \/
  assoc_get "pixel_height" (coords data) = None ->
  solid_angle_rectangular_approximation data = Raise KeyError.
Proof.
  unfold solid_angle_rectangular_approximation, getitem. intros [H | H]; rewrite H.
  - reflexivity.
  - destruct (assoc_get "pixel_width" (coords data)); reflexivity.
Qed.

Lemma solid_angle_missing_pixel_shape_witness :
  solid_angle_rectangular_approximation
    (mkDataArray (data detector) [("pixel_width", mkCoord (scalar 0.5) true)] [])
  = Raise KeyError.
Proof.
  apply (solid_angle_missing_pixel_shape (E := reference_ops)). right. reflexivity.
Defined.
(** ** The terms of the denominator *)

Lemma merged_longer (a b out : Sizes) (d : Dim) :
  merge_sizes a b = Ok out -> NoDup (dims_of b) ->
  In d (dims_of a) -> ~ In d (dims_of b) ->
  List.length b < List.length out.
Proof.
  intros Hm Hnd Ha Hb.
  assert (Hincl : incl (d :: dims_of b) (dims_of out)).
  { intros y [<- | Hy].
    - unfold dims_of in Ha. apply in_map_iff in Ha as ([d' n] & <- & Hin).
      apply (in_map fst). exact (merge_sizes_In_l _ _ _ _ Hm Hin).
    - unfold dims_of in Hy. apply in_map_iff in Hy as (p & <- & Hin).
      apply (in_map fst). exact (merge_sizes_In_r _ _ _ _ Hm Hnd Hin). }
  assert (Hn : NoDup (d :: dims_of b)) by (constructor; assumption).
  pose proof (NoDup_incl_length Hn Hincl) as Hl.
  unfold dims_of in Hl. cbn [List.length] in Hl. rewrite !length_map in Hl. lia.
Qed.

(** An operand with variances that lacks a dimension of the other operand
    is never combined. *)
Lemma var_binop_refuses_broadcast (o : BinOp) (a b : Var) (d : Dim) :
  variances b <> None -> NoDup (dims b) -> In d (dims a) -> ~ In d (dims b) ->
  is_ok (var_binop o a b) = false /\
  (is_ok (var_binop o a (var_values b)) = true -> var_binop o a b = Raise VariancesError).
Proof.
  intros Hv Hnd Ha Hb. unfold var_binop. cbn [sizes var_values].
  destruct (merge_sizes (sizes a) (sizes b)) as [out | e] eqn:Hm; cbn [bind];
    [| split; [reflexivity | discriminate]].
  destruct (variance_guard out a) as [[] | e]; cbn [bind];
    [| split; [reflexivity | discriminate]].
  assert (G : variance_guard out b = Raise VariancesError).
  { unfold variance_guard, broadcasts. destruct (variances b); [| congruence].
    pose proof (merged_longer _ _ _ d Hm Hnd Ha Hb) as Hl.
    destruct (Nat.eqb_spec (List.length (sizes b)) (List.length out)); [lia | reflexivity]. }
  rewrite G. split; reflexivity.
Qed.

Lemma da_binop_refuses_broadcast (o : BinOp) (a b : DataArray) (vb : Var) (d : Dim) :
  data b = Dense vb -> variances vb <> None -> NoDup (dims vb) ->
  In d (da_dims a) -> ~ In d (dims vb) ->
  is_ok (da_binop o a b) = false /\
  (is_ok (da_binop o a (da_values b)) = true -> da_binop o a b = Raise VariancesError).
Proof.
  intros Eb Hv Hnd Ha Hb. unfold da_binop, da_values. rewrite Eb. cbn [data coords masks].
  unfold da_dims, da_sizes in Ha.
  destruct (data a) as [va | ? ? ?]; [| split; [reflexivity | discriminate]].
  cbn [data_sizes] in Ha.
  destruct (merge_coords (coords a) (coords b)) as [cs | e]; cbn [bind];
    [| split; [reflexivity | discriminate]].
  destruct (var_binop_refuses_broadcast o va vb d Hv Hnd Ha Hb) as [H1 H2].
  destruct (var_binop o va vb) as [v | e]; [discriminate |]. cbn [bind].
  split; [reflexivity |].
  destruct (var_binop o va (var_values vb)) as [v | e'] eqn:Ev; [| discriminate].
  intros _. f_equal.
  assert (H : Raise (A := Var) e = Raise VariancesError)
    by (apply H2; reflexivity).
  inversion H. reflexivity.
Qed.

(** X9.  Under the mode [fail] nothing guards the product: the denominator
    is [solid_angle * wavelength_term] itself, so a wavelength term with
    variances is never broadcast over a dimension of the (dense) solid angle
    that it lacks; when the product of the values alone exists, the
    exception is the [VariancesError] of the refused broadcast. *)
Theorem iofq_denominator_fail_mode {E : External} {B : Broadcasters}
    (wavelength_term solid_angle : DataArray) (vw : Var) (d : Dim) :
  data wavelength_term = Dense vw -> variances vw <> None -> NoDup (dims vw) ->
  has_bins solid_angle = false ->
  In d (da_dims solid_angle) -> ~ In d (dims vw) ->
  is_ok (iofq_denominator wavelength_term solid_angle fail) = false /\
  (is_ok (iofq_denominator (da_values wavelength_term) solid_angle fail) = true ->
   iofq_denominator wavelength_term solid_angle fail = Raise VariancesError).
Proof.
  intros Ew Hv Hnd _ Hd Hn. unfold iofq_denominator, _broadcasters. cbn [bind].
  exact (da_binop_refuses_broadcast OpMul solid_angle wavelength_term vw d Ew Hv Hnd Hd Hn).
Qed.

Lemma iofq_denominator_fail_mode_witness :
  let term := mkDataArray
                (Dense (mkVar [("wavelength", 2)] [10; 20]%float (Some [1; 2]%float)))
                [("wavelength", mkCoord (array1 "wavelength" [1.5; 2.5]%float) true)] [] in
  let solid_angle := mkDataArray (Dense (array1 "spectrum" [0.5; 0.25; 0.125]%float)) [] [] in
  is_ok (iofq_denominator term solid_angle fail) = false /\
  (is_ok (iofq_denominator (da_values term) solid_angle fail) = true ->
   iofq_denominator term solid_angle fail = Raise VariancesError).
Proof.
  intros term solid_angle.
  apply (iofq_denominator_fail_mode (E := reference_ops) (B := reference_broadcasters)
           term solid_angle
           (mkVar [("wavelength", 2)] [10; 20]%float (Some [1; 2]%float)) "spectrum").
  - reflexivity.
  - discriminate.
  - nodup_strings.
  - reflexivity.
  - left. reflexivity.
  - cbn. intuition discriminate.
Defined.

Lemma assoc_get_set_same {A : Type} (k : string) (v : A) (l : list (string * A)) :
  assoc_get k (assoc_set k v l) = Some v.
Proof.
  induction l as [| [k' v'] l IH]; simpl.
  - rewrite String.eqb_refl. reflexivity.
  - destruct (String.eqb k k') eqn:Ek; simpl; rewrite ?String.eqb_refl, ?Ek; auto.
Qed.

Lemma assoc_get_set_other {A : Type} (k n : string) (v : A) (l : list (string * A)) :
  n <> k -> assoc_get n (assoc_set k v l) = assoc_get n l.
Proof.
  intros Hne. apply String.eqb_neq in Hne.
  induction l as [| [k' v'] l IH]; simpl.
  - rewrite Hne. reflexivity.
  - destruct (String.eqb k k') eqn:Ek; simpl.
    + apply String.eqb_eq in Ek. subst k'. rewrite Hne. reflexivity.
    + rewrite IH. reflexivity.
Qed.

(** X10.  What [iofq_norm_wavelength_term] returns is the combined term
    (the product of the monitor and the transmission fraction, times the
    direct beam when there is one) with one change: its wavelength
    coordinate is replaced by the midpoints of that coordinate.  Data, masks
    and all other coordinates are those of the combined term. *)
Theorem iofq_norm_wavelength_term_midpoints {E : External} {B : Broadcasters}
    (incident_monitor transmission : DataArray) (direct_beam : option DataArray)
    (uncertainties : UncertaintyBroadcastMode) (r : DataArray) :
  iofq_norm_wavelength_term incident_monitor transmission direct_beam uncertainties = Ok r ->
  exists product out c m,
    da_binop OpMul incident_monitor transmission = Ok product /\
    match direct_beam with
    | Some beam =>
        exists b, _broadcasters uncertainties product (da_sizes beam) = Ok b /\
                  da_binop OpMul beam b = Ok out
    | None => out = product
    end /\
    assoc_get "wavelength" (coords out) = Some c /\
    sc_midpoints (c_var c) = Ok m /\
    data r = data out /\ masks r = masks out /\
    assoc_get "wavelength" (coords r) = Some (mkCoord m true) /\
    (forall n, n <> "wavelength" -> assoc_get n (coords r) = assoc_get n (coords out)).
Proof.
  unfold iofq_norm_wavelength_term. intros H. inv_bind H.
  unfold set_coord in H. destruct (fits _ _); [| discriminate].
  inversion H; subst r; clear H. cbn [data coords masks].
  unfold getitem in E2. destruct (assoc_get "wavelength" (coords x0)) as [c |] eqn:Ec;
    [| discriminate].
  inversion E2; subst x1; clear E2.
  exists x, x0, c, x2. split; [exact E0 |]. split.
  - destruct direct_beam as [beam |].
    + inv_bind E1. exists x1. auto.
    + inversion E1. reflexivity.
  - repeat split; auto.
    + apply assoc_get_set_same.
    + intros n Hn. apply assoc_get_set_other. exact Hn.
Qed.

Lemma iofq_norm_wavelength_term_midpoints_witness :
  let edges := mkCoord (array1 "wavelength" [1; 2; 3]%float) true in
  let monitor := mkDataArray
                   (Dense (mkVar [("wavelength", 2)] [10; 20]%float (Some [1; 2]%float)))
                   [("wavelength", edges)] [] in
  let transmission := mkDataArray (Dense (array1 "wavelength" [0.5; 0.25]%float))
                                  [("wavelength", edges)] [] in
  let r := mkDataArray
             (Dense (mkVar [("wavelength", 2)] [5; 5]%float (Some [0.25; 0.125]%float)))
             [("wavelength", mkCoord (array1 "wavelength" [1.5; 2.5]%float) true)] [] in
  exists product out c m,
    da_binop OpMul monitor transmission = Ok product /\
    out = product /\
    assoc_get "wavelength" (coords out) = Some c /\
    sc_midpoints (c_var c) = Ok m /\
    data r = data out /\ masks r = masks out /\
    assoc_get "wavelength" (coords r) = Some (mkCoord m true) /\
    (forall n, n <> "wavelength" -> assoc_get n (coords r) = assoc_get n (coords out)).
Proof.
  intros edges monitor transmission r.
  exact (iofq_norm_wavelength_term_midpoints (E := reference_ops) (B := reference_broadcasters)
           monitor transmission None fail r eq_refl).
Defined.

Lemma merge_left_absent (a b l : list (string * Coord)) (n : string) :
  merge_left a b = Ok l -> assoc_get n a = None -> assoc_get n l = None.
Proof.
  revert l. induction a as [| [k c] a IH]; simpl; intros l H Ha.
  - inversion H. reflexivity.
  - inv_bind H. destruct (String.eqb n k) eqn:Ek; [discriminate |].
    inversion H; subst l. destruct x as [c' |]; simpl; rewrite ?Ek; apply IH; auto.
Qed.

Lemma assoc_get_app_none {A : Type} (n : string) (a b : list (string * A)) :
  assoc_get n a = None -> assoc_get n (a ++ b) = assoc_get n b.
Proof.
  induction a as [| [k v] a IH]; simpl; [reflexivity |].
  destruct (String.eqb n k); [discriminate | exact IH].
Qed.

Lemma assoc_get_filter_none {A : Type} (n : string) (f : string * A -> bool)
    (b : list (string * A)) :
  assoc_get n b = None -> assoc_get n (filter f b) = None.
Proof.
  induction b as [| [k v] b IH]; simpl; [reflexivity |].
  destruct (String.eqb n k) eqn:Ek; [discriminate |].
  intros H. destruct (f (k, v)); simpl; rewrite ?Ek; auto.
Qed.

Lemma merge_coords_absent (a b cs : list (string * Coord)) (n : string) :
  merge_coords a b = Ok cs -> assoc_get n a = None -> assoc_get n b = None ->
  assoc_get n cs = None.
Proof.
  unfold merge_coords. intros H Ha Hb. inv_bind H. inversion H; subst cs.
  rewrite (assoc_get_app_none _ _ _ (merge_left_absent _ _ _ _ E Ha)).
  apply assoc_get_filter_none. exact Hb.
Qed.

(** X11.  The combined term must have a wavelength coordinate: when
    neither the monitor nor the transmission fraction has one and there is
    no direct beam, their product exists but the provider raises
    [KeyError], in every mode. *)
Theorem iofq_norm_wavelength_term_needs_wavelength {E : External} {B : Broadcasters}
    (incident_monitor transmission : DataArray)
    (uncertainties : UncertaintyBroadcastMode) :
  is_ok (da_binop OpMul incident_monitor transmission) = true ->
  assoc_get "wavelength" (coords incident_monitor) = None ->
  assoc_get "wavelength" (coords transmission) = None ->
  iofq_norm_wavelength_term incident_monitor transmission None uncertainties = Raise KeyError.
Proof.
  intros Hok Hi Ht. unfold iofq_norm_wavelength_term.
  destruct (da_binop OpMul incident_monitor transmission) as [p |] eqn:Ep; [| discriminate].
  cbn [bind]. unfold getitem.
  assert (Hc : assoc_get "wavelength" (coords p) = None).
  { unfold da_binop in Ep.
    destruct (data incident_monitor); [| discriminate].
    destruct (data transmission); [| discriminate].
    inv_bind Ep. inversion Ep; subst p. cbn [coords].
    exact (merge_coords_absent _ _ _ _ E0 Hi Ht). }
  rewrite Hc. reflexivity.
Qed.

Lemma iofq_norm_wavelength_term_needs_wavelength_witness :
  iofq_norm_wavelength_term (point 10) (point 0.5) None drop = Raise KeyError.
Proof.
  apply (iofq_norm_wavelength_term_needs_wavelength (E := reference_ops)
           (B := reference_broadcasters)); reflexivity.
Defined.

(** X12.  Under the mode [fail] the product with the direct beam is not
    guarded either: when the product of monitor and transmission fraction
    carries variances and the (dense) direct beam has a dimension that this
    product lacks, [iofq_norm_wavelength_term] does not return. *)
Theorem iofq_norm_wavelength_term_fail_mode {E : External} {B : Broadcasters}
    (incident_monitor transmission beam product : DataArray) (vp : Var) (d : Dim) :
  da_binop OpMul incident_monitor transmission = Ok product ->
  data product = Dense vp -> variances vp <> None -> NoDup (dims vp) ->
  has_bins beam = false ->
  In d (da_dims beam) -> ~ In d (dims vp) ->
  is_ok (iofq_norm_wavelength_term incident_monitor transmission (Some beam) fail) = false.
Proof.
  intros Hp Ep Hv Hnd _ Hd Hn. unfold iofq_norm_wavelength_term, _broadcasters.
  rewrite Hp. cbn [bind].
  destruct (da_binop_refuses_broadcast OpMul beam product vp d Ep Hv Hnd Hd Hn) as [H _].
  destruct (da_binop OpMul beam product); [discriminate | reflexivity].
Qed.

Lemma iofq_norm_wavelength_term_fail_mode_witness :
  let edges := mkCoord (array1 "wavelength" [1; 2; 3]%float) true in
  let monitor := mkDataArray
                   (Dense (mkVar [("wavelength", 2)] [10; 20]%float (Some [1; 2]%float)))
                   [("wavelength", edges)] [] in
  let transmission := mkDataArray (Dense (array1 "wavelength" [0.5; 0.25]%float))
                                  [("wavelength", edges)] [] in
  let beam := mkDataArray
                (Dense (mkVar [("spectrum", 2); ("wavelength", 2)] [1; 2; 3; 4]%float None))
                [("wavelength", edges)] [] in
  is_ok (iofq_norm_wavelength_term monitor transmission (Some beam) fail) = false.
Proof.
  intros edges monitor transmission beam.
  apply (iofq_norm_wavelength_term_fail_mode (E := reference_ops)
           (B := reference_broadcasters) monitor transmission beam
           (mkDataArray
              (Dense (mkVar [("wavelength", 2)] [5; 5]%float (Some [0.25; 0.125]%float)))
              [("wavelength", edges)] [])
           (mkVar [("wavelength", 2)] [5; 5]%float (Some [0.25; 0.125]%float)) "spectrum").
  - vm_compute. reflexivity.
  - reflexivity.
  - discriminate.
  - nodup_strings.
  - reflexivity.
  - left. reflexivity.
  - cbn. intuition discriminate.
Defined.
(** ** The spectrum merger: malformed binning requests *)

Lemma fold_bands_along_wavelength (wavelength_bands : option Var) :
  (forall wb, wavelength_bands = Some wb -> ndim wb = 1 -> dims wb = ["wavelength"]) ->
  exists w, fold_bands wavelength_bands = Ok w.
Proof.
  intros H. destruct wavelength_bands as [wb |]; [| eexists; reflexivity].
  unfold fold_bands. destruct (Nat.eqb (ndim wb) 1) eqn:En; [| eexists; reflexivity].
  apply Nat.eqb_eq in En. specialize (H wb eq_refl En).
  unfold ndim, dims, dims_of in *.
  destruct (sizes wb) as [| [d n] [| p s]] eqn:Es; try discriminate.
  cbn in H. inversion H; subst d.
  unfold fold. rewrite Es. simpl.
  rewrite ?Nat.mul_1_r, ?Nat.add_0_r, Nat.eqb_refl. eexists. reflexivity.
Qed.

Lemma bins_concat_binned (x : DataArray) (r : list Dim) :
  has_bins x = true -> exists y, bins_concat x r = Ok y.
Proof.
  unfold has_bins, bins_concat. destruct (data x); [discriminate | eauto].
Qed.

(** X13.  Explicit Q bin edges must be one-dimensional: with edges of any
    other rank [merge_spectra] raises [DimensionError], for dense and event
    data, without wavelength bands or with them, a flat list of band edges
    being one along [wavelength] (over another dimension the folding of the
    bands, which comes first, already fails). *)
Theorem merge_spectra_q_bins_shape {E : External}
    (data : DataArray) (edges : Var) (wavelength_bands : option Var)
    (final_dims : option (list Dim)) :
  ndim edges <> 1 ->
  (forall wb, wavelength_bands = Some wb -> ndim wb = 1 -> dims wb = ["wavelength"]) ->
  merge_spectra data (QEdges edges) wavelength_bands final_dims = Raise DimensionError.
Proof.
  intros Hn Hflat.
  assert (Hq : _to_q_bins (QEdges edges) = Raise DimensionError).
  { unfold _to_q_bins, dim, ndim in *.
    destruct (sizes edges) as [| [d n] [| p s]]; try reflexivity. exfalso. apply Hn. reflexivity. }
  unfold merge_spectra.
  destruct (fold_bands_along_wavelength wavelength_bands Hflat) as [wb ->].
  cbn [bind]. destruct (has_bins data) eqn:Hb.
  - unfold _events_merge_spectra.
    destruct (bins_concat_binned data
                (set_minus (da_dims data) match final_dims with Some f => f | None => ["Q"] end)
                Hb) as [y ->].
    cbn [bind]. rewrite Hq. reflexivity.
  - unfold _dense_merge_spectra. rewrite Hq. reflexivity.
Qed.

Lemma merge_spectra_q_bins_shape_witness :
  merge_spectra pixels (QEdges (mkVar [("Q", 2); ("layer", 2)] [0; 1; 2; 3]%float None))
                (Some (array1 "wavelength" [1; 8]%float)) None = Raise DimensionError.
Proof.
  apply (merge_spectra_q_bins_shape (E := reference_ops)).
  - discriminate.
  - intros wb H _. inversion H. reflexivity.
Defined.

(** X14.  Wavelength bands given as a flat list must run along the
    dimension [wavelength]: a one-dimensional band variable over any other
    dimension has no dimension [wavelength] to fold, and [merge_spectra]
    raises [KeyError] before it looks at the data or at the Q bins. *)
Theorem merge_spectra_bands_dimension {E : External}
    (data : DataArray) (q_bins : QBins) (wavelength_bands : Var)
    (final_dims : option (list Dim)) (d : Dim) (n : nat) :
  sizes wavelength_bands = [(d, n)] -> d <> "wavelength" ->
  merge_spectra data q_bins (Some wavelength_bands) final_dims = Raise KeyError.
Proof.
  intros Hs Hd. unfold merge_spectra, fold_bands, ndim, fold. rewrite Hs. cbn [List.length Nat.eqb].
  assert (Hf : has_dim "wavelength" [(d, n)] = false).
  { unfold has_dim, mem, dims_of. cbn [map fst existsb].
    apply not_eq_sym, String.eqb_neq in Hd. rewrite Hd. reflexivity. }
  rewrite Hf. reflexivity.
Qed.

Lemma merge_spectra_bands_dimension_witness :
  merge_spectra pixels (QEdges (mkVar [("Q", 2); ("layer", 2)] [0; 1; 2; 3]%float None))
                (Some (array1 "lambda" [1; 8]%float)) None
  = Raise KeyError.
Proof.
  apply (merge_spectra_bands_dimension (E := reference_ops) _ _ _ _ "lambda" 2);
    [reflexivity | discriminate].
Defined.
(** ** The spectrum merger: bands given as a flat list of edges *)

Lemma collapse_folded (l : list float) :
  collapse (mkVar [("band", 1); ("wavelength", List.length l)] l None) "wavelength"
  = Ok [array1 "wavelength" l].
Proof.
  unfold collapse, array1. cbn [sizes size_of String.eqb Ascii.eqb Bool.eqb].
  cbn [without filter mem existsb fst negb orb String.eqb Ascii.eqb Bool.eqb
       volume fold_right snd Nat.mul Nat.add seq map values variances option_map].
  do 3 f_equal. transitivity (map (fun j => nth j l nan) (seq 0 (List.length l))).
  - apply map_seq_ext. intros j Hj. f_equal. cbn. lia.
  - apply map_nth_seq.
Qed.

Lemma dense_flat_band_ranges {E : External} (data_q : DataArray) (q_bins : QBins)
    (final_dims : list Dim) (l : list float) :
  _dense_merge_spectra data_q q_bins final_dims
    (Some (mkVar [("band", 1); ("wavelength", List.length l)] l None)) =
  (edges <- _to_q_bins q_bins ;;
   bands <- mapM (dense_band data_q edges (set_minus (da_dims data_q) final_dims))
                 [array1 "wavelength" l] ;;
   concat bands "band").
Proof.
  unfold _dense_merge_spectra. rewrite collapse_folded.
  destruct (_to_q_bins q_bins); [| reflexivity]. cbn [bind].
  unfold dims. cbn [sizes dims_of map fst set_minus filter mem existsb negb orb
                    String.eqb Ascii.eqb Bool.eqb].
  rewrite set_pop_single. reflexivity.
Qed.

(** X15.  With dense data only the first two values of a band are used: a
    flat list of band edges with further values gives exactly the result of
    its first two values alone. *)
Theorem merge_spectra_dense_band_first_two {E : External}
    (data : DataArray) (q_bins : QBins) (final_dims : option (list Dim))
    (a b : float) (rest : list float) :
  has_bins data = false ->
  merge_spectra data q_bins (Some (array1 "wavelength" (a :: b :: rest))) final_dims =
  merge_spectra data q_bins (Some (array1 "wavelength" [a; b])) final_dims.
Proof.
  intros Hb. unfold merge_spectra. rewrite !fold_bands_flat. cbn [bind]. rewrite Hb.
  rewrite !dense_flat_band_ranges.
  destruct (_to_q_bins q_bins); [| reflexivity]. cbn [bind mapM].
  replace (dense_band data a0 _ (array1 "wavelength" (a :: b :: rest)))
    with (dense_band data a0
            (set_minus (da_dims data) match final_dims with Some f => f | None => ["Q"] end)
            (array1 "wavelength" [a; b])); [reflexivity |].
  unfold dense_band, var_item, array1. cbn [sizes values List.length Nat.ltb Nat.leb nth].
  reflexivity.
Qed.

Lemma merge_spectra_dense_band_first_two_witness :
  merge_spectra dense_q (QEdges q_edges) (Some (array1 "wavelength" [2; 4; 5; 6]%float))
                (Some ["wavelength"; "Q"]) =
  merge_spectra dense_q (QEdges q_edges) (Some (array1 "wavelength" [2; 4]%float))
                (Some ["wavelength"; "Q"]).
Proof.
  exact (merge_spectra_dense_band_first_two (E := reference_ops) dense_q (QEdges q_edges)
           (Some ["wavelength"; "Q"]) 2%float 4%float [5; 6]%float eq_refl).
Defined.

(** X16.  With dense data a band needs two edges: a flat band list with a
    single value passes the Q binning and is then an [IndexError] when the
    upper edge is read. *)
Theorem merge_spectra_dense_short_band {E : External}
    (data : DataArray) (q_bins : QBins) (final_dims : option (list Dim)) (a : float) :
  has_bins data = false -> is_ok (_to_q_bins q_bins) = true ->
  merge_spectra data q_bins (Some (array1 "wavelength" [a])) final_dims = Raise IndexError.
Proof.
  intros Hb Hq. unfold merge_spectra. rewrite fold_bands_flat. cbn [bind]. rewrite Hb.
  rewrite dense_flat_band_ranges.
  destruct (_to_q_bins q_bins); [| discriminate]. reflexivity.
Qed.

Lemma merge_spectra_dense_short_band_witness :
  merge_spectra dense_q (QEdges q_edges) (Some (array1 "wavelength" [2]%float)) None
  = Raise IndexError.
Proof.
  apply (merge_spectra_dense_short_band (E := reference_ops)); reflexivity.
Defined.
(** ** The spectrum merger: event data *)

(** X17.  A band variable without any band (extent 0 along its band
    dimension) leaves the loop over the bands of the event path without a
    result: when the Q binning itself works, [merge_spectra] ends with the
    [AttributeError] of calling [squeeze] on [None]. *)
Theorem merge_spectra_events_no_band {E : External}
    (data : DataArray) (q_bins : QBins) (final_dims : option (list Dim))
    (band_dim : Dim) (k : nat) :
  has_bins data = true -> band_dim <> "wavelength" ->
  is_ok (merge_spectra data q_bins None final_dims) = true ->
  merge_spectra data q_bins (Some (mkVar [(band_dim, 0); ("wavelength", k)] [] None)) final_dims
  = Raise AttributeError.
Proof.
  intros Hb Hd Hok. apply String.eqb_neq in Hd.
  unfold merge_spectra, fold_bands, ndim in *. cbn [sizes List.length Nat.eqb bind] in *.
  rewrite Hb in *. unfold _events_merge_spectra in *.
  destruct (bins_concat data _) as [q_all |]; [| discriminate]. cbn [bind] in *.
  destruct (_to_q_bins q_bins) as [edges |]; [| discriminate]. cbn [bind] in *.
  destruct (bin q_all (fst edges) (snd edges)) as [q_binned |]; [| discriminate].
  cbn [bind].
  assert (Hd' : String.eqb "wavelength" band_dim = false)
    by (rewrite String.eqb_sym; exact Hd).
  unfold dims, collapse. cbn [sizes dims_of map fst set_minus filter mem existsb size_of].
  rewrite Hd, Hd', String.eqb_refl. cbn [orb negb]. rewrite set_pop_single. cbn [bind].
  cbn [without filter mem existsb fst]. rewrite Hd, String.eqb_refl. cbn [orb negb].
  reflexivity.
Qed.

Lemma merge_spectra_events_no_band_witness :
  merge_spectra pixels (QEdges q_edges)
    (Some (mkVar [("band", 0); ("wavelength", 2)] [] None)) None
  = Raise AttributeError.
Proof.
  apply (merge_spectra_events_no_band (E := reference_ops)).
  - reflexivity.
  - discriminate.
  - vm_compute. reflexivity.
Defined.

Lemma squeeze_events (P : Event -> Prop) (x : DataArray) :
  has_bins x = true /\ all_events P x ->
  has_bins (squeeze x) = true /\ all_events P (squeeze x).
Proof.
  unfold has_bins, all_events, squeeze, squeeze_data. cbn [data].
  destruct (data x); auto.
Qed.

Lemma as_slab_Forall {A : Type} (Q : A -> Prop) (d : Dim) (host s : Sizes) (xs : list A)
    (r : Sizes * list A) :
  as_slab d host s xs = Ok r -> Forall Q xs -> Forall Q (snd r).
Proof.
  intros H Hx.
  assert (Hrep : forall n, Forall Q (List.concat (repeat xs n))).
  { intros n. apply Forall_concat. apply Forall_forall. intros l Hl.
    apply repeat_spec in Hl. subst l. exact Hx. }
  unfold as_slab in H. destruct s as [| [d' n] s'].
  - inversion H; subst r. apply Hrep.
  - destruct (String.eqb d d'); [inversion H; subst r; exact Hx |].
    destruct (has_dim d s'); [discriminate |]. inversion H; subst r. apply Hrep.
Qed.

Lemma stack_Forall {A : Type} (Q : A -> Prop) (d : Dim) (ha sa : Sizes) (xa : list A)
    (hb sb : Sizes) (xb : list A) (r : Sizes * list A) :
  stack d ha sa xa hb sb xb = Ok r -> Forall Q xa -> Forall Q xb -> Forall Q (snd r).
Proof.
  unfold stack. intros H Ha Hb. inv_bind H.
  pose proof (as_slab_Forall Q _ _ _ _ _ E Ha) as H1.
  pose proof (as_slab_Forall Q _ _ _ _ _ E0 Hb) as H2.
  unfold join_slabs in H. destruct (fst x) as [| [? n] s1]; [discriminate |].
  destruct (fst x0) as [| [? m] s2]; [discriminate |].
  destruct (sizes_eqb s1 s2); [| discriminate]. inversion H; subst r.
  apply Forall_app. auto.
Qed.

Lemma lift_events (P : Event -> Prop) (d : Dim) (x y : DataArray) :
  lift d x = Ok y -> has_bins x = true /\ all_events P x ->
  has_bins y = true /\ all_events P y.
Proof.
  unfold lift, has_bins, all_events. intros H [Hb Hx].
  destruct (data x) as [v | s wv c]; [discriminate |].
  inv_bind H. inv_bind E. inversion E; subst x0. inversion H; subst y. cbn [data].
  split; [reflexivity |]. exact (as_slab_Forall _ _ _ _ _ _ E0 Hx).
Qed.

Lemma concat2_events (P : Event -> Prop) (d : Dim) (a b c : DataArray) :
  concat2 d a b = Ok c -> has_bins a = true /\ all_events P a -> all_events P b ->
  has_bins c = true /\ all_events P c.
Proof.
  unfold concat2, has_bins, all_events, data_concat. intros H [Hb Ha] Hbe. inv_bind H.
  destruct (data a) as [va | sa wa ca]; [discriminate |].
  destruct (data b) as [vb | sb wb cb]; [discriminate |].
  destruct (Bool.eqb wa wb); [| discriminate]. inv_bind E.
  inversion E; subst x. inversion H; subst c. cbn [data].
  split; [reflexivity |]. exact (stack_Forall _ _ _ _ _ _ _ _ _ E2 Ha Hbe).
Qed.

Lemma concat_pair_events (P : Event -> Prop) (d : Dim) (o band c : DataArray) :
  concat [o; band] d = Ok c -> has_bins o = true /\ all_events P o -> all_events P band ->
  has_bins c = true /\ all_events P c.
Proof.
  unfold concat. cbn [fold_left]. intros H Ho Hband. inv_bind H.
  inversion E0; subst x0.
  exact (concat2_events P d _ _ _ H (lift_events P d _ _ E Ho) Hband).
Qed.

Lemma events_band_loop_events (P : Event -> Prop) (q_binned : DataArray) (d : Dim)
    (ranges : list Var) (out res : option DataArray) :
  all_events P q_binned ->
  (forall o, out = Some o -> has_bins o = true /\ all_events P o) ->
  events_band_loop q_binned d ranges out = Ok res ->
  forall r, res = Some r -> has_bins r = true /\ all_events P r.
Proof.
  intros Hq. revert out. induction ranges as [| range rest IH]; simpl; intros out Hout H.
  - inversion H; subst res. exact Hout.
  - inv_bind H.
    pose proof (bin_by_events P _ _ _ _ Hq E) as Hband.
    apply (IH (Some x0)); [| exact H].
    intros o Ho. inversion Ho; subst o; clear Ho.
    assert (Hsq : has_bins (squeeze x) = true /\ all_events P (squeeze x)).
    { apply squeeze_events. destruct Hband; auto. }
    destruct out as [o |].
    + exact (concat_pair_events P d _ _ _ E0 (Hout o eq_refl) (proj2 Hsq)).
    + inversion E0; subst x0. exact Hsq.
Qed.

(** X18.  Merging event data never histograms it and never touches an
    event: with or without wavelength bands the result is in event form,
    and whatever holds for every event of the input (its weight, variance
    and coordinate values) holds for every event of the result. *)
Theorem merge_spectra_keeps_events {E : External} (P : Event -> Prop)
    (data : DataArray) (q_bins : QBins) (wavelength_bands : option Var)
    (final_dims : option (list Dim)) (r : DataArray) :
  has_bins data = true -> all_events P data ->
  merge_spectra data q_bins wavelength_bands final_dims = Ok r ->
  has_bins r = true /\ all_events P r.
Proof.
  intros Hb HP H. unfold merge_spectra in H. inv_bind H. rewrite Hb in E1.
  destruct x0 as [o |]; [| discriminate]. inversion H; subst r; clear H.
  apply squeeze_events.
  unfold _events_merge_spectra in E1. inv_bind E1.
  pose proof (bins_concat_events P _ _ _ HP E2) as Hall.
  destruct (bin_events P _ _ _ _ Hall E4) as [Hq Hqb].
  destruct x as [bands |].
  - inv_bind E1.
    apply (events_band_loop_events P x2 x x3 None (Some o) Hq); [discriminate | exact E1 | reflexivity].
  - inversion E1; subst o. auto.
Qed.

Lemma merge_spectra_keeps_events_witness :
  exists r, merge_spectra pixels (QEdges q_edges) (Some two_bands) None = Ok r /\
    has_bins r = true /\ all_events (fun e => ev_weight e = 1%float) r.
Proof.
  eexists. split; [vm_compute; reflexivity |].
  apply (merge_spectra_keeps_events (E := reference_ops) (fun e => ev_weight e = 1%float)
           pixels (QEdges q_edges) (Some two_bands) None).
  - reflexivity.
  - repeat constructor.
  - vm_compute. reflexivity.
Defined.

Lemma forallb_cells (f : Event -> bool) (cells : list (list Event)) :
  Forall (Forall (fun e => f e = true)) cells -> forallb (forallb f) cells = true.
Proof.
  intros H. apply forallb_forall. intros c Hc. apply forallb_forall. intros e He.
  rewrite Forall_forall in H. specialize (H c Hc). rewrite Forall_forall in H. exact (H e He).
Qed.

(** Binning event data along a coordinate that every event has, onto at
    least two sorted edges, returns. *)
Lemma bin_by_returns (x : DataArray) (name : Dim) (edges : Var) (n : nat) :
  has_bins x = true -> sizes edges = [(name, n)] ->
  2 <= List.length (values edges) -> sorted_edges (values edges) = true ->
  all_events (fun e => has_coord name e = true) x ->
  exists y, bin_by x name edges = Ok y.
Proof.
  intros Hb Hs Hlen Hsorted Hall. unfold bin_by, dim. rewrite Hs. cbn [bind].
  rewrite String.eqb_refl. cbn [negb].
  assert (H1 : exists x1, (if has_dim name (da_sizes x) then bins_concat x [name] else Ok x)
                          = Ok x1 /\ has_bins x1 = true /\
                          all_events (fun e => has_coord name e = true) x1).
  { destruct (has_dim name (da_sizes x)).
    - destruct (bins_concat_binned x [name] Hb) as [y Hy]. exists y.
      split; [exact Hy |]. split; [| exact (bins_concat_events _ _ _ _ Hall Hy)].
      unfold bins_concat in Hy. unfold has_bins in *.
      destruct (data x); [discriminate |]. inversion Hy. reflexivity.
    - exists x. auto. }
  destruct H1 as (x1 & -> & Hb1 & Hall1). cbn [bind].
  unfold has_bins in Hb1. unfold all_events in Hall1.
  destruct (data x1) as [v | s wv cells]; [discriminate |].
  destruct (Nat.ltb_spec (List.length (values edges)) 2); [lia |].
  rewrite Hsorted. cbn [negb]. rewrite (forallb_cells _ _ Hall1). cbn [negb]. eauto.
Qed.

Lemma final_q_only (D : list Dim) (s : Sizes) :
  (forall p, In p s -> In (fst p) D) ->
  without ["Q"] (without (set_minus D ["Q"]) s) = [].
Proof.
  unfold without. induction s as [| p s IH]; intros H; [reflexivity |].
  cbn [filter]. rewrite mem_set_minus.
  assert (Hp : mem (fst p) D = true) by (apply mem_In, H; left; reflexivity).
  rewrite Hp. cbn [andb]. rewrite negb_involutive.
  destruct (mem (fst p) ["Q"]) eqn:Eq.
  - cbn [filter]. rewrite Eq. cbn [negb]. apply IH. intros q Hq. apply H. right. exact Hq.
  - apply IH. intros q Hq. apply H. right. exact Hq.
Qed.

Lemma events_true (x : DataArray) : all_events (fun _ => True) x.
Proof.
  unfold all_events. destruct (data x); [exact I |].
  apply Forall_forall. intros c _. apply Forall_forall. auto.
Qed.

Lemma events_weaken (P Q : Event -> Prop) (x : DataArray) :
  (forall e, P e -> Q e) -> all_events P x -> all_events Q x.
Proof.
  unfold all_events. intros H. destruct (data x); [auto |].
  intros Hc. eapply Forall_impl; [| exact Hc]. intros c. apply Forall_impl. exact H.
Qed.

(** The Q binning of event data with the default final dimensions: every
    dimension of the input is merged and the bins in Q are the only
    dimension. *)
Lemma q_binned_returns {E : External} (x : DataArray) (edges : Var) (n : nat)
    (P : Event -> Prop) :
  has_bins x = true -> sizes edges = [("Q", n)] ->
  2 <= List.length (values edges) -> sorted_edges (values edges) = true ->
  all_events (fun e => has_coord "Q" e = true) x -> all_events P x ->
  exists q_all q_binned,
    bins_concat x (set_minus (da_dims x) ["Q"]) = Ok q_all /\
    bin q_all "Q" (QEdges edges) = Ok q_binned /\
    has_bins q_binned = true /\ all_events P q_binned /\
    da_sizes q_binned = [("Q", List.length (values edges) - 1)].
Proof.
  intros Hb Hs Hlen Hsorted Hall HP.
  destruct (bins_concat_binned x (set_minus (da_dims x) ["Q"]) Hb) as [q_all Hq].
  assert (Hbq : has_bins q_all = true).
  { unfold bins_concat in Hq. unfold has_bins in *.
    destruct (data x); [discriminate |]. inversion Hq. reflexivity. }
  destruct (bin_by_returns q_all "Q" edges n Hbq Hs Hlen Hsorted
              (bins_concat_events _ _ _ _ Hall Hq)) as [q_binned Hbin].
  exists q_all, q_binned. split; [exact Hq |]. split; [exact Hbin |].
  destruct (bin_by_events P _ _ _ _ (bins_concat_events _ _ _ _ HP Hq) Hbin) as [HPq Hbb].
  split; [exact Hbb |]. split; [exact HPq |].
  rewrite (bin_by_sizes _ _ _ _ Hbin), (bins_concat_sizes _ _ _ Hq).
  unfold da_dims. rewrite final_q_only; [reflexivity |].
  intros p Hp. apply (in_map fst). exact Hp.
Qed.

(** X19.  Event data without wavelength bands and with the default final
    dimensions: given at least two sorted Q edges and a Q coordinate on
    every event, [merge_spectra] returns; the result is in event form and
    all dimensions of the input are merged, so the bins in Q are the only
    dimension left (none when there is a single bin). *)
Theorem merge_spectra_events_returns {E : External}
    (data : DataArray) (edges : Var) (n : nat) :
  has_bins data = true -> sizes edges = [("Q", n)] ->
  2 <= List.length (values edges) -> sorted_edges (values edges) = true ->
  all_events (fun e => has_coord "Q" e = true) data ->
  exists r, merge_spectra data (QEdges edges) None None = Ok r /\
    has_bins r = true /\
    da_sizes r = squeezed_sizes [("Q", List.length (values edges) - 1)].
Proof.
  intros Hb Hs Hlen Hsorted Hall.
  destruct (q_binned_returns data edges n (fun _ => True) Hb Hs Hlen Hsorted Hall
              (events_weaken _ _ _ (fun _ _ => I) Hall))
    as (q_all & q_binned & Hq & Hbin & Hbb & _ & Hsz).
  exists (squeeze q_binned).
  unfold merge_spectra, fold_bands. cbn [bind]. rewrite Hb.
  unfold _events_merge_spectra, _to_q_bins, dim. rewrite Hs. cbn [bind fst snd].
  rewrite Hq. cbn [bind]. rewrite Hbin. cbn [bind].
  split; [reflexivity |]. rewrite da_sizes_squeeze, Hsz. split; [| reflexivity].
  apply (squeeze_events (fun _ => True)). split; [exact Hbb | apply events_true].
Qed.

Lemma merge_spectra_events_returns_witness :
  exists r, merge_spectra pixels (QEdges q_edges) None None = Ok r /\
    has_bins r = true /\ da_sizes r = squeezed_sizes [("Q", 3)].
Proof.
  apply (merge_spectra_events_returns (E := reference_ops) pixels q_edges 4).
  - reflexivity.
  - reflexivity.
  - cbn. lia.
  - reflexivity.
  - repeat constructor.
Defined.

(** X20.  With event data a flat list of more than two band edges is one
    band with several wavelength bins: the result keeps the events and has,
    besides the bins in Q, a dimension [wavelength] with one bin per pair of
    consecutive edges, and no band dimension. *)
Theorem merge_spectra_events_flat_bands {E : External}
    (data : DataArray) (edges : Var) (n : nat) (l : list float) :
  has_bins data = true -> sizes edges = [("Q", n)] ->
  2 <= List.length (values edges) -> sorted_edges (values edges) = true ->
  2 <= List.length l -> sorted_edges l = true ->
  all_events (fun e => has_coord "Q" e = true) data ->
  all_events (fun e => has_coord "wavelength" e = true) data ->
  exists r, merge_spectra data (QEdges edges) (Some (array1 "wavelength" l)) None = Ok r /\
    has_bins r = true /\
    da_sizes r = squeezed_sizes [("Q", List.length (values edges) - 1);
                                 ("wavelength", List.length l - 1)].
Proof.
  intros Hb Hs Hlen Hsorted Hl Hlsorted Hall Hwav.
  destruct (q_binned_returns data edges n _ Hb Hs Hlen Hsorted Hall Hwav)
    as (q_all & q_binned & Hq & Hbin & Hbb & Hwq & Hsz).
  destruct (bin_by_returns q_binned "wavelength" (array1 "wavelength" l) (List.length l)
              Hbb eq_refl Hl Hlsorted Hwq) as [b Hband].
  exists (squeeze (squeeze b)).
  unfold merge_spectra. rewrite fold_bands_flat. cbn [bind]. rewrite Hb.
  unfold _events_merge_spectra, _to_q_bins, dim. rewrite Hs. cbn [bind fst snd].
  rewrite Hq. cbn [bind]. rewrite Hbin. cbn [bind].
  rewrite collapse_folded.
  unfold dims. cbn [sizes dims_of map fst set_minus filter mem existsb negb orb
                    String.eqb Ascii.eqb Bool.eqb].
  rewrite set_pop_single. cbn [bind events_band_loop]. rewrite Hband. cbn [bind].
  split; [reflexivity |].
  destruct (bin_by_events (fun _ => True) _ _ _ _ (events_true q_binned) Hband) as [Hev Hbb'].
  split.
  - apply (squeeze_events (fun _ => True)), (squeeze_events (fun _ => True)). auto.
  - rewrite !da_sizes_squeeze, squeezed_sizes_idem, (bin_by_sizes _ _ _ _ Hband), Hsz.
    reflexivity.
Qed.

Lemma merge_spectra_events_flat_bands_witness :
  exists r, merge_spectra pixels (QEdges q_edges)
              (Some (array1 "wavelength" [1; 4; 8]%float)) None = Ok r /\
    has_bins r = true /\ da_sizes r = squeezed_sizes [("Q", 3); ("wavelength", 2)].
Proof.
  apply (merge_spectra_events_flat_bands (E := reference_ops) pixels q_edges 4
           [1; 4; 8]%float).
  - reflexivity.
  - reflexivity.
  - cbn. lia.
  - reflexivity.
  - cbn. lia.
  - reflexivity.
  - repeat constructor.
  - repeat constructor.
Defined.
(** ** Transmission fraction of a run against itself *)

Lemma div_eucl_self_shift (m : positive) :
  Z.div_eucl (Z.shiftl (Zpos m) 53) (Zpos m) = (9007199254740992%Z, 0%Z).
Proof.
  rewrite Z.shiftl_mul_pow2 by lia. change (2 ^ 53)%Z with 9007199254740992%Z.
  rewrite Z.mul_comm.
  pose proof (Z.div_mul 9007199254740992 (Zpos m) ltac:(lia)) as Hq.
  pose proof (Z.mod_mul 9007199254740992 (Zpos m) ltac:(lia)) as Hr.
  unfold Z.div, Z.modulo in Hq, Hr.
  destruct (Z.div_eucl (9007199254740992 * Zpos m) (Zpos m)) as [q r].
  subst. reflexivity.
Qed.

Lemma SF64div_self (s : bool) (m : positive) (e : Z) :
  SF64div (S754_finite s m e) (S754_finite s m e) = SF_one.
Proof.
  unfold SF64div, SFdiv, SFdiv_core_binary. rewrite xorb_nilpotent.
  replace (Zdigits2 (Zpos m) + e - (Zdigits2 (Zpos m) + e))%Z with 0%Z by lia.
  rewrite Z.sub_diag.
  change (Z.min (fexp prec emax 0) 0) with (-53)%Z.
  change (0 - -53)%Z with 53%Z. cbv iota.
  rewrite div_eucl_self_shift.
  assert (Hl : new_location (Zpos m) 0 = loc_Exact).
  { unfold new_location, new_location_even, new_location_odd.
    destruct (Z.even (Zpos m)); reflexivity. }
  rewrite Hl. reflexivity.
Qed.

(** A finite number other than zero, divided by itself, is 1. *)
Lemma fdiv_self (x : float) : finite_nonzero x = true -> (x / x)%float = 1%float.
Proof.
  unfold finite_nonzero. intros H. apply Prim2SF_inj.
  rewrite FloatAxioms.div_spec, Prim2SF_one.
  destruct (Prim2SF x) as [| | | s m e]; try discriminate. apply SF64div_self.
Qed.

Lemma map_const_seq {A : Type} (c : A) (a n : nat) : map (fun _ => c) (seq a n) = repeat c n.
Proof. revert a. induction n as [| n IH]; intros a; simpl; [| rewrite IH]; reflexivity. Qed.

Lemma nth_map_seq {A : Type} (f : nat -> A) (n k : nat) (dflt : A) :
  k < n -> nth k (map f (seq 0 n)) dflt = f k.
Proof.
  intros Hk. rewrite (nth_indep _ dflt (f 0)) by (rewrite length_map, length_seq; exact Hk).
  rewrite (map_nth f). rewrite seq_nth by exact Hk. reflexivity.
Qed.

(** X21.  A run measured against itself transmits everything: when the
    sample run and the direct run have the same incident and the same
    transmission monitor, dense and without variances, with counts that are
    all finite and different from zero, the transmission fraction is exactly
    1 in every bin. *)
Theorem transmission_fraction_of_same_run
    (incident transmission : DataArray) (vi vt : Var) (cs : list (string * Coord)) :
  incident = mkDataArray (Dense vi) cs [] -> transmission = mkDataArray (Dense vt) cs [] ->
  sizes vt = sizes vi -> NoDup (dims vi) -> NoDup (map fst cs) ->
  Forall (fun nc => c_aligned (snd nc) = true) cs ->
  List.length (values vi) = volume (sizes vi) ->
  List.length (values vt) = volume (sizes vi) ->
  variances vi = None -> variances vt = None ->
  Forall (fun x => finite_nonzero x = true) (values vi) ->
  Forall (fun x => finite_nonzero x = true) (values vt) ->
  transmission_fraction incident transmission incident transmission =
  Ok (mkDataArray (Dense (mkVar (sizes vi) (repeat 1%float (volume (sizes vi))) None)) cs []).
Proof.
  intros -> -> Hs Hnd Hk Hal Hli Hlt Hvi Hvt Hfi Hft.
  assert (Hndt : NoDup (dims vt)) by (unfold dims; rewrite Hs; exact Hnd).
  assert (Hone : forall v, sizes v = sizes vi -> variances v = None ->
             List.length (values v) = volume (sizes vi) ->
             Forall (fun x => finite_nonzero x = true) (values v) ->
             da_binop OpDiv (mkDataArray (Dense v) cs []) (mkDataArray (Dense v) cs []) =
             Ok (mkDataArray (Dense (mkVar (sizes vi) (repeat 1%float (volume (sizes vi))) None))
                             cs [])).
  { intros v Hsv Hvv Hlv Hfv. unfold da_binop. cbn [data coords masks].
    rewrite (merge_coords_shared cs cs Hk Hal (coords_shared_refl cs Hk Hal)). cbn [bind].
    assert (Hndv : NoDup (dims v)) by (unfold dims; rewrite Hsv; exact Hnd).
    rewrite (var_binop_same_shape OpDiv v v Hndv eq_refl).
    unfold merge_masks. cbn [bind merge_masks_left filter app].
    unfold same_shape_variances. rewrite Hvv, Hsv.
    assert (Hv1 : map (fun k => op_value OpDiv (nth k (values v) nan) (nth k (values v) nan))
                      (seq 0 (volume (sizes vi))) = repeat 1%float (volume (sizes vi))).
    { rewrite <- (map_const_seq 1%float 0). apply map_seq_ext. intros k Hk'.
      cbn [op_value]. apply fdiv_self. rewrite Forall_forall in Hfv. apply Hfv.
      apply nth_In. lia. }
    rewrite Hv1. reflexivity. }
  unfold transmission_fraction.
  rewrite (Hone vt Hs Hvt Hlt Hft), (Hone vi eq_refl Hvi Hli Hfi). cbn [bind].
  unfold da_binop. cbn [data coords masks].
  rewrite (merge_coords_shared cs cs Hk Hal (coords_shared_refl cs Hk Hal)). cbn [bind].
  rewrite (var_binop_same_shape OpMul
             (mkVar (sizes vi) (repeat 1%float (volume (sizes vi))) None)
             (mkVar (sizes vi) (repeat 1%float (volume (sizes vi))) None) Hnd eq_refl).
  unfold merge_masks. cbn [bind merge_masks_left filter app sizes values].
  unfold same_shape_variances. cbn [variances].
  assert (Hv2 : map (fun k => op_value OpMul
                                (nth k (repeat 1%float (volume (sizes vi))) nan)
                                (nth k (repeat 1%float (volume (sizes vi))) nan))
                    (seq 0 (volume (sizes vi))) = repeat 1%float (volume (sizes vi))).
  { transitivity (map (fun _ : nat => 1%float) (seq 0 (volume (sizes vi))));
      [| apply map_const_seq].
    apply map_seq_ext. intros k Hk'.
    rewrite <- (map_const_seq 1%float 0), (nth_map_seq _ _ _ _ Hk'). reflexivity. }
  rewrite Hv2. reflexivity.
Qed.

Lemma transmission_fraction_of_same_run_witness :
  let cs := [("wavelength", mkCoord (array1 "wavelength" [1; 2; 3]%float) true)] in
  transmission_fraction
    (mkDataArray (Dense (array1 "wavelength" [100; 90]%float)) cs [])
    (mkDataArray (Dense (array1 "wavelength" [80; 0.5]%float)) cs [])
    (mkDataArray (Dense (array1 "wavelength" [100; 90]%float)) cs [])
    (mkDataArray (Dense (array1 "wavelength" [80; 0.5]%float)) cs []) =
  Ok (mkDataArray (Dense (mkVar [("wavelength", 2)] [1; 1]%float None)) cs []).
Proof.
  intros cs.
  apply (transmission_fraction_of_same_run _ _
           (array1 "wavelength" [100; 90]%float) (array1 "wavelength" [80; 0.5]%float) cs);
    try reflexivity; try nodup_strings; repeat constructor.
Defined.
(** ** The spectrum merger: bands are merged one by one *)

Ltac bind_as H a Ha :=
  apply bind_ok in H; destruct H as (a & Ha & H); cbv beta in H.

Lemma collapse_two_bands (lo1 hi1 lo2 hi2 : float) :
  collapse (mkVar [("band", 2); ("wavelength", 2)] [lo1; hi1; lo2; hi2] None) "wavelength"
  = Ok [band_edges lo1 hi1; band_edges lo2 hi2].
Proof. reflexivity. Qed.

Lemma squeeze_squeeze (x : DataArray) : squeeze (squeeze x) = squeeze x.
Proof.
  apply squeeze_fixed. rewrite da_sizes_squeeze. apply unit_dims_squeezed.
Qed.

(** The result for a single band [lo, hi] on event data. *)
Lemma single_band_result {E : External} (x : DataArray) (q_bins : QBins)
    (final_dims : option (list Dim)) (lo hi : float) (r : DataArray) :
  has_bins x = true ->
  merge_spectra x q_bins (Some (band_edges lo hi)) final_dims = Ok r ->
  exists q_all edges q_binned b,
    bins_concat x (set_minus (da_dims x)
                     match final_dims with Some f => f | None => ["Q"] end) = Ok q_all /\
    _to_q_bins q_bins = Ok edges /\
    bin q_all (fst edges) (snd edges) = Ok q_binned /\
    bin_by q_binned "wavelength" (band_edges lo hi) = Ok b /\
    r = squeeze b.
Proof.
  intros Hb H. unfold merge_spectra, band_edges in H. rewrite fold_bands_flat in H.
  cbn [bind] in H. rewrite Hb in H. bind_as H out Hout.
  destruct out as [o |]; [| discriminate]. inversion H; subst r; clear H.
  unfold _events_merge_spectra in Hout.
  bind_as Hout q_all Hq. bind_as Hout edges He. bind_as Hout q_binned Hbin.
  bind_as Hout band_dim Hpop. bind_as Hout ranges Hc.
  cbn [List.length] in Hc. rewrite (collapse_flat lo hi) in Hc. inversion Hc; subst ranges; clear Hc.
  cbn [events_band_loop] in Hout. bind_as Hout b Hband. bind_as Hout o' Ho.
  inversion Ho; subst o'; clear Ho. inversion Hout; subst o; clear Hout.
  exists q_all, edges, q_binned, b. rewrite squeeze_squeeze. auto.
Qed.

(** Two event arrays of the same extents stacked along a new dimension. *)
Lemma concat_pair_cells (d : Dim) (o band c : DataArray) (S : Sizes) (wv wv' : bool)
    (c1 c2 : list (list Event)) :
  data o = Binned S wv c1 -> data band = Binned S wv' c2 -> ~ In d (dims_of S) ->
  concat [o; band] d = Ok c ->
  data c = Binned ((d, 2) :: S) wv (c1 ++ c2) /\ wv' = wv.
Proof.
  intros Eo Eb Hd H. unfold concat in H. cbn [fold_left] in H.
  rewrite (lift_new d o) in H by (unfold da_dims, da_sizes; rewrite Eo; exact Hd).
  cbn [bind] in H. rewrite Eo in H. unfold concat2 in H. cbn [data] in H.
  bind_as H dt Hdt. bind_as H cs Hcs. bind_as H ms Hms. inversion H; subst c; clear H.
  cbn [data]. rewrite Eb in Hdt. unfold data_concat in Hdt.
  destruct (Bool.eqb wv wv') eqn:Ew; [| discriminate]. apply Bool.eqb_prop in Ew.
  bind_as Hdt r Hr. inversion Hdt; subst dt; clear Hdt.
  destruct (stack_sizes d _ _ _ S 1 c1 c2 r Hr Hd (proj2 (size_of_None d S) Hd)) as [-> _].
  auto.
Qed.

Lemma squeeze_binned (x : DataArray) (s : Sizes) (wv : bool) (c : list (list Event)) :
  data x = Binned s wv c -> data (squeeze x) = Binned (squeezed_sizes s) wv c.
Proof.
  intros H. unfold squeeze, da_sizes. rewrite H. cbn [data data_sizes squeeze_data].
  rewrite drop_unit_self. reflexivity.
Qed.

(** X22.  Bands are merged one by one and stacked in their order: on event
    data the result for two bands consists of the events of the result for
    the first band alone followed by those of the result for the second
    band alone, under a new outermost dimension [band] of extent 2.  Nothing
    is assumed about the bands: they may overlap, and an event in both
    ranges is then in both slices. *)
Theorem merge_spectra_two_bands {E : External} (x : DataArray) (q_bins : QBins)
    (final_dims : option (list Dim)) (lo1 hi1 lo2 hi2 : float) (r1 r2 r : DataArray) :
  has_bins x = true ->
  merge_spectra x q_bins (Some (band_edges lo1 hi1)) final_dims = Ok r1 ->
  merge_spectra x q_bins (Some (band_edges lo2 hi2)) final_dims = Ok r2 ->
  merge_spectra x q_bins
    (Some (mkVar [("band", 2); ("wavelength", 2)] [lo1; hi1; lo2; hi2] None)) final_dims
  = Ok r ->
  ~ In "band" (da_dims r1) ->
  exists S wv c1 c2,
    data r1 = Binned S wv c1 /\ data r2 = Binned S wv c2 /\
    data r = Binned (("band", 2) :: S) wv (c1 ++ c2).
Proof.
  intros Hb H1 H2 H Hfree.
  destruct (single_band_result x q_bins final_dims lo1 hi1 r1 Hb H1)
    as (q_all & edges & q_binned & b1 & Hq & He & Hbin & Hband1 & ->).
  destruct (single_band_result x q_bins final_dims lo2 hi2 r2 Hb H2)
    as (q_all' & edges' & q_binned' & b2 & Hq' & He' & Hbin' & Hband2 & ->).
  rewrite Hq in Hq'. inversion Hq'; subst q_all'; clear Hq'.
  rewrite He in He'. inversion He'; subst edges'; clear He'.
  rewrite Hbin in Hbin'. inversion Hbin'; subst q_binned'; clear Hbin'.
  unfold merge_spectra, fold_bands, ndim in H. cbn [sizes List.length Nat.eqb bind] in H.
  rewrite Hb in H. bind_as H out Hout.
  destruct out as [c |]; [| discriminate]. inversion H; subst r; clear H.
  unfold _events_merge_spectra in Hout. rewrite Hq in Hout. cbn [bind] in Hout.
  rewrite He in Hout. cbn [bind] in Hout. rewrite Hbin in Hout. cbn [bind] in Hout.
  rewrite collapse_two_bands in Hout.
  unfold dims in Hout.
  cbn [sizes dims_of map fst set_minus filter mem existsb negb orb
       String.eqb Ascii.eqb Bool.eqb] in Hout.
  rewrite set_pop_single in Hout. cbn [bind events_band_loop] in Hout.
  rewrite Hband1, Hband2 in Hout. cbn [bind] in Hout.
  bind_as Hout c' Hc. inversion Hout; subst c'; clear Hout.
  destruct (bin_by_events (fun _ => True) _ _ _ _ (events_true q_binned) Hband1) as [_ Hb1].
  destruct (bin_by_events (fun _ => True) _ _ _ _ (events_true q_binned) Hband2) as [_ Hb2].
  pose proof (bin_by_sizes _ _ _ _ Hband1) as Hs1.
  pose proof (bin_by_sizes _ _ _ _ Hband2) as Hs2.
  unfold has_bins in Hb1, Hb2. unfold da_sizes in Hs1 at 1. unfold da_sizes in Hs2 at 1.
  destruct (data b1) as [? | s1 wv c1] eqn:E1; [discriminate |].
  destruct (data b2) as [? | s2 wv' c2] eqn:E2; [discriminate |].
  cbn [data_sizes] in Hs1, Hs2.
  assert (Hs : s2 = s1) by (rewrite Hs1, Hs2; reflexivity).
  clear Hs1 Hs2. subst s2.
  pose proof (squeeze_binned _ _ _ _ E1) as Hq1.
  pose proof (squeeze_binned _ _ _ _ E2) as Hq2.
  assert (Hd : ~ In "band" (dims_of (squeezed_sizes s1))).
  { unfold da_dims, da_sizes in Hfree. rewrite Hq1 in Hfree. exact Hfree. }
  destruct (concat_pair_cells "band" _ _ _ _ _ _ _ _ Hq1 Hq2 Hd Hc) as [Ec ->].
  exists (squeezed_sizes s1), wv, c1, c2.
  split; [exact Hq1 |]. split; [exact Hq2 |].
  rewrite (squeeze_binned _ _ _ _ Ec). rewrite squeezed_cons_keep by discriminate.
  rewrite squeezed_sizes_idem. reflexivity.
Qed.

Lemma merge_spectra_two_bands_witness :
  exists r1 r2 r,
    merge_spectra pixels (QEdges q_edges) (Some (band_edges 1 5)) None = Ok r1 /\
    merge_spectra pixels (QEdges q_edges) (Some (band_edges 3 8)) None = Ok r2 /\
    merge_spectra pixels (QEdges q_edges)
      (Some (mkVar [("band", 2); ("wavelength", 2)] [1; 5; 3; 8]%float None)) None = Ok r /\
    exists S wv c1 c2,
      data r1 = Binned S wv c1 /\ data r2 = Binned S wv c2 /\
      data r = Binned (("band", 2) :: S) wv (c1 ++ c2).
Proof.
  do 3 eexists. split; [vm_compute; reflexivity |].
  split; [vm_compute; reflexivity |]. split; [vm_compute; reflexivity |].
  apply (merge_spectra_two_bands (E := reference_ops) pixels (QEdges q_edges) None
           1%float 5%float 3%float 8%float).
  - reflexivity.
  - vm_compute. reflexivity.
  - vm_compute. reflexivity.
  - vm_compute. reflexivity.
  - cbn. intuition discriminate.
Defined.
(** ** Monitor preprocessing under [drop], the denominator under [fail] *)

(** X23.  Under the mode [drop] the variances of the background never
    stop the subtraction: for a dense re-binned monitor and a scalar
    background level without masks whose coordinates are covered by the
    monitor's, [preprocess_monitor_data] returns, whether or not the
    background carries variances. *)
Theorem preprocess_monitor_drop_returns {E : External}
    (monitor : DataArray) (wavelength_bins non_background_range : Var)
    (background rebinned : DataArray) (vb vm : Var) :
  background_level monitor non_background_range = Ok background ->
  to_wavelength_bins monitor wavelength_bins = Ok rebinned ->
  data background = Dense vb -> sizes vb = [] -> masks background = [] ->
  data rebinned = Dense vm -> NoDup (dims vm) ->
  coords_cover (coords rebinned) (coords background) = true ->
  exists r,
    preprocess_monitor_data monitor wavelength_bins (Some non_background_range) drop = Ok r.
Proof.
  intros Hb Hr Eb Hsb Hmb Em Hnd Hcov. unfold preprocess_monitor_data.
  rewrite Hb. cbn [bind]. rewrite Hr. cbn [bind].
  unfold da_isub, da_values. rewrite Em, Eb. cbn [data coords masks]. rewrite Hcov.
  unfold var_binop. cbn [sizes var_values]. rewrite Hsb, merge_sizes_nil_r. cbn [bind].
  unfold variance_guard, broadcasts. rewrite Nat.eqb_refl. cbn [negb variances].
  assert (G : match variances vm with Some _ => Ok tt | None => Ok tt end = Ok tt)
    by (destruct (variances vm); reflexivity).
  rewrite G. cbn [bind sizes variances var_values]. rewrite sizes_eqb_refl. cbn [negb].
  rewrite Hmb, merge_masks_nil_r.
  destruct (variances vm); cbn [bind]; eauto.
Qed.

Lemma preprocess_monitor_drop_returns_witness :
  exists r, preprocess_monitor_data monitor4 wavelength_edges (Some signal_range) drop = Ok r.
Proof.
  apply (preprocess_monitor_drop_returns (E := reference_ops)
           monitor4 wavelength_edges signal_range
           (mkDataArray (Dense (mkVar [] [5]%float (Some [2.5]%float))) [] [])
           monitor4 (mkVar [] [5]%float (Some [2.5]%float))
           (mkVar [("wavelength", 4)] [5; 20; 30; 5]%float (Some [5; 20; 30; 5]%float)));
    try reflexivity.
  nodup_strings.
Defined.

(** X24.  Under the mode [fail] the denominator is the plain product:
    each of its elements is the float product of the solid angle and the
    wavelength term at the same labelled position, the solid angle being
    repeated along the dimensions only the term has and the term along those
    only the solid angle has. *)
Theorem iofq_denominator_product {E : External} {B : Broadcasters}
    (wavelength_term solid_angle r : DataArray) :
  iofq_denominator wavelength_term solid_angle fail = Ok r ->
  NoDup (da_dims wavelength_term) ->
  has_bins r = false /\
  forall ix, valid_index (da_sizes r) ix ->
    at_index (dense_view r) ix =
    (at_index (dense_view solid_angle) ix * at_index (dense_view wavelength_term) ix)%float.
Proof.
  unfold iofq_denominator, _broadcasters. cbn [bind]. intros H Hnd.
  destruct (da_binop_inv _ _ _ _ H) as (vs & vw & v & Es & Ew & Hv & Er).
  split; [exact (has_bins_dense _ _ Er) |].
  intros ix Hix. unfold dense_view, da_dims, da_sizes in *.
  rewrite Er in *. rewrite Es. rewrite Ew in *.
  exact (var_binop_at OpMul vs vw v ix Hv Hnd Hix).
Qed.

Lemma iofq_denominator_product_witness :
  let term := mkDataArray (Dense (array1 "wavelength" [10; 20]%float))
                [("wavelength", mkCoord (array1 "wavelength" [1.5; 2.5]%float) true)] [] in
  let solid_angle := mkDataArray (Dense (array1 "spectrum" [0.5; 0.25; 0.125]%float)) [] [] in
  let r := mkDataArray
             (Dense (mkVar [("spectrum", 3); ("wavelength", 2)]
                           [5; 10; 2.5; 5; 1.25; 2.5]%float None))
             [("wavelength", mkCoord (array1 "wavelength" [1.5; 2.5]%float) true)] [] in
  iofq_denominator term solid_angle fail = Ok r /\
  at_index (dense_view r) [("spectrum", 2%nat); ("wavelength", 1%nat)] =
  (at_index (dense_view solid_angle) [("spectrum", 2%nat); ("wavelength", 1%nat)] *
   at_index (dense_view term) [("spectrum", 2%nat); ("wavelength", 1%nat)])%float.
Proof.
  intros term solid_angle r.
  assert (H : iofq_denominator (E := reference_ops) (B := reference_broadcasters)
                term solid_angle fail = Ok r) by (vm_compute; reflexivity).
  split; [exact H |].
  apply (proj2 (iofq_denominator_product term solid_angle r H ltac:(nodup_strings))).
  valid_index_closed.
Defined.
